(** * WeaveApp2: the PDF document store and its name sanitizers

    A shallow embedding of the naming and storage code of the application:

    - [sanitizePdfName] and [generateDefaultPdfName] (the naming helpers of
      the image editor component),
    - [sanitizeFileName], [renamePdf], [listAllPdfs] and [deletePdfFile]
      (the PDF utilities built on expo-file-system).

    JavaScript strings are sequences of UTF-16 code units, the file system
    and the clock are an explicit world that every operation threads. *)

From Stdlib Require Import String Ascii List NArith ZArith Bool Lia.
From Stdlib Require Import Permutation Sorted DecimalPos.
Import ListNotations.

Set Implicit Arguments.

(* ================================================================== *)
(** ** JavaScript strings *)
(* ================================================================== *)

Module JS.

(** A UTF-16 code unit and a string of them. *)
Definition char := N.
Bind Scope N_scope with char.
Definition jsstring := list char.

(** A string literal of the source, as code units. *)
Definition lit (s : string) : jsstring :=
  map N_of_ascii (list_ascii_of_string s).

Definition char_eqb (a b : char) : bool := N.eqb a b.

Fixpoint eqb (a b : jsstring) : bool :=
  match a, b with
  | [], [] => true
  | x :: a', y :: b' => char_eqb x y && eqb a' b'
  | _, _ => false
  end.

Definition in_range (lo hi c : char) : bool := (N.leb lo c && N.leb c hi)%bool.

Definition underscore : char := 95.
Definition is_underscore (c : char) : bool := char_eqb c underscore.
Definition is_dot (c : char) : bool := char_eqb c 46.
Definition is_digit (c : char) : bool := in_range 48 57 c.

(** WhiteSpace and LineTerminator code units, the ones
    [String.prototype.trim] removes. *)
Definition is_white_space (c : char) : bool :=
  (in_range 9 13 c || char_eqb c 32 || char_eqb c 160 || char_eqb c 5760
   || in_range 8192 8202 c || char_eqb c 8232 || char_eqb c 8233
   || char_eqb c 8239 || char_eqb c 8287 || char_eqb c 12288
   || char_eqb c 65279)%N%bool.

Fixpoint dropWhile (p : char -> bool) (s : jsstring) : jsstring :=
  match s with
  | [] => []
  | c :: t => if p c then dropWhile p t else s
  end.

Definition dropWhileEnd (p : char -> bool) (s : jsstring) : jsstring :=
  rev (dropWhile p (rev s)).

(** [s.trim()] *)
Definition trim (s : jsstring) : jsstring :=
  dropWhileEnd is_white_space (dropWhile is_white_space s).

(** [s.replace(/[class]/g, "_")]: every code unit of the class becomes an
    underscore. *)
Definition replace_class (cls : char -> bool) (s : jsstring) : jsstring :=
  map (fun c => if cls c then underscore else c) s.

(** [s.replace(/_{2,}/g, "_")]: the scan keeps one underscore per maximal
    run; an underscore followed by another one belongs to a run that goes
    on, and is dropped. *)
Fixpoint replace_underscore_runs (s : jsstring) : jsstring :=
  match s with
  | [] => []
  | c :: t =>
      if is_underscore c then
        match t with
        | c' :: _ =>
            if is_underscore c' then replace_underscore_runs t
            else c :: replace_underscore_runs t
        | [] => [c]
        end
      else c :: replace_underscore_runs t
  end.

(** [s.replace(/^\.+|\.+$/g, "")] *)
Definition strip_dots (s : jsstring) : jsstring :=
  dropWhileEnd is_dot (dropWhile is_dot s).

(** The last four code units are [.pdf] in any letter case.  This is both
    [s.toLowerCase().endsWith(".pdf")] and [/\.pdf$/i.test(s)]: the only code
    units that lower-case to (or match, ignoring case) [p], [d] and [f] are
    the ASCII letters themselves. *)
Definition ends_with_pdf_ci (s : jsstring) : bool :=
  match rev s with
  | f :: d :: p :: dot :: _ =>
      (is_dot dot && (char_eqb p 112 || char_eqb p 80)
       && (char_eqb d 100 || char_eqb d 68)
       && (char_eqb f 102 || char_eqb f 70))%N%bool
  | _ => false
  end.

(** [s.replace(/\.pdf$/i, "")] *)
Definition remove_pdf_ext (s : jsstring) : jsstring :=
  if ends_with_pdf_ci s then firstn (length s - 4) s else s.

(** [s.substring(0, n)] *)
Definition substring0 (n : nat) (s : jsstring) : jsstring := firstn n s.

Definition digit_char (d : N) : char := (48 + d)%N.

Fixpoint uint_chars (d : Decimal.uint) : jsstring :=
  match d with
  | Decimal.Nil => []
  | Decimal.D0 r => digit_char 0 :: uint_chars r
  | Decimal.D1 r => digit_char 1 :: uint_chars r
  | Decimal.D2 r => digit_char 2 :: uint_chars r
  | Decimal.D3 r => digit_char 3 :: uint_chars r
  | Decimal.D4 r => digit_char 4 :: uint_chars r
  | Decimal.D5 r => digit_char 5 :: uint_chars r
  | Decimal.D6 r => digit_char 6 :: uint_chars r
  | Decimal.D7 r => digit_char 7 :: uint_chars r
  | Decimal.D8 r => digit_char 8 :: uint_chars r
  | Decimal.D9 r => digit_char 9 :: uint_chars r
  end.

(** [String(n)] and [`${n}`] for an integer below 10^21 in magnitude, where
    JavaScript writes all the digits: clock readings, date fields and counts
    are such numbers. *)
Definition Number_toString (z : Z) : jsstring :=
  let digits := uint_chars (N.to_uint (Z.abs_N z)) in
  if (z <? 0)%Z then 45%N :: digits else digits.

(** [s.padStart(2, "0")] *)
Definition padStart2 (s : jsstring) : jsstring :=
  repeat (digit_char 0) (2 - length s) ++ s.

End JS.

Import JS.

(* ================================================================== *)
(** ** The naming helpers of the editor component *)
(* ================================================================== *)

(** What [new Date()] shows through its local-time getters. *)
Record Date := mkDate {
  getFullYear : Z;
  getMonth : Z;
  getDate : Z;
  getHours : Z;
  getMinutes : Z;
  getSeconds : Z
}.

Definition generateDefaultPdfName (now : Date) (imageCount : Z) : jsstring :=
  let year := getFullYear now in
  let month := padStart2 (Number_toString (getMonth now + 1)) in
  let day := padStart2 (Number_toString (getDate now)) in
  let hours := padStart2 (Number_toString (getHours now)) in
  let minutes := padStart2 (Number_toString (getMinutes now)) in
  let seconds := padStart2 (Number_toString (getSeconds now)) in
  lit "Document-" ++ Number_toString year ++ lit "-" ++ month ++ lit "-" ++ day
    ++ lit "-" ++ hours ++ minutes ++ seconds ++ lit "-"
    ++ Number_toString imageCount ++ lit "images.pdf".

(** The class of the first [replace]: the nine reserved characters (less
    than, greater than, colon, double quote, slash, backslash, bar, question
    mark, star) and the control characters U+0000 to U+001F. *)
Definition invalid_filename_char (c : char) : bool :=
  (char_eqb c 60 || char_eqb c 62 || char_eqb c 58 || char_eqb c 34
   || char_eqb c 47 || char_eqb c 92 || char_eqb c 124 || char_eqb c 63
   || char_eqb c 42 || in_range 0 31 c)%N%bool.

Definition maxLength : nat := 100.

(** The value of [sanitized] when [sanitizePdfName] reaches its last test. *)
Definition sanitizePdfName_candidate (name : jsstring) : jsstring :=
  let sanitized := replace_class invalid_filename_char name in
  let sanitized := strip_dots (trim sanitized) in
  let sanitized :=
    if negb (ends_with_pdf_ci sanitized) then sanitized ++ lit ".pdf"
    else sanitized in
  if Nat.ltb maxLength (length sanitized) then substring0 maxLength sanitized
  else sanitized.

Section Editor.

(** The component state and the clock [sanitizePdfName] closes over. *)
Variable EditedImage : Type.
Variable now : Date.
Variable editingImages : list EditedImage.

Definition sanitizePdfName (name : jsstring) : jsstring :=
  let sanitized := sanitizePdfName_candidate name in
  if (eqb sanitized (lit ".pdf") || eqb (trim sanitized) [])%bool then
    generateDefaultPdfName now (Z.of_nat (length editingImages))
  else sanitized.

End Editor.

(* ================================================================== *)
(** ** The name sanitizer of the PDF utilities *)
(* ================================================================== *)

(** The complement of the class [[^a-zA-Z0-9._-]]. *)
Definition file_name_char (c : char) : bool :=
  (in_range 97 122 c || in_range 65 90 c || in_range 48 57 c
   || char_eqb c 46 || char_eqb c 95 || char_eqb c 45)%N%bool.

Definition sanitizeFileName (name : jsstring) : jsstring :=
  let sanitized :=
    trim (replace_underscore_runs
            (replace_class (fun c => negb (file_name_char c)) name)) in
  let hasPdfExt := ends_with_pdf_ci sanitized in
  if hasPdfExt then sanitized else sanitized ++ lit ".pdf".

(* ================================================================== *)
(** ** The platform: file system, clock and console *)
(* ================================================================== *)

(** A stored file, as [getInfoAsync] describes it. *)
Record File := mkFile {
  data : list N;
  fileModificationTime : Z
}.

Definition fileSize (f : File) : Z := Z.of_nat (length (data f)).

(** The files by URI.  The order of the entries is the order in which the
    platform enumerates them: [listAllPdfs] sorts with a stable sort, so that
    order shows in its result. *)
Definition Files := list (jsstring * File).

Fixpoint lookup (uri : jsstring) (fs : Files) : option File :=
  match fs with
  | [] => None
  | (u, f) :: rest => if eqb u uri then Some f else lookup uri rest
  end.

Fixpoint write (uri : jsstring) (f : File) (fs : Files) : Files :=
  match fs with
  | [] => [(uri, f)]
  | (u, g) :: rest =>
      if eqb u uri then (u, f) :: rest else (u, g) :: write uri f rest
  end.

Definition remove (uri : jsstring) (fs : Files) : Files :=
  filter (fun e => negb (eqb (fst e) uri)) fs.

(** What a call of [copyAsync] does: it completes and stamps the copy with a
    modification time, or it rejects, possibly after it wrote part of the
    destination. *)
Inductive CopyOutcome :=
| CopySucceeds (mtime : Z)
| CopyFails (message : jsstring) (leftover : option File).

(** The host environment; the operations read it and never change it. *)
Record Platform := mkPlatform {
  documentDirectory : option jsstring;
  (** the value of the k-th reading of [Date.now()] *)
  clock : nat -> Z;
  copy_outcome : Files -> jsstring -> jsstring -> CopyOutcome;
  (** the rejection of [copyAsync] for a source that does not exist *)
  copy_no_source : jsstring;
  (** the rejection of [deleteAsync], when it rejects *)
  delete_error : Files -> jsstring -> option jsstring
}.

Inductive ConsoleEntry :=
| console_log_entry (label : string) (value : jsstring)
| console_error_entry (label : string) (value : jsstring).

Record World := mkWorld {
  files : Files;
  ticks : nat;
  console : list ConsoleEntry
}.

(** An asynchronous computation run to completion: it returns, rejects with
    an [Error] of some message, or the model runs out of fuel. *)
Inductive outcome (A : Type) :=
| Returned (a : A)
| Thrown (message : jsstring)
| OutOfFuel.

Arguments Thrown {A} message.
Arguments OutOfFuel {A}.

Definition io (A : Type) := World -> outcome A * World.

Definition ret {A} (a : A) : io A := fun w => (Returned a, w).

Definition throw {A} (message : jsstring) : io A := fun w => (Thrown message, w).

Definition bind {A B} (m : io A) (k : A -> io B) : io B :=
  fun w =>
    match m w with
    | (Returned a, w') => k a w'
    | (Thrown e, w') => (Thrown e, w')
    | (OutOfFuel, w') => (OutOfFuel, w')
    end.

(** [try { m } catch (error) { handler }] *)
Definition try_catch {A} (m : io A) (handler : jsstring -> io A) : io A :=
  fun w =>
    match m w with
    | (Returned a, w') => (Returned a, w')
    | (Thrown e, w') => handler e w'
    | (OutOfFuel, w') => (OutOfFuel, w')
    end.

Declare Scope io_scope.
Delimit Scope io_scope with io.
Notation "x <- m ;; k" := (bind m (fun x => k))
  (at level 61, m at next level, right associativity) : io_scope.
Notation "m ;; k" := (bind m (fun _ => k))
  (at level 61, right associativity) : io_scope.
Open Scope io_scope.

Definition console_log (label : string) (value : jsstring) : io unit :=
  fun w => (Returned tt,
            mkWorld (files w) (ticks w)
                    (console w ++ [console_log_entry label value])).

Definition console_error (label : string) (value : jsstring) : io unit :=
  fun w => (Returned tt,
            mkWorld (files w) (ticks w)
                    (console w ++ [console_error_entry label value])).

Definition set_files (fs : Files) (w : World) : World :=
  mkWorld fs (ticks w) (console w).

Section Operations.

Variable P : Platform.

(** [Date.now()] *)
Definition Date_now : io Z :=
  fun w => (Returned (clock P (ticks w)),
            mkWorld (files w) (S (ticks w)) (console w)).

(** [FileSystem.getInfoAsync(uri)]: [None] is [{exists: false}].  The call
    itself is taken not to reject. *)
Definition getInfoAsync (uri : jsstring) : io (option File) :=
  fun w => (Returned (lookup uri (files w)), w).

Definition file_exists (info : option File) : bool :=
  match info with Some _ => true | None => false end.

(** [FileSystem.copyAsync({from, to})] *)
Definition copyAsync (from to : jsstring) : io unit :=
  fun w =>
    match lookup from (files w) with
    | None => (Thrown (copy_no_source P), w)
    | Some f =>
        match copy_outcome P (files w) from to with
        | CopySucceeds mtime =>
            (Returned tt, set_files (write to (mkFile (data f) mtime) (files w)) w)
        | CopyFails message None => (Thrown message, w)
        | CopyFails message (Some part) =>
            (Thrown message, set_files (write to part (files w)) w)
        end
    end.

(** [FileSystem.deleteAsync(uri, { idempotent: true })] *)
Definition deleteAsync (uri : jsstring) : io unit :=
  fun w =>
    match delete_error P (files w) uri with
    | Some message => (Thrown message, w)
    | None => (Returned tt, set_files (remove uri (files w)) w)
    end.

Definition slash : char := 47.

(** The name under [dir] that [uri] denotes, if it is a direct entry. *)
Fixpoint entry_name (dir uri : jsstring) : option jsstring :=
  match dir, uri with
  | [], [] => None
  | [], _ => if existsb (char_eqb slash) uri then None else Some uri
  | d :: dir', u :: uri' => if char_eqb d u then entry_name dir' uri' else None
  | _ :: _, [] => None
  end.

Fixpoint entry_names (dir : jsstring) (fs : Files) : list jsstring :=
  match fs with
  | [] => []
  | (u, _) :: rest =>
      match entry_name dir u with
      | Some n => n :: entry_names dir rest
      | None => entry_names dir rest
      end
  end.

(** [FileSystem.readDirectoryAsync(dir)] *)
Definition readDirectoryAsync (dir : jsstring) : io (list jsstring) :=
  fun w => (Returned (entry_names dir (files w)), w).

(* ---------------------------------------------------------------- *)
(** *** renamePdf *)

Definition rename_failure (message : jsstring) : jsstring :=
  lit "Failed to rename PDF: " ++ message.

Fixpoint renamePdf (fuel : nat) (sourceUri newFileName : jsstring)
  : io jsstring :=
  match fuel with
  | O => fun w => (OutOfFuel, w)
  | S fuel' =>
      try_catch
        (let cleanName := sanitizeFileName newFileName in
         console_log "Renaming PDF to:" cleanName ;;
         match documentDirectory P with
         | None => throw (lit "Cannot access document directory")
         | Some docDir =>
             sourceInfo <- getInfoAsync sourceUri ;;
             if negb (file_exists sourceInfo) then
               throw (lit "Source PDF file not found")
             else
               let targetUri := docDir ++ cleanName in
               targetInfo <- getInfoAsync targetUri ;;
               if file_exists targetInfo then
                 timestamp <- Date_now ;;
                 let nameWithoutExt := remove_pdf_ext cleanName in
                 let uniqueName :=
                   nameWithoutExt ++ lit "_" ++ Number_toString timestamp
                     ++ lit ".pdf" in
                 console_log "File exists, using unique name:" uniqueName ;;
                 renamePdf fuel' sourceUri uniqueName
               else
                 copyAsync sourceUri targetUri ;;
                 console_log "PDF renamed/moved to:" targetUri ;;
                 try_catch
                   (deleteAsync sourceUri ;;
                    console_log "Source file deleted" [])
                   (fun deleteError =>
                      console_log "Could not delete source file:" deleteError) ;;
                 ret targetUri
         end)
        (fun error =>
           console_error "Error in renamePdf:" error ;;
           throw (rename_failure error))
  end.

(* ---------------------------------------------------------------- *)
(** *** listAllPdfs *)

(** An element of the listing.  The display strings [size] and [date] of
    the source (a fixed-point rendering of the size and a localized date)
    are left out. *)
Record PdfItem := mkPdfItem {
  id : jsstring;
  name : jsstring;
  uri : jsstring;
  rawSize : Z;
  modificationTime : Z
}.

(** [x || 0] on a number *)
Definition or_zero (x : Z) : Z := if Z.eqb x 0 then 0%Z else x.

Fixpoint insert_by {A} (compareFn : A -> A -> Z) (x : A) (l : list A)
  : list A :=
  match l with
  | [] => [x]
  | y :: t =>
      if Z.leb (compareFn x y) 0 then x :: l
      else y :: insert_by compareFn x t
  end.

(** [array.sort(compareFn)], a stable sort: an element goes before the
    first later element it does not compare greater than. *)
Definition Array_sort {A} (compareFn : A -> A -> Z) (l : list A) : list A :=
  fold_right (insert_by compareFn) [] l.

Definition by_newest (a b : PdfItem) : Z :=
  (or_zero (modificationTime b) - or_zero (modificationTime a))%Z.

(** The body of the callback that [pdfFiles.map] runs for one file. *)
Definition pdf_item (docDir file : jsstring) : io (option PdfItem) :=
  try_catch
    (let fileUri := docDir ++ file in
     fileInfo <- getInfoAsync fileUri ;;
     match fileInfo with
     | None =>
         console_log "File no longer exists:" file ;;
         ret None
     | Some info =>
         stamp <- (if Z.eqb (fileModificationTime info) 0 then Date_now
                   else ret (fileModificationTime info)) ;;
         ret (Some (mkPdfItem (file ++ lit "_" ++ Number_toString stamp)
                              file fileUri
                              (or_zero (fileSize info))
                              (or_zero (fileModificationTime info))))
     end)
    (fun error =>
       console_error "Error processing file:" file ;;
       ret None).

Fixpoint map_io {A B} (f : A -> io B) (l : list A) : io (list B) :=
  match l with
  | [] => ret []
  | x :: t => y <- f x ;; ys <- map_io f t ;; ret (y :: ys)
  end.

Fixpoint filter_Boolean {A} (l : list (option A)) : list A :=
  match l with
  | [] => []
  | Some x :: t => x :: filter_Boolean t
  | None :: t => filter_Boolean t
  end.

Definition listAllPdfs : io (list PdfItem) :=
  try_catch
    (match documentDirectory P with
     | None =>
         console_error "No document directory available" [] ;;
         ret []
     | Some docDir =>
         files <- readDirectoryAsync docDir ;;
         let pdfFiles := filter ends_with_pdf_ci files in
         pdfsWithInfo <- map_io (pdf_item docDir) pdfFiles ;;
         let validPdfs := filter_Boolean pdfsWithInfo in
         let sortedPdfs := Array_sort by_newest validPdfs in
         ret sortedPdfs
     end)
    (fun error =>
       console_error "Error listing PDFs:" error ;;
       ret []).

(* ---------------------------------------------------------------- *)
(** *** deletePdfFile *)

Definition deletePdfFile (pdfUri : jsstring) : io bool :=
  try_catch
    (fileInfo <- getInfoAsync pdfUri ;;
     if file_exists fileInfo then
       deleteAsync pdfUri ;;
       console_log "PDF deleted successfully:" pdfUri ;;
       ret true
     else
       console_log "PDF not found, nothing to delete:" pdfUri ;;
       ret false)
    (fun error =>
       console_error "Error deleting PDF:" error ;;
       throw error).

End Operations.

(* ================================================================== *)
(** ** Vocabulary of the properties *)
(* ================================================================== *)

(** Two underscores in a row somewhere in the string. *)
Fixpoint has_underscore_run (s : jsstring) : bool :=
  match s with
  | [] => false
  | c :: t =>
      match t with
      | c' :: _ => (is_underscore c && is_underscore c') || has_underscore_run t
      | [] => false
      end
  end.

(** Collapsing runs of underscores, said directly: an underscore that comes
    right after an underscore is dropped.  [after] tells whether the previous
    code unit was an underscore. *)
Fixpoint squeeze_underscores (after : bool) (s : jsstring) : jsstring :=
  match s with
  | [] => []
  | c :: t =>
      if is_underscore c then
        if after then squeeze_underscores true t
        else c :: squeeze_underscores true t
      else c :: squeeze_underscores false t
  end.

(** Replacing by an underscore every code unit that is not an ASCII letter,
    a digit, a dot, an underscore or a hyphen. *)
Definition underscore_foreign (s : jsstring) : jsstring :=
  map (fun c => if file_name_char c then c else underscore) s.

(** A name that [sanitizeFileName] has nothing to do on. *)
Definition clean_name (s : jsstring) : Prop :=
  Forall (fun c => file_name_char c = true) s /\ has_underscore_run s = false.

(** The control characters U+0000 to U+001F. *)
Definition is_control (c : char) : bool := in_range 0 31 c.

(** White space that is not a control character: the space, the no-break
    space and the other Unicode spaces, but not tab or the line breaks. *)
Definition plain_white_space (c : char) : bool :=
  is_white_space c && negb (is_control c).

(** Reading a default name back: [expect p] consumes the text [p],
    [take_digits n] consumes [n] decimal digits. *)
Fixpoint expect (p s : jsstring) : option jsstring :=
  match p, s with
  | [], _ => Some s
  | c :: p', d :: s' => if char_eqb c d then expect p' s' else None
  | _ :: _, [] => None
  end.

Fixpoint take_digits (n : nat) (s : jsstring) : option jsstring :=
  match n, s with
  | O, _ => Some s
  | S n', c :: s' => if is_digit c then take_digits n' s' else None
  | S _, [] => None
  end.

Definition and_then {A B} (o : option A) (f : A -> option B) : option B :=
  match o with
  | Some a => f a
  | None => None
  end.

Definition parse_all (steps : list (jsstring -> option jsstring))
  (s : jsstring) : option jsstring :=
  fold_left (@and_then jsstring jsstring) steps (Some s).

(** [s] is [Document-YYYY-MM-DD-HHMMSS-<count>images.pdf]. *)
Definition is_default_name (count : Z) (s : jsstring) : bool :=
  match parse_all
          [expect (lit "Document-"); take_digits 4; expect (lit "-");
           take_digits 2; expect (lit "-"); take_digits 2; expect (lit "-");
           take_digits 2; take_digits 2; take_digits 2; expect (lit "-");
           expect (Number_toString count); expect (lit "images.pdf")] s with
  | Some [] => true
  | _ => false
  end.

(** A reading of the clock in the four-digit years. *)
Definition calendar_date (now : Date) : Prop :=
  (1000 <= getFullYear now <= 9999 /\ 0 <= getMonth now <= 11
   /\ 1 <= getDate now <= 31 /\ 0 <= getHours now <= 23
   /\ 0 <= getMinutes now <= 59 /\ 0 <= getSeconds now <= 59)%Z.

(** The string does not start with an underscore. *)
Definition head_not_underscore (s : jsstring) : Prop :=
  match s with
  | c :: _ => is_underscore c = false
  | [] => True
  end.

(** The string is [n] decimal digits. *)
Definition digits_of_length (n : nat) (s : jsstring) : bool :=
  Nat.eqb (length s) n && forallb is_digit s.

(** A code unit that [sanitizePdfName] keeps and never strips: not reserved,
    not a control character, not white space and not a dot. *)
Definition ordinary_char (c : char) : bool :=
  negb (invalid_filename_char c) && negb (is_white_space c) && negb (is_dot c).

(** *** The run of [renamePdf], cut in pieces *)

Definition logged (entries : list ConsoleEntry) (w : World) : World :=
  mkWorld (files w) (ticks w) (console w ++ entries).

(** The [catch] block of [renamePdf]. *)
Definition rename_catch (error : jsstring) : io jsstring :=
  console_error "Error in renamePdf:" error ;;
  throw (rename_failure error).

(** What the [catch] block of a caller makes of the result of the call it
    awaits. *)
Definition rethrow (r : outcome jsstring * World) : outcome jsstring * World :=
  match r with
  | (Returned a, w') => (Returned a, w')
  | (Thrown e, w') => rename_catch e w'
  | (OutOfFuel, w') => (OutOfFuel, w')
  end.

(** The name [renamePdf] retries with. *)
Definition unique_name (cleanName : jsstring) (timestamp : Z) : jsstring :=
  remove_pdf_ext cleanName ++ lit "_" ++ Number_toString timestamp ++ lit ".pdf".

(** The world in which the retry starts: one more reading of the clock, two
    more lines on the console. *)
Definition retry_world (P : Platform) (cleanName : jsstring) (w : World)
  : World :=
  mkWorld (files w) (S (ticks w))
    (console w
     ++ [console_log_entry "Renaming PDF to:" cleanName;
         console_log_entry "File exists, using unique name:"
           (unique_name cleanName (clock P (ticks w)))]).

(** The steps of [renamePdf] once the target is known to be free. *)
Definition commit (P : Platform) (sourceUri targetUri : jsstring)
  : io jsstring :=
  copyAsync P sourceUri targetUri ;;
  console_log "PDF renamed/moved to:" targetUri ;;
  try_catch
    (deleteAsync P sourceUri ;;
     console_log "Source file deleted" [])
    (fun deleteError =>
       console_log "Could not delete source file:" deleteError) ;;
  ret targetUri.

(** The name resolution of [renamePdf]: from the world [w] and the requested
    name, after [k] retries, the clean name [final] is free under [docDir];
    [w'] is the world at that moment. *)
Inductive resolves (P : Platform) (docDir : jsstring)
  : World -> jsstring -> nat -> jsstring -> World -> Prop :=
| resolves_free w newFileName :
    lookup (docDir ++ sanitizeFileName newFileName) (files w) = None ->
    resolves P docDir w newFileName 0 (sanitizeFileName newFileName)
      (logged [console_log_entry "Renaming PDF to:"
                 (sanitizeFileName newFileName)] w)
| resolves_retry w newFileName k final w' :
    lookup (docDir ++ sanitizeFileName newFileName) (files w) <> None ->
    resolves P docDir (retry_world P (sanitizeFileName newFileName) w)
      (unique_name (sanitizeFileName newFileName) (clock P (ticks w)))
      k final w' ->
    resolves P docDir w newFileName (S k) final w'.

(** The length of the longest URI in use. *)
Definition longest (fs : Files) : nat :=
  fold_right (fun e m => Nat.max (length (fst e)) m) 0 fs.

(** The number of code units other than the underscore. *)
Definition solid (s : jsstring) : nat :=
  length (filter (fun c => negb (is_underscore c)) s).

(** [uri] is a file of the store. *)
Definition stored (uri : jsstring) (w : World) : Prop :=
  lookup uri (files w) <> None.

(** [copyAsync] completes whenever its source exists. *)
Definition copy_reliable (P : Platform) : Prop :=
  forall fs from to, exists mtime, copy_outcome P fs from to = CopySucceeds mtime.

(** [deleteAsync] completes. *)
Definition delete_reliable (P : Platform) : Prop :=
  forall fs uri, delete_error P fs uri = None.

(** *** The listing *)

(** [a] is listed before [b] only if it is at least as recent. *)
Definition newest_first (a b : PdfItem) : Prop :=
  (modificationTime b <= modificationTime a)%Z.

(** The item tells the truth about a file of the store under [docDir]. *)
Definition describes (docDir : jsstring) (fs : Files) (item : PdfItem) : Prop :=
  uri item = docDir ++ name item
  /\ exists f, lookup (uri item) fs = Some f
               /\ modificationTime item = fileModificationTime f
               /\ rawSize item = fileSize f.

(** The names of the PDF entries of the directory, as the platform
    enumerates them. *)
Definition pdf_names (docDir : jsstring) (fs : Files) : list jsstring :=
  filter ends_with_pdf_ci (entry_names docDir fs).

(** The items of the given modification time, in their order in the list. *)
Definition modified_at (t : Z) (items : list PdfItem) : list PdfItem :=
  filter (fun i => Z.eqb (modificationTime i) t) items.

(** Code unit by code unit, the order of [<] on strings. *)
Fixpoint lex_ltb (a b : jsstring) : bool :=
  match a, b with
  | _, [] => false
  | [], _ :: _ => true
  | x :: a', y :: b' => N.ltb x y || (N.eqb x y && lex_ltb a' b')
  end.

(** The modification time of the entry [n] of the directory. *)
Definition mtime_of (docDir : jsstring) (fs : Files) (n : jsstring) : Z :=
  match lookup (docDir ++ n) fs with
  | Some f => fileModificationTime f
  | None => 0%Z
  end.

(** *** A small world to run the code in *)

Definition docs : jsstring := lit "file:///data/docs/".

Definition print1 : jsstring := lit "file:///cache/print1.pdf".
Definition print2 : jsstring := lit "file:///cache/print2.pdf".

(** Two rendered files wait in the cache, the store is empty. *)
Definition cache_world : World :=
  mkWorld [(print1, mkFile [37; 80; 68; 70]%N 1700000000);
           (print2, mkFile [37; 80; 68; 70; 49]%N 1700000001)] 0 [].

(** A platform on which everything works and the clock advances. *)
Definition sound_platform : Platform :=
  mkPlatform (Some docs) (fun k => 1700000000000 + Z.of_nat k)%Z
    (fun _ _ _ => CopySucceeds 1700000002) (lit "ENOENT") (fun _ _ => None).

(** The clock does not advance. *)
Definition stuck_clock_platform : Platform :=
  mkPlatform (Some docs) (fun _ => 5%Z)
    (fun _ _ _ => CopySucceeds 1700000002) (lit "ENOENT") (fun _ _ => None).


(** The cache cannot be cleaned. *)
Definition locked_cache_platform : Platform :=
  mkPlatform (Some docs) (fun k => 1700000000000 + Z.of_nat k)%Z
    (fun _ _ _ => CopySucceeds 1700000002) (lit "ENOENT")
    (fun _ _ => Some (lit "Permission denied")).

(** A store in which [Invoice.pdf] and [Invoice_5.pdf] are taken. *)
Definition busy_world : World :=
  mkWorld [(print1, mkFile [37; 80; 68; 70]%N 1700000000);
           (docs ++ lit "Invoice.pdf", mkFile [1]%N 1600000000);
           (docs ++ lit "Invoice_5.pdf", mkFile [2]%N 1600000001)] 0 [].

(** A store whose two documents have the same modification time; the
    platform enumerates [b.pdf] first. *)
Definition tie_world : World :=
  mkWorld [(docs ++ lit "b.pdf", mkFile [1]%N 1600000000);
           (docs ++ lit "a.pdf", mkFile [2]%N 1600000000)] 0 [].

(** A store with three documents of different ages. *)
Definition aged_world : World :=
  mkWorld [(docs ++ lit "second.pdf", mkFile [2]%N 20);
           (docs ++ lit "third.pdf", mkFile [3]%N 30);
           (docs ++ lit "first.pdf", mkFile [1]%N 10)] 0 [].

(* ================================================================== *)
(** ** More vocabulary: names *)
(* ================================================================== *)

(** The raw name once [sanitizePdfName] has replaced the invalid characters
    and stripped the white space and the dots around it, before it looks at
    the extension. *)
Definition sanitizePdfName_stem (name : jsstring) : jsstring :=
  strip_dots (trim (replace_class invalid_filename_char name)).

(** The last code unit is an underscore ([after] stands for the code unit
    before the string). *)
Definition ends_with_underscore (after : bool) (s : jsstring) : bool :=
  fold_left (fun _ c => is_underscore c) s after.

(** The separator [renamePdf] ends up with between the stem and the
    timestamp: the underscore it inserts merges with one that ends the
    stem. *)
Definition retry_separator (stem : jsstring) : jsstring :=
  if ends_with_underscore false stem then [] else lit "_".

(* ================================================================== *)
(** ** getPdfFileInfo *)
(* ================================================================== *)

Fixpoint takeWhile (p : char -> bool) (s : jsstring) : jsstring :=
  match s with
  | [] => []
  | c :: t => if p c then c :: takeWhile p t else []
  end.

(** [s.split(sep).pop()]: what follows the last separator, the whole string
    when it has none. *)
Definition split_pop (sep : char) (s : jsstring) : jsstring :=
  rev (takeWhile (fun c => negb (char_eqb c sep)) (rev s)).

(** [s || fallback] on strings: the empty string is falsy. *)
Definition or_string (s fallback : jsstring) : jsstring :=
  match s with
  | [] => fallback
  | _ => s
  end.

(** [(num / den).toFixed(1)] for an integer [0 <= num < 2^53] and [den] a
    power of two: the quotient is then exact as a double, and toFixed writes
    the tenth nearest to its value, the larger one on a tie, with one digit
    after the point. *)
Definition toFixed1 (num den : Z) : jsstring :=
  let n := ((20 * num + den) / (2 * den))%Z in
  Number_toString (n / 10) ++ lit "." ++ Number_toString (n mod 10).

(** The text [getPdfFileInfo] and [listAllPdfs] make of a size in bytes. *)
Definition formatSize (size : Z) : jsstring :=
  if Z.eqb size 0 then lit "0 KB"
  else if (size <? 1024 * 1024)%Z then toFixed1 size 1024 ++ lit " KB"
  else toFixed1 size (1024 * 1024) ++ lit " MB".

(** The object [getPdfFileInfo] returns. *)
Module PdfFileInfo.
Record t := mk {
  uri : jsstring;
  size : Z;
  modificationTime : Z;
  filename : jsstring;
  extension : jsstring;
  sizeFormatted : jsstring;
  exists_ : bool
}.
End PdfFileInfo.

Definition dot : char := 46.

Definition getPdfFileInfo (pdfUri : jsstring) : io PdfFileInfo.t :=
  try_catch
    (fileInfo <- getInfoAsync pdfUri ;;
     match fileInfo with
     | None => throw (lit "PDF file not found")
     | Some info =>
         let filename := or_string (split_pop slash pdfUri) (lit "unknown.pdf") in
         let extension := or_string (split_pop dot filename) [] in
         let sizeFormatted := formatSize (fileSize info) in
         ret (PdfFileInfo.mk pdfUri (or_zero (fileSize info))
                (fileModificationTime info) filename (lit "." ++ extension)
                sizeFormatted true)
     end)
    (fun error =>
       console_error "Error getting PDF info:" error ;;
       throw error).

(** The string has no occurrence of the code unit. *)
Definition free_of (sep : char) (s : jsstring) : Prop :=
  Forall (fun c => char_eqb c sep = false) s.

(** The tenths [n] of a figure shown for the quotient [num / den]: it is
    within a twentieth of the quotient. *)
Definition nearest_tenth (num den n : Z) : Prop :=
  (Z.abs (2 * den * n - 20 * num) <= den)%Z.

(* ================================================================== *)
(** ** The image editor component *)
(* ================================================================== *)

(** The numbers the component computes with are the rotations of the
    images and the degrees of a turn, which the component itself only ever
    passes as 90.  They are modelled as the integers they hold, the two
    zeros as one; a number that is not an integer, an infinity and [NaN]
    are outside the model. *)

(** The double nearest to the integer [z], the even significand on a tie:
    what an operation on doubles returns when its exact result is [z], as
    long as it stays below the largest double.  Below [2^53] in magnitude it
    is [z] itself. *)
Definition to_double (z : Z) : Z :=
  let m := Z.abs z in
  let e := Z.log2 m in
  if (e <? 53)%Z then z
  else
    let ulp := (2 ^ (e - 52))%Z in
    let q := (m / ulp)%Z in
    let r := (m mod ulp)%Z in
    let q' :=
      if (2 * r <? ulp)%Z then q
      else if (ulp <? 2 * r)%Z then (q + 1)%Z
      else if Z.even q then q
      else (q + 1)%Z in
    (Z.sgn z * (q' * ulp))%Z.

(** [a + b] on integers that are doubles. *)
Definition Number_add (a b : Z) : Z := to_double (a + b).

(** [a % b] on integers that are doubles, [b] not zero: the remainder of
    the truncating division, with the sign of [a]; it is exact. *)
Definition Number_rem (a b : Z) : Z := Z.rem a b.

(** [Number.isSafeInteger] on an integer. *)
Definition safe_integer (z : Z) : Prop := (Z.abs z < 2 ^ 53)%Z.

Module ImageEditor.

Record ImageItem := mkImageItem {
  id : jsstring;
  uri : jsstring;
  fileName : jsstring;
  width : Z;
  height : Z;
  rotation : option Z
}.

(** [{ ...img, rotation: r }] *)
Definition with_rotation (img : ImageItem) (r : Z) : ImageItem :=
  mkImageItem (id img) (uri img) (fileName img) (width img) (height img)
    (Some r).

(** [img.rotation || 0], the rotation the image is shown with. *)
Definition rotation_or_zero (img : ImageItem) : Z :=
  match rotation img with
  | Some r => or_zero r
  | None => 0%Z
  end.

(** The state of the component. *)
Record State := mkState {
  editingImages : list ImageItem;
  pdfName : jsstring;
  showNameInput : bool
}.

(** What a handler does besides changing the state. *)
Inductive Effect :=
| Alert (title message : jsstring)
| onGeneratePdf (editedImages : list ImageItem) (fileName : jsstring)
| onClose.

Section Component.

(** What [new Date()] shows when the handler runs. *)
Variable now : Date.

(** The effect that follows the [images] prop. *)
Definition initialize (images : list ImageItem) (st : State) : State :=
  if Nat.ltb 0 (length images) then
    mkState images (generateDefaultPdfName now (Z.of_nat (length images)))
      (showNameInput st)
  else mkState (editingImages st) [] false.

Definition showPdfNameInput (st : State) : State :=
  mkState (editingImages st) (pdfName st) true.

Definition generatePdfWithName (fileName : jsstring) (st : State)
  : list Effect :=
  if Nat.eqb (length (editingImages st)) 0 then
    [Alert (lit "No Images")
       (lit "Please add at least one image to generate PDF")]
  else [onGeneratePdf (editingImages st) fileName].

Definition handleConfirmPdfName (st : State) : State * list Effect :=
  if eqb (trim (pdfName st)) [] then
    (st, [Alert (lit "Error") (lit "Please enter a PDF name")])
  else
    let finalPdfName :=
      sanitizePdfName now (editingImages st) (trim (pdfName st)) in
    (mkState (editingImages st) finalPdfName false,
     generatePdfWithName finalPdfName st).

Definition handleRotateImage (imageId : jsstring) (degrees : Z) (st : State)
  : State :=
  mkState
    (map (fun img =>
            if eqb (id img) imageId then
              let currentRotation := rotation_or_zero img in
              let newRotation :=
                Number_rem (Number_add currentRotation degrees) 360 in
              with_rotation img newRotation
            else img)
       (editingImages st))
    (pdfName st) (showNameInput st).

(** [handleRemoveImage] only asks, with a dialog of two buttons. *)
Definition handleRemoveImage (imageId : jsstring) (st : State)
  : State * list Effect :=
  (st, [Alert (lit "Remove Image")
          (lit "Are you sure you want to remove this image?")]).

(** The [Remove] button of that dialog.  Its handler is a closure of the
    render that raised the dialog: [editingImages.length] is read from
    [rendered], the state of that render, while the updater given to
    [setEditingImages] filters the images of [st], the state at the time
    the button is pressed. *)
Definition handleRemoveImage_onPress (imageId : jsstring) (rendered st : State)
  : State :=
  let remaining :=
    filter (fun img => negb (eqb (id img) imageId)) (editingImages st) in
  if Nat.ltb 1 (length (editingImages rendered)) then
    let newDefaultName :=
      generateDefaultPdfName now
        (Z.of_nat (length (editingImages rendered)) - 1) in
    mkState remaining newDefaultName (showNameInput st)
  else mkState remaining (pdfName st) (showNameInput st).

Definition handleGeneratePdf (st : State) : State * list Effect :=
  if Nat.eqb (length (editingImages st)) 0 then
    (st, [Alert (lit "No Images")
            (lit "Please add at least one image to generate PDF")])
  else (showPdfNameInput st, []).

Definition handleClose (st : State) : State * list Effect :=
  (mkState [] [] false, [onClose]).

End Component.

(** What [handleRotateImage] makes of one image. *)
Definition turned (imageId : jsstring) (degrees : Z) (img : ImageItem)
  : ImageItem :=
  if eqb (id img) imageId then
    with_rotation img
      (Number_rem (Number_add (rotation_or_zero img) degrees) 360)
  else img.

(** The turn of the image by [degrees] is exact: its rotation, the degrees
    and their sum are safe integers. *)
Definition exact_turn (degrees : Z) (img : ImageItem) : Prop :=
  safe_integer (rotation_or_zero img) /\ safe_integer degrees
  /\ safe_integer (rotation_or_zero img + degrees).

(** Everything of the image but its rotation. *)
Definition same_picture (a b : ImageItem) : Prop :=
  id b = id a /\ uri b = uri a /\ fileName b = fileName a
  /\ width b = width a /\ height b = height a.

End ImageEditor.

(* ================================================================== *)
(** ** generatePdf *)
(* ================================================================== *)

(** The image types of the application. *)
Module CropData.
Record t := mk { originX : Z; originY : Z; width : Z; height : Z }.
End CropData.

Module ResizeData.
Record t := mk { width : Z; height : Z }.
End ResizeData.

Module EditedImage.
Record t := mk {
  id : jsstring;
  uri : jsstring;
  width : Z;
  height : Z;
  fileName : jsstring;
  cropData : option CropData.t;
  resizeData : option ResizeData.t
}.
End EditedImage.

(** What [Print.printToFileAsync] does: it writes a file somewhere and
    returns its URI, or it rejects. *)
Inductive PrintOutcome :=
| PrintSucceeds (uri : jsstring) (file : File)
| PrintFails (message : jsstring).

(** The rest of the host environment, for rendering. *)
Record Renderer := mkRenderer {
  (** the Base64 text of the bytes of a file *)
  base64 : list N -> jsstring;
  (** the rejection of [readAsStringAsync] for a URI that names no file *)
  read_error : jsstring -> jsstring;
  print_outcome : Files -> jsstring -> PrintOutcome
}.

(** [s.startsWith(prefix)] *)
Fixpoint startsWith (prefix s : jsstring) : bool :=
  match prefix, s with
  | [], _ => true
  | c :: p, d :: t => char_eqb c d && startsWith p t
  | _ :: _, [] => false
  end.

Definition lower_ascii (c : char) : char :=
  if in_range 65 90 c then (c + 32)%N else c.

(** [s.toLowerCase().endsWith(suffix)] for a suffix of ASCII letters, lower
    case, and dots that no other code unit lower-cases to: [.png], [.gif],
    [.webp]. *)
Definition toLowerCase_endsWith (suffix s : jsstring) : bool :=
  eqb (map lower_ascii (skipn (length s - length suffix) s)) suffix.

Definition quote : jsstring := [34%N].
Definition nl : jsstring := [10%N].

(** The template of the page, before and after the images. *)
Definition html_head : jsstring :=
  nl ++ lit "    <html>"
    ++ nl ++ lit "      <head>"
    ++ nl ++ lit "        <meta charset=" ++ quote ++ lit "UTF-8" ++ quote ++ lit ">"
    ++ nl ++ lit "        <style>"
    ++ nl ++ lit "          body { margin: 0; padding: 20px; }"
    ++ nl ++ lit "          img {"
    ++ nl ++ lit "            max-width: 100%;"
    ++ nl ++ lit "            height: auto;"
    ++ nl ++ lit "            display: block;"
    ++ nl ++ lit "            margin: 0 auto 20px auto;"
    ++ nl ++ lit "            page-break-after: always;"
    ++ nl ++ lit "          }"
    ++ nl ++ lit "          img:last-child { page-break-after: auto; }"
    ++ nl ++ lit "        </style>"
    ++ nl ++ lit "      </head>"
    ++ nl ++ lit "      <body>"
    ++ nl ++ lit "        ".

Definition html_tail : jsstring :=
  nl ++ lit "      </body>"
    ++ nl ++ lit "    </html>"
    ++ nl ++ lit "  ".

Definition img_tag (src : jsstring) : jsstring :=
  lit "<img src=" ++ quote ++ src ++ quote ++ lit " />".

Definition html_page (base64Images : list jsstring) : jsstring :=
  html_head ++ concat (map img_tag base64Images) ++ html_tail.

Definition mimeType_of (uri : jsstring) : jsstring :=
  let mimeType := lit "image/jpeg" in
  let mimeType :=
    if toLowerCase_endsWith (lit ".png") uri then lit "image/png"
    else mimeType in
  let mimeType :=
    if toLowerCase_endsWith (lit ".gif") uri then lit "image/gif"
    else mimeType in
  if toLowerCase_endsWith (lit ".webp") uri then lit "image/webp"
  else mimeType.

Section Rendering.

Variable P : Platform.
Variable R : Renderer.

(** [FileSystem.readAsStringAsync(uri, { encoding: Base64 })] *)
Definition readAsStringAsync (uri : jsstring) : io jsstring :=
  fun w =>
    match lookup uri (files w) with
    | Some f => (Returned (base64 R (data f)), w)
    | None => (Thrown (read_error R uri), w)
    end.

(** [Print.printToFileAsync({ html, base64: false })] *)
Definition printToFileAsync (html : jsstring) : io jsstring :=
  fun w =>
    match print_outcome R (files w) html with
    | PrintSucceeds uri file =>
        (Returned uri, set_files (write uri file (files w)) w)
    | PrintFails message => (Thrown message, w)
    end.

(** The callback of [images.map] in [generatePdf]. *)
Definition image_source (img : EditedImage.t) : io jsstring :=
  if startsWith (lit "data:image/") (EditedImage.uri img) then
    ret (EditedImage.uri img)
  else
    base64 <- readAsStringAsync (EditedImage.uri img) ;;
    ret (lit "data:" ++ mimeType_of (EditedImage.uri img) ++ lit ";base64,"
           ++ base64).

(** The line of the console has the number of images between its two
    texts. *)
Definition generatePdf (fuel : nat) (images : list EditedImage.t)
  (pdfName : option jsstring) : io jsstring :=
  if Nat.eqb (length images) 0 then throw (lit "No images to generate PDF")
  else
    console_log "Generating PDF with"
      (Number_toString (Z.of_nat (length images)) ++ lit " images") ;;
    base64Images <- map_io image_source images ;;
    let html := html_page base64Images in
    uri <- printToFileAsync html ;;
    match pdfName with
    | Some (c :: rest) => renamePdf P fuel uri (c :: rest)
    | _ => ret uri
    end.

End Rendering.

(** The image can be embedded: it is a data URI or names a file. *)
Definition readable (fs : Files) (img : EditedImage.t) : Prop :=
  startsWith (lit "data:image/") (EditedImage.uri img) = true
  \/ lookup (EditedImage.uri img) fs <> None.

(** The page [generatePdf] sends to the printer in the given world. *)
Definition embedded (R : Renderer) (fs : Files) (img : EditedImage.t)
  : jsstring :=
  if startsWith (lit "data:image/") (EditedImage.uri img) then
    EditedImage.uri img
  else
    match lookup (EditedImage.uri img) fs with
    | Some f =>
        lit "data:" ++ mimeType_of (EditedImage.uri img) ++ lit ";base64,"
          ++ base64 R (data f)
    | None => []
    end.

(* ================================================================== *)
(** ** The application *)
(* ================================================================== *)

(** The name [handleGeneratePdf] of the application generates the document
    under, from a reading of [Date.now()]. *)
Definition tempPdfName (timestamp : Z) : jsstring :=
  lit "temp_" ++ Number_toString timestamp ++ lit ".pdf".


(* ================================================================== *)
(** ** The console *)
(* ================================================================== *)

(** The entry was written with [console.error]. *)
Definition is_error (entry : ConsoleEntry) : bool :=
  match entry with
  | console_error_entry _ _ => true
  | console_log_entry _ _ => false
  end.

(** What [console.error] has written so far. *)
Definition errors (w : World) : list ConsoleEntry :=
  filter is_error (console w).
(* ================================================================== *)
(** ** The code on a few inputs *)
(* ================================================================== *)

Example sanitizeFileName_report :
  sanitizeFileName (lit "My/Report:2024") = lit "My_Report_2024.pdf".
Proof. reflexivity. Qed.

Example sanitizePdfName_tab :
  sanitizePdfName (mkDate 2024 0 5 7 8 9) [tt; tt; tt] [9%N] = lit "_.pdf".
Proof. reflexivity. Qed.

Example generateDefaultPdfName_ex :
  generateDefaultPdfName (mkDate 2024 0 5 7 8 9) 3
  = lit "Document-2024-01-05-070809-3images.pdf".
Proof. reflexivity. Qed.

(* ================================================================== *)
(** ** Facts about strings *)
(* ================================================================== *)

Section StringFacts.

Lemma char_eqb_eq (a b : char) : char_eqb a b = true <-> a = b.
Proof. apply N.eqb_eq. Qed.

Lemma eqb_eq (a b : jsstring) : eqb a b = true <-> a = b.
Proof.
  revert b; induction a as [|x a IH]; intros [|y b]; simpl; split;
    try congruence; try reflexivity.
  - rewrite andb_true_iff, char_eqb_eq, IH. intros [-> ->]; reflexivity.
  - intros E; injection E as -> ->.
    rewrite andb_true_iff, char_eqb_eq, IH; split; reflexivity.
Qed.

Lemma eqb_refl (a : jsstring) : eqb a a = true.
Proof. apply eqb_eq; reflexivity. Qed.

Lemma eqb_neq (a b : jsstring) : eqb a b = false <-> a <> b.
Proof.
  rewrite <- eqb_eq. destruct (eqb a b); split; congruence.
Qed.

Lemma dropWhile_none (p : char -> bool) (s : jsstring) :
  Forall (fun c => p c = false) s -> dropWhile p s = s.
Proof. intros [|c t Hc Ht]; simpl; [reflexivity | now rewrite Hc]. Qed.

Lemma dropWhile_all (p : char -> bool) (s : jsstring) :
  Forall (fun c => p c = true) s -> dropWhile p s = [].
Proof. induction 1 as [|c t Hc Ht IH]; simpl; [reflexivity | now rewrite Hc]. Qed.

Lemma dropWhileEnd_none (p : char -> bool) (s : jsstring) :
  Forall (fun c => p c = false) s -> dropWhileEnd p s = s.
Proof.
  intros H. unfold dropWhileEnd.
  rewrite dropWhile_none by (apply Forall_rev; exact H).
  apply rev_involutive.
Qed.

Lemma trim_none (s : jsstring) :
  Forall (fun c => is_white_space c = false) s -> trim s = s.
Proof.
  intros H. unfold trim.
  rewrite (dropWhile_none _ H). apply dropWhileEnd_none, H.
Qed.

Lemma trim_all (s : jsstring) :
  Forall (fun c => is_white_space c = true) s -> trim s = [].
Proof. intros H. unfold trim. now rewrite (dropWhile_all _ H). Qed.

Lemma dropWhile_suffix (p : char -> bool) (s : jsstring) :
  exists pre, s = pre ++ dropWhile p s /\ Forall (fun c => p c = true) pre.
Proof.
  induction s as [|c t (pre & E & F)]; simpl.
  - exists []; split; [reflexivity | constructor].
  - destruct (p c) eqn:Hc.
    + exists (c :: pre); split; [simpl; congruence | constructor; assumption].
    + exists []; split; [reflexivity | constructor].
Qed.

Lemma dropWhile_length (p : char -> bool) (s : jsstring) :
  length (dropWhile p s) <= length s.
Proof.
  induction s as [|c t IH]; simpl; [lia|]. destruct (p c); simpl; lia.
Qed.

Lemma dropWhile_head (p : char -> bool) (s : jsstring) c t :
  dropWhile p s = c :: t -> p c = false.
Proof.
  induction s as [|x s IH]; simpl; [discriminate|].
  destruct (p x) eqn:Hx; [exact IH|]. intros E; injection E as -> _; exact Hx.
Qed.

(** The three scanning cases of [replace_underscore_runs]. *)
Lemma runs_nil : replace_underscore_runs [] = [].
Proof. reflexivity. Qed.

Lemma runs_other c t :
  is_underscore c = false ->
  replace_underscore_runs (c :: t) = c :: replace_underscore_runs t.
Proof. intros H; simpl; now rewrite H. Qed.

Lemma runs_run c c' t :
  is_underscore c = true -> is_underscore c' = true ->
  replace_underscore_runs (c :: c' :: t) = replace_underscore_runs (c' :: t).
Proof.
  intros H H'. change (replace_underscore_runs (c :: c' :: t))
    with (if is_underscore c then
            if is_underscore c' then replace_underscore_runs (c' :: t)
            else c :: replace_underscore_runs (c' :: t)
          else c :: replace_underscore_runs (c' :: t)).
  now rewrite H, H'.
Qed.

Lemma runs_last c c' t :
  is_underscore c = true -> is_underscore c' = false ->
  replace_underscore_runs (c :: c' :: t)
  = c :: replace_underscore_runs (c' :: t).
Proof.
  intros H H'. change (replace_underscore_runs (c :: c' :: t))
    with (if is_underscore c then
            if is_underscore c' then replace_underscore_runs (c' :: t)
            else c :: replace_underscore_runs (c' :: t)
          else c :: replace_underscore_runs (c' :: t)).
  now rewrite H, H'.
Qed.

Lemma runs_single c :
  replace_underscore_runs [c] = [c].
Proof. simpl. now destruct (is_underscore c). Qed.

(** Induction along the scan. *)
Lemma runs_ind (Q : jsstring -> jsstring -> Prop) :
  Q [] [] ->
  (forall c, Q [c] [c]) ->
  (forall c t, is_underscore c = false ->
               Q t (replace_underscore_runs t) ->
               Q (c :: t) (c :: replace_underscore_runs t)) ->
  (forall c c' t, is_underscore c = true -> is_underscore c' = true ->
                  Q (c' :: t) (replace_underscore_runs (c' :: t)) ->
                  Q (c :: c' :: t) (replace_underscore_runs (c' :: t))) ->
  (forall c c' t, is_underscore c = true -> is_underscore c' = false ->
                  Q (c' :: t) (replace_underscore_runs (c' :: t)) ->
                  Q (c :: c' :: t) (c :: replace_underscore_runs (c' :: t))) ->
  forall s, Q s (replace_underscore_runs s).
Proof.
  intros Hnil Hone Hother Hrun Hlast.
  induction s as [|c t IH]; [exact Hnil|].
  destruct (is_underscore c) eqn:Hc.
  - destruct t as [|c' t]; [rewrite runs_single; apply Hone|].
    destruct (is_underscore c') eqn:Hc'.
    + rewrite runs_run by assumption. now apply Hrun.
    + rewrite runs_last by assumption. now apply Hlast.
  - rewrite runs_other by assumption. now apply Hother.
Qed.

Lemma runs_Forall (Q : char -> Prop) (s : jsstring) :
  Forall Q s -> Forall Q (replace_underscore_runs s).
Proof.
  pattern s, (replace_underscore_runs s). apply runs_ind; clear s.
  - trivial.
  - trivial.
  - intros c t _ IH H. inversion H; subst. constructor; auto.
  - intros c c' t _ _ IH H. inversion H; subst. auto.
  - intros c c' t _ _ IH H. inversion H; subst. constructor; auto.
Qed.

Lemma runs_length (s : jsstring) :
  length (replace_underscore_runs s) <= length s.
Proof.
  pattern s, (replace_underscore_runs s). apply runs_ind; clear s;
    simpl; intros; lia.
Qed.

End StringFacts.

(* ================================================================== *)
(** ** sanitizeFileName *)
(* ================================================================== *)

Section SanitizeFileName.

Lemma is_underscore_eq c : is_underscore c = true -> c = underscore.
Proof. apply char_eqb_eq. Qed.

Lemma file_name_char_underscore : file_name_char underscore = true.
Proof. reflexivity. Qed.

Lemma file_name_char_not_white_space c :
  file_name_char c = true -> is_white_space c = false.
Proof.
  unfold file_name_char, is_white_space, in_range, char_eqb.
  rewrite !orb_true_iff, !andb_true_iff, !N.leb_le, !N.eqb_eq.
  intros H.
  repeat (apply orb_false_iff; split);
    try (apply andb_false_iff; rewrite !N.leb_gt; lia);
    apply N.eqb_neq; lia.
Qed.

Lemma replace_class_foreign (s : jsstring) :
  replace_class (fun c => negb (file_name_char c)) s = underscore_foreign s.
Proof.
  apply map_ext. intros c. now destruct (file_name_char c).
Qed.

Lemma underscore_foreign_chars (s : jsstring) :
  Forall (fun c => file_name_char c = true) (underscore_foreign s).
Proof.
  apply Forall_forall. intros c Hc. apply in_map_iff in Hc.
  destruct Hc as (x & <- & _).
  destruct (file_name_char x) eqn:E; [exact E | reflexivity].
Qed.

Lemma underscore_foreign_id (s : jsstring) :
  Forall (fun c => file_name_char c = true) s -> underscore_foreign s = s.
Proof.
  induction 1 as [|c t Hc _ IH]; simpl; [reflexivity|].
  rewrite Hc. f_equal. exact IH.
Qed.

(** The scan of the source collapses runs. *)
Lemma runs_squeeze_gen (s : jsstring) :
  replace_underscore_runs s = squeeze_underscores false s
  /\ forall c, is_underscore c = true ->
       replace_underscore_runs (c :: s) = c :: squeeze_underscores true s.
Proof.
  induction s as [|c' t [IH1 IH2]].
  - split; [reflexivity|]. intros c _. apply runs_single.
  - split.
    + simpl squeeze_underscores. destruct (is_underscore c') eqn:E.
      * now apply IH2.
      * rewrite runs_other by assumption. now rewrite IH1.
    + intros c Hc. simpl squeeze_underscores.
      destruct (is_underscore c') eqn:E.
      * rewrite runs_run by assumption. rewrite (IH2 c' E).
        now rewrite (is_underscore_eq _ Hc), (is_underscore_eq _ E).
      * rewrite runs_last, runs_other by assumption. now rewrite IH1.
Qed.

Lemma runs_squeeze (s : jsstring) :
  replace_underscore_runs s = squeeze_underscores false s.
Proof. apply runs_squeeze_gen. Qed.

Lemma squeeze_no_run (s : jsstring) : forall after,
  has_underscore_run (squeeze_underscores after s) = false
  /\ (after = true -> head_not_underscore (squeeze_underscores after s)).
Proof.
  induction s as [|c t IH]; intros after; [now split|].
  simpl squeeze_underscores. destruct (is_underscore c) eqn:E.
  - destruct after.
    + apply IH.
    + split; [|discriminate].
      destruct (IH true) as [Hr Hh]. specialize (Hh eq_refl).
      destruct (squeeze_underscores true t) as [|c' t'] eqn:Es; [reflexivity|].
      simpl in Hh. change (has_underscore_run (c :: c' :: t'))
        with ((is_underscore c && is_underscore c')
              || has_underscore_run (c' :: t')).
      now rewrite Hh, andb_false_r, Hr.
  - split; [|intros _; exact E].
    destruct (IH false) as [Hr _].
    destruct (squeeze_underscores false t) as [|c' t'] eqn:Es; [reflexivity|].
    change (has_underscore_run (c :: c' :: t'))
      with ((is_underscore c && is_underscore c')
            || has_underscore_run (c' :: t')).
    now rewrite E, Hr.
Qed.

Lemma squeeze_id (s : jsstring) : forall after,
  has_underscore_run s = false ->
  (after = true -> head_not_underscore s) ->
  squeeze_underscores after s = s.
Proof.
  induction s as [|c t IH]; intros after Hr Hh; [reflexivity|].
  assert (Ht : has_underscore_run t = false
               /\ (is_underscore c = true -> head_not_underscore t)).
  { destruct t as [|c' t']; [now split|].
    change (has_underscore_run (c :: c' :: t'))
      with ((is_underscore c && is_underscore c')
            || has_underscore_run (c' :: t')) in Hr.
    apply orb_false_iff in Hr. destruct Hr as [Hcc Hr]. split; [exact Hr|].
    intros Hc. rewrite Hc in Hcc. exact Hcc. }
  destruct Ht as [Hrt Hht].
  simpl. destruct (is_underscore c) eqn:E.
  - destruct after.
    + specialize (Hh eq_refl). simpl in Hh. congruence.
    + f_equal. apply IH; auto.
  - f_equal. apply IH; [assumption | discriminate].
Qed.

Lemma has_underscore_run_app (a b : jsstring) :
  has_underscore_run a = false -> has_underscore_run b = false ->
  head_not_underscore b ->
  has_underscore_run (a ++ b) = false.
Proof.
  intros Ha Hb Hh. induction a as [|c t IH]; [exact Hb|].
  destruct t as [|c' t'].
  - simpl app. destruct b as [|d b']; [reflexivity|].
    change (has_underscore_run (c :: d :: b'))
      with ((is_underscore c && is_underscore d)
            || has_underscore_run (d :: b')).
    simpl in Hh. now rewrite Hh, andb_false_r, Hb.
  - change (has_underscore_run (c :: c' :: t'))
      with ((is_underscore c && is_underscore c')
            || has_underscore_run (c' :: t')) in Ha.
    apply orb_false_iff in Ha. destruct Ha as [Hcc Ha].
    change (has_underscore_run ((c :: c' :: t') ++ b))
      with ((is_underscore c && is_underscore c')
            || has_underscore_run ((c' :: t') ++ b)).
    now rewrite Hcc, (IH Ha).
Qed.

Lemma ends_with_pdf_ci_app (s : jsstring) :
  ends_with_pdf_ci (s ++ lit ".pdf") = true.
Proof.
  unfold ends_with_pdf_ci. rewrite rev_app_distr. reflexivity.
Qed.

(** What [sanitizeFileName] computes, with its [trim] gone: after the first
    replacement no white space is left. *)
Lemma sanitizeFileName_unfold (raw : jsstring) :
  sanitizeFileName raw
  = let stem := squeeze_underscores false (underscore_foreign raw) in
    if ends_with_pdf_ci stem then stem else stem ++ lit ".pdf".
Proof.
  unfold sanitizeFileName.
  rewrite replace_class_foreign.
  rewrite trim_none.
  - now rewrite runs_squeeze.
  - apply runs_Forall.
    eapply Forall_impl; [|apply underscore_foreign_chars].
    intros c. apply file_name_char_not_white_space.
Qed.

Lemma sanitizeFileName_ext (raw : jsstring) :
  ends_with_pdf_ci (sanitizeFileName raw) = true.
Proof.
  rewrite sanitizeFileName_unfold. cbv zeta.
  destruct (ends_with_pdf_ci
              (squeeze_underscores false (underscore_foreign raw))) eqn:E;
    [exact E | apply ends_with_pdf_ci_app].
Qed.

Lemma sanitizeFileName_clean (raw : jsstring) :
  clean_name (sanitizeFileName raw).
Proof.
  rewrite sanitizeFileName_unfold. cbv zeta.
  assert (Hc : Forall (fun c => file_name_char c = true)
                 (squeeze_underscores false (underscore_foreign raw))).
  { rewrite <- runs_squeeze. apply runs_Forall, underscore_foreign_chars. }
  destruct (squeeze_no_run (underscore_foreign raw) false) as [Hr _].
  destruct (ends_with_pdf_ci _); split; try assumption.
  - apply Forall_app. split; [exact Hc|].
    repeat constructor.
  - apply has_underscore_run_app; [exact Hr | reflexivity | reflexivity].
Qed.

Lemma sanitizeFileName_of_clean (s : jsstring) :
  clean_name s ->
  sanitizeFileName s = if ends_with_pdf_ci s then s else s ++ lit ".pdf".
Proof.
  intros [Hc Hr]. rewrite sanitizeFileName_unfold. cbv zeta.
  rewrite (underscore_foreign_id Hc).
  now rewrite (@squeeze_id s false Hr) by discriminate.
Qed.

End SanitizeFileName.

(** C10.  [sanitizeFileName] replaces every code unit other than an ASCII
    letter, a digit, a dot, an underscore or a hyphen by an underscore and
    collapses the runs of underscores, then appends [.pdf] unless the result
    ends with it in some letter case.  Its result is made of the allowed code
    units only, without two underscores in a row.  A name that is already
    clean is kept whole, whatever its length (there is no cap), no default
    name is ever made up, and the empty string gives [.pdf]. *)
Theorem sanitizeFileName_characterisation :
  (forall raw,
      let stem := squeeze_underscores false (underscore_foreign raw) in
      sanitizeFileName raw
      = if ends_with_pdf_ci stem then stem else stem ++ lit ".pdf")
  /\ (forall raw,
        Forall (fun c => file_name_char c = true) (sanitizeFileName raw)
        /\ has_underscore_run (sanitizeFileName raw) = false
        /\ ends_with_pdf_ci (sanitizeFileName raw) = true)
  /\ (forall s,
        clean_name s ->
        sanitizeFileName s = (if ends_with_pdf_ci s then s else s ++ lit ".pdf")
        /\ length s <= length (sanitizeFileName s))
  /\ sanitizeFileName [] = lit ".pdf".
Proof.
  split; [exact sanitizeFileName_unfold|].
  split.
  { intros raw. destruct (sanitizeFileName_clean raw) as [Hc Hr].
    auto using sanitizeFileName_ext. }
  split; [|reflexivity].
  intros s Hs. rewrite (sanitizeFileName_of_clean Hs).
  split; [reflexivity|].
  destruct (ends_with_pdf_ci s); [lia|]. rewrite length_app. lia.
Qed.

(** The characterisation at a clean name of 200 letters: the result has all
    204 code units. *)
Lemma sanitizeFileName_characterisation_witness :
  clean_name (repeat 97%N 200)
  /\ sanitizeFileName (repeat 97%N 200) = repeat 97%N 200 ++ lit ".pdf"
  /\ length (sanitizeFileName (repeat 97%N 200)) = 204.
Proof.
  assert (H : clean_name (repeat 97%N 200)).
  { split; [|vm_compute; reflexivity].
    apply Forall_forall. intros c Hc. apply repeat_spec in Hc. now subst. }
  split; [exact H|].
  destruct sanitizeFileName_characterisation as (_ & _ & Hclean & _).
  destruct (Hclean _ H) as [E _].
  split; [rewrite E; vm_compute; reflexivity|].
  rewrite E. vm_compute. reflexivity.
Defined.

(* ================================================================== *)
(** ** sanitizePdfName and generateDefaultPdfName *)
(* ================================================================== *)

Section SanitizePdfName.

Lemma replace_class_none (cls : char -> bool) (s : jsstring) :
  Forall (fun c => cls c = false) s -> replace_class cls s = s.
Proof.
  induction 1 as [|c t Hc _ IH]; simpl; [reflexivity|].
  rewrite Hc. f_equal. exact IH.
Qed.

Lemma strip_dots_none (s : jsstring) :
  Forall (fun c => is_dot c = false) s -> strip_dots s = s.
Proof.
  intros H. unfold strip_dots.
  rewrite (dropWhile_none _ H). apply dropWhileEnd_none, H.
Qed.

Lemma ends_with_pdf_ci_dot (s : jsstring) :
  ends_with_pdf_ci s = true -> exists c, In c s /\ is_dot c = true.
Proof.
  unfold ends_with_pdf_ci. intros H.
  destruct (rev s) as [|f [|d [|p [|dot r]]]] eqn:E; try discriminate.
  exists dot. split.
  - apply in_rev. rewrite E. simpl. auto.
  - now destruct (is_dot dot).
Qed.

Lemma no_dot_no_ext (s : jsstring) :
  Forall (fun c => is_dot c = false) s -> ends_with_pdf_ci s = false.
Proof.
  intros H. destruct (ends_with_pdf_ci s) eqn:E; [|reflexivity].
  destruct (ends_with_pdf_ci_dot _ E) as (c & Hin & Hc).
  rewrite Forall_forall in H. rewrite (H _ Hin) in Hc. discriminate.
Qed.

Lemma trim_nil_all (s : jsstring) :
  trim s = [] -> Forall (fun c => is_white_space c = true) s.
Proof.
  unfold trim, dropWhileEnd. intros H.
  destruct (dropWhile_suffix is_white_space s) as (pre & E & Hpre).
  rewrite E. apply Forall_app. split; [exact Hpre|].
  assert (H' : dropWhile is_white_space (rev (dropWhile is_white_space s)) = []).
  { rewrite <- (rev_involutive (dropWhile _ (rev _))), H. reflexivity. }
  destruct (dropWhile_suffix is_white_space (rev (dropWhile is_white_space s)))
    as (pre' & E' & Hpre').
  rewrite H', app_nil_r in E'.
  rewrite <- (rev_involutive (dropWhile is_white_space s)), E'.
  apply Forall_rev, Hpre'.
Qed.

Lemma plain_white_space_valid c :
  plain_white_space c = true -> invalid_filename_char c = false.
Proof.
  unfold plain_white_space, invalid_filename_char, is_control, is_white_space,
    in_range, char_eqb.
  rewrite andb_true_iff, negb_true_iff, andb_false_iff, !orb_true_iff,
    !andb_true_iff, !N.leb_le, !N.eqb_eq, !N.leb_gt.
  intros [H K].
  repeat (apply orb_false_iff; split);
    try (apply andb_false_iff; rewrite !N.leb_gt; lia);
    apply N.eqb_neq; lia.
Qed.

Lemma plain_white_space_white c :
  plain_white_space c = true -> is_white_space c = true.
Proof. unfold plain_white_space. now rewrite andb_true_iff. Qed.

(** The candidate of a name of plain white space is the bare extension. *)
Lemma candidate_of_white_space (raw : jsstring) :
  Forall (fun c => plain_white_space c = true) raw ->
  sanitizePdfName_candidate raw = lit ".pdf".
Proof.
  intros H. unfold sanitizePdfName_candidate.
  rewrite replace_class_none
    by (eapply Forall_impl; [|exact H]; apply plain_white_space_valid).
  rewrite trim_all
    by (eapply Forall_impl; [|exact H]; apply plain_white_space_white).
  reflexivity.
Qed.

Lemma uint_chars_digits (d : Decimal.uint) :
  Forall (fun c => is_digit c = true) (uint_chars d).
Proof. induction d; simpl; constructor; auto. Qed.

Lemma expect_app (p r : jsstring) : expect p (p ++ r) = Some r.
Proof.
  induction p as [|c p IH]; simpl; [now destruct r|].
  unfold char_eqb. now rewrite N.eqb_refl.
Qed.

Lemma take_digits_app (ds r : jsstring) :
  Forall (fun c => is_digit c = true) ds ->
  take_digits (length ds) (ds ++ r) = Some r.
Proof.
  induction 1 as [|c t Hc _ IH]; simpl; [now destruct r|]. now rewrite Hc.
Qed.

Lemma digits_of_length_take n ds r :
  digits_of_length n ds = true -> take_digits n (ds ++ r) = Some r.
Proof.
  unfold digits_of_length. rewrite andb_true_iff, Nat.eqb_eq, forallb_forall.
  intros [<- H]. apply take_digits_app, Forall_forall, H.
Qed.

(** A check over the numbers [lo], [lo+1], ..., [lo+count-1]. *)
Lemma range_check (q : Z -> bool) (lo count : Z) :
  forallb (fun k => q (lo + Z.of_nat k)%Z) (seq 0 (Z.to_nat count)) = true ->
  forall z, (lo <= z < lo + count)%Z -> q z = true.
Proof.
  intros H z Hz. rewrite forallb_forall in H.
  replace z with (lo + Z.of_nat (Z.to_nat (z - lo)))%Z by lia.
  apply H, in_seq. lia.
Qed.

Lemma year_digits z :
  (1000 <= z <= 9999)%Z -> digits_of_length 4 (Number_toString z) = true.
Proof.
  intros H.
  apply (@range_check (fun z => digits_of_length 4 (Number_toString z))
           1000%Z 9000%Z); [vm_compute; reflexivity | lia].
Qed.

Lemma field_digits z :
  (0 <= z <= 99)%Z -> digits_of_length 2 (padStart2 (Number_toString z)) = true.
Proof.
  intros H.
  apply (@range_check
           (fun z => digits_of_length 2 (padStart2 (Number_toString z)))
           0%Z 100%Z); [vm_compute; reflexivity | lia].
Qed.

Lemma generateDefaultPdfName_form (now : Date) (count : Z) :
  calendar_date now ->
  is_default_name count (generateDefaultPdfName now count) = true.
Proof.
  intros (Hy & Hm & Hd & Hh & Hmi & Hs).
  unfold is_default_name, generateDefaultPdfName, parse_all. cbv zeta.
  cbn [fold_left and_then].
  rewrite expect_app. cbn [and_then].
  rewrite (@digits_of_length_take _ _ _ (year_digits Hy)). cbn [and_then].
  rewrite expect_app. cbn [and_then].
  rewrite (@digits_of_length_take _ _ _ (@field_digits (getMonth now + 1) ltac:(lia))).
  cbn [and_then]. rewrite expect_app. cbn [and_then].
  rewrite (@digits_of_length_take _ _ _ (@field_digits (getDate now) ltac:(lia))).
  cbn [and_then]. rewrite expect_app. cbn [and_then].
  rewrite (@digits_of_length_take _ _ _ (@field_digits (getHours now) ltac:(lia))).
  cbn [and_then].
  rewrite (@digits_of_length_take _ _ _ (@field_digits (getMinutes now) ltac:(lia))).
  cbn [and_then].
  rewrite (@digits_of_length_take _ _ _ (@field_digits (getSeconds now) ltac:(lia))).
  cbn [and_then]. rewrite expect_app. cbn [and_then].
  rewrite expect_app. cbn [and_then].
  rewrite <- (app_nil_r (lit "images.pdf")), expect_app. reflexivity.
Qed.

Lemma generateDefaultPdfName_visible (now : Date) (count : Z) :
  trim (generateDefaultPdfName now count) <> [].
Proof.
  intros H. apply trim_nil_all in H.
  unfold generateDefaultPdfName in H. cbv zeta in H.
  change (lit "Document-" ++ ?r) with (68%N :: tl (lit "Document-") ++ r) in H.
  inversion H as [|c t Hc _]. discriminate Hc.
Qed.

End SanitizePdfName.

Section SanitizePdfNameLong.

Variable EditedImage : Type.
Variable now : Date.
Variable editingImages : list EditedImage.

Lemma ordinary_chars (s : jsstring) :
  Forall (fun c => ordinary_char c = true) s ->
  Forall (fun c => invalid_filename_char c = false) s
  /\ Forall (fun c => is_white_space c = false) s
  /\ Forall (fun c => is_dot c = false) s.
Proof.
  intros H. repeat split; (eapply Forall_impl; [|exact H]); intros c;
    unfold ordinary_char; rewrite !andb_true_iff, !negb_true_iff; tauto.
Qed.

Lemma Forall_firstn_of {A} (Q : A -> Prop) (n : nat) (l : list A) :
  Forall Q l -> Forall Q (firstn n l).
Proof.
  intros H. rewrite <- (firstn_skipn n l) in H.
  apply Forall_app in H. tauto.
Qed.

Lemma candidate_of_long (raw : jsstring) :
  Forall (fun c => ordinary_char c = true) raw ->
  maxLength < length raw ->
  sanitizePdfName_candidate raw = firstn maxLength raw.
Proof.
  intros H Hlen. destruct (ordinary_chars H) as (Hv & Hw & Hd).
  unfold sanitizePdfName_candidate.
  rewrite (replace_class_none _ Hv), (trim_none Hw), (strip_dots_none Hd).
  rewrite (no_dot_no_ext Hd). cbn [negb].
  assert (L : Nat.ltb maxLength (length (raw ++ lit ".pdf")) = true).
  { apply Nat.ltb_lt. rewrite length_app. lia. }
  rewrite L. unfold substring0. rewrite firstn_app.
  replace (maxLength - length raw) with 0 by lia.
  apply app_nil_r.
Qed.

Lemma sanitizePdfName_of_long (raw : jsstring) :
  Forall (fun c => ordinary_char c = true) raw ->
  maxLength < length raw ->
  sanitizePdfName now editingImages raw = firstn maxLength raw.
Proof.
  intros H Hlen. unfold sanitizePdfName. cbv zeta.
  rewrite (candidate_of_long H Hlen).
  destruct (ordinary_chars H) as (_ & Hw & _).
  assert (L : length (firstn maxLength raw) = maxLength)
    by (apply firstn_length_le; lia).
  rewrite (trim_none (Forall_firstn_of maxLength Hw)).
  assert (E1 : eqb (firstn maxLength raw) (lit ".pdf") = false).
  { apply eqb_neq. intros E. rewrite E in L. discriminate L. }
  assert (E2 : eqb (firstn maxLength raw) [] = false).
  { apply eqb_neq. intros E. rewrite E in L. discriminate L. }
  now rewrite E1, E2.
Qed.

End SanitizePdfNameLong.

(** C2.  On a raw name of more than 100 code units, all of them ordinary
    (not reserved, not control, not white space, no dot), [sanitizePdfName]
    returns the first 100 code units of the raw name: the extension that was
    appended before the truncation is cut off and is not put back, so the
    result has the 100 code units but not the extension. *)
Theorem sanitizePdfName_truncation_cuts_extension
  (EditedImage : Type) (now : Date) (editingImages : list EditedImage)
  (raw : jsstring) :
  Forall (fun c => ordinary_char c = true) raw ->
  100 < length raw ->
  sanitizePdfName now editingImages raw = firstn 100 raw
  /\ length (sanitizePdfName now editingImages raw) = 100
  /\ ends_with_pdf_ci (sanitizePdfName now editingImages raw) = false.
Proof.
  intros H Hlen.
  rewrite (sanitizePdfName_of_long now editingImages H Hlen).
  split; [reflexivity|]. split.
  - apply firstn_length_le. lia.
  - apply no_dot_no_ext.
    apply Forall_firstn_of. now destruct (ordinary_chars H) as (_ & _ & Hd).
Qed.

(** The raw name of 101 letters [a] comes back as 100 letters [a]. *)
Lemma sanitizePdfName_truncation_cuts_extension_witness :
  let raw := repeat 97%N 101 in
  let out := sanitizePdfName (mkDate 2024 0 5 7 8 9) [tt; tt; tt] raw in
  out = repeat 97%N 100 /\ length out = 100 /\ ends_with_pdf_ci out = false.
Proof.
  cbv zeta.
  assert (H : Forall (fun c => ordinary_char c = true) (repeat 97%N 101)).
  { apply Forall_forall. intros c Hc. apply repeat_spec in Hc. now subst. }
  assert (L : 100 < length (repeat 97%N 101)) by (rewrite repeat_length; lia).
  destruct (sanitizePdfName_truncation_cuts_extension
              (mkDate 2024 0 5 7 8 9) [tt; tt; tt] H L) as (E & Hl & He).
  split; [|split; assumption].
  rewrite E. reflexivity.
Defined.

(** C7, as stated, fails on a tab: it is white space, but it is a control
    character too, so the first replacement turns it into an underscore
    before anything is trimmed. *)
Lemma sanitizePdfName_tab_is_kept :
  let raw := [9%N] in
  let now := mkDate 2024 0 5 7 8 9 in
  Forall (fun c => is_white_space c = true) raw
  /\ sanitizePdfName now [tt; tt; tt] raw = lit "_.pdf"
  /\ sanitizePdfName now [tt; tt; tt] raw <> generateDefaultPdfName now 3
  /\ is_default_name 3 (sanitizePdfName now [tt; tt; tt] raw) = false.
Proof.
  cbv zeta. split; [repeat constructor|].
  split; [reflexivity|]. split; [|reflexivity].
  vm_compute. discriminate.
Qed.

(** C7, amended.  [sanitizePdfName] returns the default name for the empty
    name, for a name made of white space that is not a control character,
    and whenever its candidate is the bare extension.  The default name of a
    clock reading in the four-digit years reads
    [Document-YYYY-MM-DD-HHMMSS-<count>images.pdf] with the number of images
    being edited.  Whatever the input, the result is not empty and not
    white space. *)
Theorem sanitizePdfName_default
  (EditedImage : Type) (now : Date) (editingImages : list EditedImage) :
  let count := Z.of_nat (length editingImages) in
  (forall raw,
      raw = []
      \/ Forall (fun c => plain_white_space c = true) raw
      \/ sanitizePdfName_candidate raw = lit ".pdf" ->
      sanitizePdfName now editingImages raw = generateDefaultPdfName now count)
  /\ (calendar_date now ->
      is_default_name count (generateDefaultPdfName now count) = true)
  /\ (forall raw, trim (sanitizePdfName now editingImages raw) <> []).
Proof.
  cbv zeta. split; [|split].
  - intros raw H.
    assert (C : sanitizePdfName_candidate raw = lit ".pdf").
    { destruct H as [-> | [H | H]];
        [reflexivity | now apply candidate_of_white_space | exact H]. }
    unfold sanitizePdfName. cbv zeta. now rewrite C.
  - apply generateDefaultPdfName_form.
  - intros raw. unfold sanitizePdfName. cbv zeta.
    destruct (eqb (sanitizePdfName_candidate raw) (lit ".pdf")); cbn [orb].
    + apply generateDefaultPdfName_visible.
    + destruct (eqb (trim (sanitizePdfName_candidate raw)) []) eqn:E.
      * apply generateDefaultPdfName_visible.
      * now apply eqb_neq.
Qed.

(** Three spaces, with three images in the editor. *)
Lemma sanitizePdfName_default_witness :
  let now := mkDate 2024 0 5 7 8 9 in
  calendar_date now
  /\ sanitizePdfName now [tt; tt; tt] (lit "   ")
     = lit "Document-2024-01-05-070809-3images.pdf"
  /\ is_default_name 3 (generateDefaultPdfName now 3) = true.
Proof.
  cbv zeta.
  assert (D : calendar_date (mkDate 2024 0 5 7 8 9)) by (cbv; intuition discriminate).
  destruct (sanitizePdfName_default (mkDate 2024 0 5 7 8 9) [tt; tt; tt])
    as (Hdef & Hform & _).
  split; [exact D|]. split.
  - rewrite Hdef; [reflexivity|]. right; left. repeat constructor.
  - exact (Hform D).
Defined.

(* ================================================================== *)
(** ** Facts about the file system *)
(* ================================================================== *)

Section FileFacts.

Lemma lookup_write_same uri f fs : lookup uri (write uri f fs) = Some f.
Proof.
  induction fs as [|[u g] rest IH]; simpl.
  - now rewrite eqb_refl.
  - destruct (eqb u uri) eqn:E; simpl; now rewrite E.
Qed.

Lemma lookup_write_other uri uri' f fs :
  uri <> uri' -> lookup uri' (write uri f fs) = lookup uri' fs.
Proof.
  intros Hne. induction fs as [|[u g] rest IH]; simpl.
  - apply eqb_neq in Hne. now rewrite Hne.
  - destruct (eqb u uri) eqn:E; simpl.
    + apply eqb_eq in E. subst u. apply eqb_neq in Hne. now rewrite Hne.
    + now rewrite IH.
Qed.

Lemma lookup_remove_same uri fs : lookup uri (remove uri fs) = None.
Proof.
  induction fs as [|[u g] rest IH]; simpl; [reflexivity|].
  destruct (eqb u uri) eqn:E; simpl; [exact IH | now rewrite E].
Qed.

Lemma lookup_remove_other uri uri' fs :
  uri <> uri' -> lookup uri' (remove uri fs) = lookup uri' fs.
Proof.
  intros Hne. induction fs as [|[u g] rest IH]; simpl; [reflexivity|].
  destruct (eqb u uri) eqn:E; simpl.
  - apply eqb_eq in E. subst u. apply eqb_neq in Hne. now rewrite Hne.
  - now rewrite IH.
Qed.

Lemma remove_absent uri fs : lookup uri fs = None -> remove uri fs = fs.
Proof.
  induction fs as [|[u g] rest IH]; simpl; [reflexivity|].
  destruct (eqb u uri) eqn:E; [discriminate|]. simpl. intros H.
  now rewrite (IH H).
Qed.

Lemma write_absent uri f fs :
  lookup uri fs = None -> write uri f fs = fs ++ [(uri, f)].
Proof.
  induction fs as [|[u g] rest IH]; simpl; [reflexivity|].
  destruct (eqb u uri) eqn:E; [discriminate|]. intros H. now rewrite (IH H).
Qed.

Lemma lookup_longest uri fs :
  longest fs < length uri -> lookup uri fs = None.
Proof.
  induction fs as [|[u g] rest IH]; simpl; [reflexivity|].
  intros H. destruct (eqb u uri) eqn:E.
  - apply eqb_eq in E. subst u. lia.
  - apply IH. lia.
Qed.

End FileFacts.

(* ================================================================== *)
(** ** renamePdf *)
(* ================================================================== *)

Section RenamePdf.

Variable P : Platform.

(** One call of [renamePdf], by cases as the source goes through them. *)
Lemma renamePdf_step (fuel : nat) (sourceUri newFileName : jsstring) (w : World) :
  renamePdf P (S fuel) sourceUri newFileName w
  = let cleanName := sanitizeFileName newFileName in
    let w0 := logged [console_log_entry "Renaming PDF to:" cleanName] w in
    match documentDirectory P with
    | None => rename_catch (lit "Cannot access document directory") w0
    | Some docDir =>
        match lookup sourceUri (files w) with
        | None => rename_catch (lit "Source PDF file not found") w0
        | Some _ =>
            match lookup (docDir ++ cleanName) (files w) with
            | Some _ =>
                rethrow (renamePdf P fuel sourceUri
                           (unique_name cleanName (clock P (ticks w)))
                           (retry_world P cleanName w))
            | None =>
                try_catch (commit P sourceUri (docDir ++ cleanName))
                  rename_catch w0
            end
        end
    end.
Proof.
  cbv zeta. cbn [renamePdf].
  unfold try_catch at 1. unfold bind at 1. unfold console_log at 1.
  destruct (documentDirectory P) as [docDir|]; [|reflexivity].
  unfold bind at 1. unfold getInfoAsync at 1. cbn [files].
  destruct (lookup sourceUri (files w)) as [f|]; [|reflexivity].
  cbn [file_exists negb].
  unfold bind at 1. unfold getInfoAsync at 1. cbn [files].
  destruct (lookup (docDir ++ sanitizeFileName newFileName) (files w)) as [g|].
  - cbn [file_exists]. unfold bind at 1. unfold Date_now at 1.
    cbn [files ticks console]. unfold bind at 1. unfold console_log at 1.
    cbn [files ticks console]. rewrite <- app_assoc. reflexivity.
  - reflexivity.
Qed.

Lemma renamePdf_no_fuel (sourceUri newFileName : jsstring) (w : World) :
  renamePdf P 0 sourceUri newFileName w = (OutOfFuel, w).
Proof. reflexivity. Qed.

Lemma rethrow_Returned r uri w' :
  rethrow r = (Returned uri, w') -> r = (Returned uri, w').
Proof.
  destruct r as [[a|e|] w1]; simpl; try congruence.
  cbv. discriminate.
Qed.

Lemma rethrow_not_OutOfFuel r :
  fst r <> OutOfFuel -> fst (rethrow r) <> OutOfFuel.
Proof.
  destruct r as [[a|e|] w1]; simpl; congruence.
Qed.

(** The resolution changes neither the files nor anything but the clock
    readings it makes, one per retry, and ends on a free clean name. *)
Lemma resolves_facts docDir w newFileName k final w' :
  resolves P docDir w newFileName k final w' ->
  files w' = files w /\ ticks w' = ticks w + k
  /\ lookup (docDir ++ final) (files w) = None
  /\ clean_name final /\ ends_with_pdf_ci final = true.
Proof.
  induction 1 as [w n Hfree | w n k final w' Hbusy _ IH].
  - repeat split; try assumption; cbn; try lia.
    + apply sanitizeFileName_clean.
    + apply sanitizeFileName_clean.
    + apply sanitizeFileName_ext.
  - destruct IH as (Hf & Ht & Hl & Hc & He). cbn in Hf, Ht, Hl.
    repeat split; try assumption; try apply Hc. lia.
Qed.

(** With enough fuel, [renamePdf] on an existing source is the commit at
    the resolved name, passed through the [catch] block of every retry. *)
Lemma renamePdf_resolved docDir sourceUri w newFileName k final w' :
  documentDirectory P = Some docDir ->
  lookup sourceUri (files w) <> None ->
  resolves P docDir w newFileName k final w' ->
  forall fuel, k < fuel ->
  renamePdf P fuel sourceUri newFileName w
  = Nat.iter k rethrow
      (try_catch (commit P sourceUri (docDir ++ final)) rename_catch w').
Proof.
  intros Hdir Hsrc Hres. induction Hres as [w n Hfree | w n k final w' Hbusy Hres IH];
    intros [|fuel] Hfuel; try lia.
  - rewrite renamePdf_step. cbv zeta. rewrite Hdir.
    destruct (lookup sourceUri (files w)); [|congruence].
    now rewrite Hfree.
  - rewrite renamePdf_step. cbv zeta. rewrite Hdir.
    destruct (lookup sourceUri (files w)) eqn:Es; [|congruence].
    destruct (lookup (docDir ++ sanitizeFileName n) (files w)); [|congruence].
    rewrite IH; [reflexivity | cbn; now rewrite Es | lia].
Qed.

End RenamePdf.

Section Resolution.

Variable P : Platform.

Lemma solid_app (a b : jsstring) : solid (a ++ b) = solid a + solid b.
Proof. unfold solid. now rewrite filter_app, length_app. Qed.

Lemma solid_le_length (s : jsstring) : solid s <= length s.
Proof. apply filter_length_le. Qed.

Lemma solid_squeeze (s : jsstring) : forall after,
  solid (squeeze_underscores after s) = solid s.
Proof.
  induction s as [|c t IH]; intros after; [reflexivity|].
  simpl squeeze_underscores. unfold solid in *. simpl filter.
  destruct (is_underscore c) eqn:E; simpl negb; cbv iota.
  - destruct after; [apply IH|]. simpl filter. rewrite E. apply IH.
  - simpl filter. rewrite E. simpl. f_equal. apply IH.
Qed.

Lemma solid_all (s : jsstring) :
  Forall (fun c => is_underscore c = false) s -> solid s = length s.
Proof.
  induction 1 as [|c t Hc _ IH]; [reflexivity|].
  unfold solid in *. simpl. rewrite Hc. simpl. now rewrite IH.
Qed.

Lemma digit_is_name_char c :
  is_digit c = true -> file_name_char c = true /\ is_underscore c = false.
Proof.
  unfold is_digit, file_name_char, is_underscore, in_range, char_eqb, underscore.
  rewrite andb_true_iff, !N.leb_le. intros [H1 H2]. split.
  - rewrite !orb_true_iff, !andb_true_iff, !N.leb_le. tauto.
  - apply N.eqb_neq. lia.
Qed.

Lemma Number_toString_chars (z : Z) :
  Forall (fun c => file_name_char c = true /\ is_underscore c = false)
    (Number_toString z).
Proof.
  assert (D : Forall (fun c => file_name_char c = true /\ is_underscore c = false)
                (uint_chars (N.to_uint (Z.abs_N z)))).
  { eapply Forall_impl; [|apply uint_chars_digits]. apply digit_is_name_char. }
  unfold Number_toString. destruct (z <? 0)%Z; [|exact D].
  constructor; [split; reflexivity | exact D].
Qed.

Lemma uint_chars_nonempty (d : Decimal.uint) :
  d <> Decimal.Nil -> uint_chars d <> [].
Proof. destruct d; simpl; congruence. Qed.

Lemma Number_toString_nonempty (z : Z) : 1 <= length (Number_toString z).
Proof.
  unfold Number_toString. destruct (z <? 0)%Z; simpl; [lia|].
  assert (H : uint_chars (N.to_uint (Z.abs_N z)) <> []).
  { apply uint_chars_nonempty. destruct (Z.abs_N z) as [|p]; simpl.
    - discriminate.
    - apply Unsigned.to_uint_nonnil. }
  destruct (uint_chars _); [congruence | simpl; lia].
Qed.

(** A name with the extension is its stem and four solid code units. *)
Lemma ext_split (s : jsstring) :
  ends_with_pdf_ci s = true ->
  exists e, s = remove_pdf_ext s ++ e /\ solid e = 4.
Proof.
  intros H. unfold remove_pdf_ext. rewrite H.
  unfold ends_with_pdf_ci in H.
  destruct (rev s) as [|f [|d [|p [|dot r]]]] eqn:E; try discriminate.
  assert (Es : s = rev r ++ [dot; p; d; f]).
  { rewrite <- (rev_involutive s), E. simpl. now rewrite <- !app_assoc. }
  exists [dot; p; d; f]. split.
  - clear E H. subst s. rewrite length_app. simpl length.
    replace (length (rev r) + 4 - 4) with (length (rev r) + 0) by lia.
    rewrite firstn_app_2. simpl. now rewrite app_nil_r.
  - apply andb_true_iff in H. destruct H as [H Hf].
    apply andb_true_iff in H. destruct H as [H Hd].
    apply andb_true_iff in H. destruct H as [Hdot Hp].
    unfold is_dot, char_eqb in *.
    rewrite orb_true_iff, !N.eqb_eq in Hf, Hd, Hp. rewrite N.eqb_eq in Hdot.
    subst dot.
    destruct Hp as [-> | ->], Hd as [-> | ->], Hf as [-> | ->]; reflexivity.
Qed.

Lemma remove_pdf_ext_chars (Q : char -> Prop) (s : jsstring) :
  Forall Q s -> Forall Q (remove_pdf_ext s).
Proof.
  intros H. unfold remove_pdf_ext. destruct (ends_with_pdf_ci s); [|exact H].
  now apply Forall_firstn_of.
Qed.

(** The name of a retry is made of allowed code units, so that the next call
    only collapses underscores in it. *)
Lemma unique_name_chars (cleanName : jsstring) (timestamp : Z) :
  clean_name cleanName ->
  Forall (fun c => file_name_char c = true) (unique_name cleanName timestamp).
Proof.
  intros [Hc _]. unfold unique_name.
  repeat (apply Forall_app; split).
  - now apply remove_pdf_ext_chars.
  - repeat constructor.
  - eapply Forall_impl; [|apply Number_toString_chars]. intros c H; apply H.
  - repeat constructor.
Qed.

(** Every retry asks for a name with more solid code units. *)
Lemma retry_grows (cleanName : jsstring) (timestamp : Z) :
  clean_name cleanName -> ends_with_pdf_ci cleanName = true ->
  solid cleanName < solid (sanitizeFileName (unique_name cleanName timestamp)).
Proof.
  intros Hclean Hext.
  destruct (ext_split _ Hext) as (e & Es & He).
  assert (Hs : solid cleanName = solid (remove_pdf_ext cleanName) + 4).
  { rewrite Es at 1. rewrite solid_app. lia. }
  assert (Hu : solid (remove_pdf_ext cleanName) + 5
               <= solid (unique_name cleanName timestamp)).
  { unfold unique_name. rewrite !solid_app.
    assert (Ht : solid (Number_toString timestamp)
                 = length (Number_toString timestamp)).
    { apply solid_all. eapply Forall_impl; [|apply Number_toString_chars].
      intros c H; apply H. }
    pose proof (Number_toString_nonempty timestamp).
    change (solid (lit ".pdf")) with 4. lia. }
  rewrite sanitizeFileName_unfold. cbv zeta.
  rewrite (underscore_foreign_id (unique_name_chars timestamp Hclean)).
  pose proof (solid_squeeze (unique_name cleanName timestamp) false) as Hq.
  destruct (ends_with_pdf_ci
              (squeeze_underscores false (unique_name cleanName timestamp)));
    [lia|].
  rewrite solid_app. lia.
Qed.

(** The resolution ends: a name with more solid code units than the longest
    URI has is free. *)
Lemma resolves_within (docDir : jsstring) (n : nat) :
  forall w newFileName,
    longest (files w) < n + solid (sanitizeFileName newFileName) ->
    exists k final w',
      resolves P docDir w newFileName k final w' /\ k <= n.
Proof.
  induction n as [|n IH]; intros w name Hn.
  - exists 0, (sanitizeFileName name). eexists. split; [|lia].
    apply resolves_free. apply lookup_longest. rewrite length_app.
    pose proof (solid_le_length (sanitizeFileName name)). lia.
  - destruct (lookup (docDir ++ sanitizeFileName name) (files w)) eqn:E.
    + destruct (IH (retry_world P (sanitizeFileName name) w)
                  (unique_name (sanitizeFileName name) (clock P (ticks w))))
        as (k & final & w' & Hres & Hk).
      { cbn [retry_world files].
        pose proof (retry_grows (clock P (ticks w))
                      (sanitizeFileName_clean name) (sanitizeFileName_ext name)).
        lia. }
      exists (S k), final, w'. split; [|lia].
      apply resolves_retry; [congruence | exact Hres].
    + exists 0, (sanitizeFileName name). eexists. split; [|lia].
      now apply resolves_free.
Qed.

Lemma resolves_exists (docDir : jsstring) (w : World) (newFileName : jsstring) :
  exists k final w',
    resolves P docDir w newFileName k final w' /\ k <= S (longest (files w)).
Proof. apply resolves_within. lia. Qed.

Lemma iter_rethrow_not_OutOfFuel k r :
  fst r <> OutOfFuel -> fst (Nat.iter k rethrow r) <> OutOfFuel.
Proof.
  intros H. induction k as [|k IH]; [exact H|].
  simpl. now apply rethrow_not_OutOfFuel.
Qed.

Lemma iter_rethrow_Returned k uri w :
  Nat.iter k rethrow (Returned uri, w) = (Returned uri, w).
Proof. induction k as [|k IH]; [reflexivity|]. simpl. now rewrite IH. Qed.


End Resolution.

Section Commit.

Variable P : Platform.

(** The three ways the commit at a free target ends. *)
Lemma commit_cases (sourceUri targetUri : jsstring) (w : World) (f : File) :
  lookup sourceUri (files w) = Some f ->
  match copy_outcome P (files w) sourceUri targetUri with
  | CopySucceeds mtime =>
      let fs' := write targetUri (mkFile (data f) mtime) (files w) in
      match delete_error P fs' sourceUri with
      | None =>
          try_catch (commit P sourceUri targetUri) rename_catch w
          = (Returned targetUri,
             mkWorld (remove sourceUri fs') (ticks w)
               (console w
                ++ [console_log_entry "PDF renamed/moved to:" targetUri;
                    console_log_entry "Source file deleted" []]))
      | Some message =>
          try_catch (commit P sourceUri targetUri) rename_catch w
          = (Returned targetUri,
             mkWorld fs' (ticks w)
               (console w
                ++ [console_log_entry "PDF renamed/moved to:" targetUri;
                    console_log_entry "Could not delete source file:" message]))
      end
  | CopyFails message leftover =>
      try_catch (commit P sourceUri targetUri) rename_catch w
      = (Thrown (rename_failure message),
         mkWorld
           match leftover with
           | None => files w
           | Some part => write targetUri part (files w)
           end
           (ticks w)
           (console w ++ [console_error_entry "Error in renamePdf:" message]))
  end.
Proof.
  intros Hsrc.
  cbv beta iota zeta delta
    [try_catch commit bind copyAsync deleteAsync console_log ret set_files
     rename_catch console_error throw].
  rewrite Hsrc.
  destruct (copy_outcome P (files w) sourceUri targetUri) as [mtime|message [part|]];
    cbn [files ticks console].
  - destruct (delete_error P _ sourceUri) as [message|];
      cbn [files ticks console]; now rewrite <- app_assoc.
  - reflexivity.
  - destruct w; reflexivity.
Qed.

Lemma commit_ends (sourceUri targetUri : jsstring) (w : World) :
  stored sourceUri w ->
  exists r w',
    try_catch (commit P sourceUri targetUri) rename_catch w = (r, w')
    /\ r <> OutOfFuel /\ ticks w' = ticks w.
Proof.
  unfold stored. intros Hsrc.
  destruct (lookup sourceUri (files w)) as [f|] eqn:E; [|congruence].
  pose proof (commit_cases sourceUri targetUri w E) as H.
  destruct (copy_outcome P (files w) sourceUri targetUri) as [mtime|message leftover].
  - cbv zeta in H. destruct (delete_error P _ sourceUri);
      rewrite H; eexists; eexists; (split; [reflexivity|]); split;
      (discriminate || reflexivity).
  - rewrite H. eexists; eexists. split; [reflexivity|]. split;
      (discriminate || reflexivity).
Qed.

Lemma rethrow_store r :
  files (snd (rethrow r)) = files (snd r)
  /\ ticks (snd (rethrow r)) = ticks (snd r).
Proof. destruct r as [[a|e|] w]; split; reflexivity. Qed.

Lemma iter_rethrow_store k r :
  files (snd (Nat.iter k rethrow r)) = files (snd r)
  /\ ticks (snd (Nat.iter k rethrow r)) = ticks (snd r).
Proof.
  induction k as [|k [IHf IHt]]; [split; reflexivity|].
  simpl. destruct (rethrow_store (Nat.iter k rethrow r)) as [Hf Ht].
  split; congruence.
Qed.

(** A run that finds no source stops at once and leaves the files alone. *)
Lemma renamePdf_no_source (fuel : nat) (sourceUri newFileName : jsstring)
  (w : World) :
  lookup sourceUri (files w) = None ->
  exists message,
    renamePdf P (S fuel) sourceUri newFileName w
    = (Thrown (rename_failure message),
       logged [console_log_entry "Renaming PDF to:" (sanitizeFileName newFileName);
               console_error_entry "Error in renamePdf:" message] w)
    /\ (documentDirectory P <> None -> message = lit "Source PDF file not found").
Proof.
  intros Hsrc. rewrite renamePdf_step. cbv zeta. rewrite Hsrc.
  destruct (documentDirectory P) as [docDir|].
  - exists (lit "Source PDF file not found"). split; [|reflexivity].
    unfold rename_catch, bind, console_error, throw, logged. cbn [files ticks console].
    now rewrite <- app_assoc.
  - exists (lit "Cannot access document directory"). split; [|congruence].
    unfold rename_catch, bind, console_error, throw, logged. cbn [files ticks console].
    now rewrite <- app_assoc.
Qed.

Lemma renamePdf_no_directory (fuel : nat) (sourceUri newFileName : jsstring)
  (w : World) :
  documentDirectory P = None ->
  renamePdf P (S fuel) sourceUri newFileName w
  = rename_catch (lit "Cannot access document directory")
      (logged [console_log_entry "Renaming PDF to:"
                 (sanitizeFileName newFileName)] w).
Proof.
  intros Hdir. rewrite renamePdf_step. cbv zeta. now rewrite Hdir.
Qed.

(** Every run of [renamePdf] ends, whatever the clock shows: after [k]
    retries, [k] being at most one more than the length of the longest URI
    in use, and with the [k] readings of the clock the retries made. *)
Lemma renamePdf_ends (sourceUri newFileName : jsstring) (w : World) :
  exists k r w',
    (forall fuel, k < fuel ->
                  renamePdf P fuel sourceUri newFileName w = (r, w'))
    /\ r <> OutOfFuel
    /\ ticks w' = ticks w + k
    /\ k <= S (longest (files w)).
Proof.
  destruct (documentDirectory P) as [docDir|] eqn:Hdir.
  - destruct (lookup sourceUri (files w)) as [f|] eqn:Hsrc.
    + destruct (resolves_exists P docDir w newFileName)
        as (k & final & w1 & Hres & Hk).
      destruct (resolves_facts Hres) as (Hf & Ht & _).
      destruct (@commit_ends sourceUri (docDir ++ final) w1)
        as (r0 & w0 & E0 & Hr0 & Ht0).
      { unfold stored. rewrite Hf, Hsrc. discriminate. }
      exists k, (fst (Nat.iter k rethrow (r0, w0))),
        (snd (Nat.iter k rethrow (r0, w0))).
      split; [|split; [|split]].
      * intros fuel Hfuel.
        rewrite (@renamePdf_resolved P docDir sourceUri w newFileName k final w1);
          [| assumption | rewrite Hsrc; discriminate | assumption | assumption].
        rewrite E0. now destruct (Nat.iter k rethrow (r0, w0)).
      * now apply iter_rethrow_not_OutOfFuel.
      * destruct (iter_rethrow_store k (r0, w0)) as [_ Hticks].
        rewrite Hticks. simpl. lia.
      * exact Hk.
    + destruct (@renamePdf_no_source 0 sourceUri newFileName w Hsrc)
        as (message & _ & _).
      exists 0. eexists. eexists. split; [|split; [|split]].
      * intros [|fuel] Hfuel; [lia|].
        rewrite renamePdf_step. cbv zeta. rewrite Hdir, Hsrc. reflexivity.
      * discriminate.
      * simpl. lia.
      * lia.
  - exists 0. eexists. eexists. split; [|split; [|split]].
    + intros [|fuel] Hfuel; [lia|].
      rewrite renamePdf_no_directory by assumption. reflexivity.
    + discriminate.
    + simpl. lia.
    + lia.
Qed.

End Commit.

(* ================================================================== *)
(** ** listAllPdfs *)
(* ================================================================== *)

Section Sorting.

Variable A : Type.
Variable compareFn : A -> A -> Z.

Lemma insert_by_perm (x : A) (l : list A) :
  Permutation (insert_by compareFn x l) (x :: l).
Proof.
  induction l as [|y t IH]; simpl; [apply Permutation_refl|].
  destruct (Z.leb (compareFn x y) 0); [apply Permutation_refl|].
  eapply perm_trans; [apply perm_skip, IH | apply perm_swap].
Qed.

Lemma Array_sort_perm (l : list A) : Permutation (Array_sort compareFn l) l.
Proof.
  induction l as [|x t IH]; simpl; [constructor|].
  eapply perm_trans; [apply insert_by_perm | now apply perm_skip].
Qed.

(** Stability: among the elements that [keep] selects, the one that is
    inserted comes first, provided it compares greater than the elements that
    [keep] does not select and that it passes on its way. *)
Lemma insert_by_filter (keep : A -> bool) (x : A) (l : list A) :
  (forall y, keep x = true -> keep y = true -> (compareFn x y <= 0)%Z) ->
  filter keep (insert_by compareFn x l) = filter keep (x :: l).
Proof.
  intros Hties. induction l as [|y t IH]; [reflexivity|].
  simpl insert_by. destruct (Z.leb (compareFn x y) 0) eqn:E; [reflexivity|].
  simpl filter in *. rewrite IH.
  destruct (keep x) eqn:Kx; [|reflexivity].
  destruct (keep y) eqn:Ky; [|reflexivity].
  apply Z.leb_gt in E. specialize (Hties y eq_refl Ky). lia.
Qed.

Lemma Array_sort_filter (keep : A -> bool) (l : list A) :
  (forall x y, keep x = true -> keep y = true -> (compareFn x y <= 0)%Z) ->
  filter keep (Array_sort compareFn l) = filter keep l.
Proof.
  intros Hties. induction l as [|x t IH]; [reflexivity|].
  simpl Array_sort. rewrite insert_by_filter by (intros y; apply Hties).
  simpl. now rewrite IH.
Qed.

End Sorting.

Section Listing.

Variable P : Platform.

Arguments char_eqb : simpl never.

Lemma or_zero_id (x : Z) : or_zero x = x.
Proof.
  unfold or_zero. destruct (Z.eqb x 0) eqn:E; [|reflexivity].
  apply Z.eqb_eq in E. now subst.
Qed.

Lemma by_newest_le (a b : PdfItem) :
  (by_newest a b <= 0)%Z <-> newest_first a b.
Proof. unfold by_newest, newest_first. rewrite !or_zero_id. lia. Qed.

Lemma insert_by_newest_sorted (x : PdfItem) (l : list PdfItem) :
  StronglySorted newest_first l ->
  StronglySorted newest_first (insert_by by_newest x l).
Proof.
  induction 1 as [|y t Hs IH Hy]; simpl.
  - repeat constructor.
  - destruct (Z.leb (by_newest x y) 0) eqn:E.
    + apply Z.leb_le, by_newest_le in E.
      constructor; [now constructor|]. constructor; [exact E|].
      eapply Forall_impl; [|exact Hy]. unfold newest_first in *. intros; lia.
    + apply Z.leb_gt in E. constructor; [exact IH|].
      eapply Permutation_Forall;
        [apply Permutation_sym, insert_by_perm|].
      constructor; [|exact Hy].
      unfold by_newest in E. rewrite !or_zero_id in E.
      unfold newest_first. lia.
Qed.

Lemma listing_sorted (l : list PdfItem) :
  StronglySorted newest_first (Array_sort by_newest l).
Proof.
  induction l as [|x t IH]; simpl; [constructor|].
  now apply insert_by_newest_sorted.
Qed.

Lemma listing_stable (t : Z) (l : list PdfItem) :
  modified_at t (Array_sort by_newest l) = modified_at t l.
Proof.
  apply Array_sort_filter. intros x y Hx Hy.
  apply Z.eqb_eq in Hx, Hy. unfold by_newest. rewrite !or_zero_id. lia.
Qed.

Lemma entry_name_sound (dir uri n : jsstring) :
  entry_name dir uri = Some n ->
  uri = dir ++ n /\ n <> [] /\ existsb (char_eqb slash) n = false.
Proof.
  revert uri. induction dir as [|d dir IH]; intros [|u uri]; simpl; try discriminate.
  - destruct (char_eqb slash u || existsb (char_eqb slash) uri) eqn:E;
      [discriminate|].
    intros H; injection H as <-. repeat split; [discriminate | exact E].
  - destruct (char_eqb d u) eqn:E; [|discriminate].
    apply char_eqb_eq in E. subst u. intros H.
    destruct (IH _ H) as (-> & Hn & Hs). now repeat split.
Qed.

Lemma entry_name_complete (dir n : jsstring) :
  n <> [] -> existsb (char_eqb slash) n = false ->
  entry_name dir (dir ++ n) = Some n.
Proof.
  intros Hn Hs. induction dir as [|d dir IH].
  - destruct n as [|c n]; [congruence|]. cbn [app entry_name]. now rewrite Hs.
  - cbn [app entry_name]. unfold char_eqb at 1. now rewrite N.eqb_refl.
Qed.

Lemma entry_names_in (dir uri n : jsstring) (fs : Files) :
  lookup uri fs <> None -> entry_name dir uri = Some n ->
  In n (entry_names dir fs).
Proof.
  intros Hl Hn. induction fs as [|[u f] rest IH]; simpl in *; [congruence|].
  destruct (eqb u uri) eqn:E.
  - apply eqb_eq in E. subst u. rewrite Hn. now left.
  - destruct (entry_name dir u); [right|]; now apply IH.
Qed.

Lemma lookup_first (u : jsstring) (f : File) (rest : Files) :
  lookup u ((u, f) :: rest) = Some f.
Proof. simpl. now rewrite eqb_refl. Qed.

Lemma entry_names_stored (dir n : jsstring) (fs : Files) :
  In n (entry_names dir fs) -> lookup (dir ++ n) fs <> None.
Proof.
  induction fs as [|[u f] rest IH]; simpl; [tauto|].
  destruct (eqb u (dir ++ n)) eqn:E; [discriminate|].
  destruct (entry_name dir u) as [m|] eqn:Em; [|exact IH].
  intros [-> | H]; [|now apply IH].
  destruct (entry_name_sound _ _ Em) as (-> & _). now rewrite eqb_refl in E.
Qed.

(** The callback of [listAllPdfs] on one name. *)
Lemma pdf_item_cases (docDir file : jsstring) (w : World) :
  pdf_item P docDir file w
  = match lookup (docDir ++ file) (files w) with
    | None =>
        (Returned None,
         logged [console_log_entry "File no longer exists:" file] w)
    | Some info =>
        let item stamp :=
          mkPdfItem (file ++ lit "_" ++ Number_toString stamp) file
            (docDir ++ file) (or_zero (fileSize info))
            (or_zero (fileModificationTime info)) in
        if Z.eqb (fileModificationTime info) 0 then
          (Returned (Some (item (clock P (ticks w)))),
           mkWorld (files w) (S (ticks w)) (console w))
        else (Returned (Some (item (fileModificationTime info))), w)
    end.
Proof.
  cbv beta iota zeta delta
    [pdf_item try_catch bind getInfoAsync console_log ret Date_now logged].
  destruct (lookup (docDir ++ file) (files w)) as [info|]; [|reflexivity].
  destruct (Z.eqb (fileModificationTime info) 0); reflexivity.
Qed.

Lemma filter_Boolean_map_Some {B} (l : list B) :
  filter_Boolean (map Some l) = l.
Proof. induction l as [|x t IH]; simpl; congruence. Qed.

(** The callbacks over names that are all in the store. *)
Lemma map_io_pdf_items (docDir : jsstring) (names : list jsstring) :
  forall w,
    Forall (fun n => lookup (docDir ++ n) (files w) <> None) names ->
    exists items w',
      map_io (pdf_item P docDir) names w = (Returned (map Some items), w')
      /\ map name items = names
      /\ Forall (describes docDir (files w)) items
      /\ files w' = files w.
Proof.
  induction names as [|n names IH]; intros w Hall.
  - exists [], w. repeat split; constructor.
  - inversion Hall as [|? ? Hn Hrest]; subst.
    destruct (lookup (docDir ++ n) (files w)) as [info|] eqn:E; [|congruence].
    pose proof (pdf_item_cases docDir n w) as Hitem. rewrite E in Hitem.
    cbv zeta in Hitem.
    simpl map_io. unfold bind at 1. 
    destruct (Z.eqb (fileModificationTime info) 0); rewrite Hitem.
    + destruct (IH (mkWorld (files w) (S (ticks w)) (console w)) Hrest)
        as (items & w' & Em & Hnames & Hdesc & Hfiles).
      unfold bind at 1. rewrite Em. cbn [ret].
      eexists (_ :: items), w'. split; [reflexivity|].
      split; [simpl; now rewrite Hnames|]. split; [|exact Hfiles].
      constructor; [|exact Hdesc].
      split; [reflexivity|]. exists info. cbn [uri modificationTime rawSize].
      now rewrite !or_zero_id.
    + destruct (IH w Hrest) as (items & w' & Em & Hnames & Hdesc & Hfiles).
      unfold bind at 1. rewrite Em. cbn [ret].
      eexists (_ :: items), w'. split; [reflexivity|].
      split; [simpl; now rewrite Hnames|]. split; [|exact Hfiles].
      constructor; [|exact Hdesc].
      split; [reflexivity|]. exists info. cbn [uri modificationTime rawSize].
      now rewrite !or_zero_id.
Qed.

(** What [listAllPdfs] returns: the items of the PDF entries of the
    directory, in the order of the enumeration, then sorted. *)
Lemma listAllPdfs_result (docDir : jsstring) (w : World) :
  documentDirectory P = Some docDir ->
  exists items w',
    listAllPdfs P w = (Returned (Array_sort by_newest items), w')
    /\ map name items = pdf_names docDir (files w)
    /\ Forall (describes docDir (files w)) items
    /\ files w' = files w.
Proof.
  intros Hdir.
  destruct (@map_io_pdf_items docDir (pdf_names docDir (files w)) w)
    as (items & w' & Em & Hnames & Hdesc & Hfiles).
  { apply Forall_forall. intros n Hn. apply filter_In in Hn.
    now apply entry_names_stored. }
  exists items, w'. split; [|now repeat split].
  unfold listAllPdfs, try_catch. rewrite Hdir.
  unfold bind at 1. unfold readDirectoryAsync at 1.
  unfold bind at 1. unfold pdf_names in Em. rewrite Em. cbn [ret].
  now rewrite filter_Boolean_map_Some.
Qed.

(** The listing reads the files and the clock, not the console. *)
Lemma map_io_pdf_items_same (docDir : jsstring) (names : list jsstring) :
  forall w1 w2,
    files w1 = files w2 -> ticks w1 = ticks w2 ->
    fst (map_io (pdf_item P docDir) names w1)
    = fst (map_io (pdf_item P docDir) names w2).
Proof.
  induction names as [|n names IH]; intros w1 w2 Hf Ht; [reflexivity|].
  cbn [map_io]. unfold bind. rewrite !pdf_item_cases, <- Hf, <- Ht.
  destruct (lookup (docDir ++ n) (files w1)) as [info|].
  - cbv zeta. destruct (Z.eqb (fileModificationTime info) 0).
    + pose proof (IH (mkWorld (files w1) (S (ticks w1)) (console w1))
                    (mkWorld (files w1) (S (ticks w1)) (console w2))
                    eq_refl eq_refl) as H.
      destruct (map_io _ names _) as [[a|e|] ?],
               (map_io _ names _) as [[a'|e'|] ?];
        simpl in H |- *; congruence.
    + pose proof (IH w1 w2 Hf Ht) as H.
      destruct (map_io _ names w1) as [[a|e|] ?],
               (map_io _ names w2) as [[a'|e'|] ?];
        simpl in H |- *; congruence.
  - pose proof (IH (logged [console_log_entry "File no longer exists:" n] w1)
                  (logged [console_log_entry "File no longer exists:" n] w2)
                  Hf Ht) as H.
    destruct (map_io _ names _) as [[a|e|] ?],
             (map_io _ names _) as [[a'|e'|] ?];
      simpl in H |- *; congruence.
Qed.

Lemma listAllPdfs_same (w1 w2 : World) :
  files w1 = files w2 -> ticks w1 = ticks w2 ->
  fst (listAllPdfs P w1) = fst (listAllPdfs P w2).
Proof.
  intros Hf Ht. unfold listAllPdfs, try_catch.
  destruct (documentDirectory P) as [docDir|]; [|reflexivity].
  unfold bind, readDirectoryAsync. rewrite <- Hf.
  pose proof (@map_io_pdf_items_same docDir
                (filter ends_with_pdf_ci (entry_names docDir (files w1)))
                w1 w2 Hf Ht) as H.
  destruct (map_io _ _ w1) as [[a|e|] ?], (map_io _ _ w2) as [[a'|e'|] ?];
    simpl in H |- *; congruence.
Qed.

End Listing.

(* ================================================================== *)
(** ** Runs of renamePdf that store the document *)
(* ================================================================== *)

Section Success.

Variable P : Platform.

Lemma name_chars_no_slash (s : jsstring) :
  Forall (fun c => file_name_char c = true) s ->
  existsb (char_eqb slash) s = false.
Proof.
  induction 1 as [|c t Hx _ IH]; [reflexivity|].
  cbn [existsb]. rewrite IH, orb_false_r.
  unfold char_eqb, slash. apply N.eqb_neq. intros <-. discriminate Hx.
Qed.

(** A name out of [sanitizeFileName] is a direct entry of the directory. *)
Lemma clean_name_entry (docDir final : jsstring) :
  clean_name final -> ends_with_pdf_ci final = true ->
  entry_name docDir (docDir ++ final) = Some final.
Proof.
  intros [Hc _] He. apply entry_name_complete.
  - intros ->. discriminate He.
  - now apply name_chars_no_slash.
Qed.

(** With a reliable copy, [renamePdf] on an existing source stores the
    document under the resolved name and returns its URI. *)
Lemma renamePdf_succeeds (docDir sourceUri newFileName : jsstring) (w : World)
  (f : File) :
  documentDirectory P = Some docDir ->
  lookup sourceUri (files w) = Some f ->
  copy_reliable P ->
  exists k final w1 mtime w',
    resolves P docDir w newFileName k final w1
    /\ (forall fuel, k < fuel ->
          renamePdf P fuel sourceUri newFileName w
          = (Returned (docDir ++ final), w'))
    /\ ticks w' = ticks w + k
    /\ let fs' := write (docDir ++ final) (mkFile (data f) mtime) (files w) in
       match delete_error P fs' sourceUri with
       | None =>
           files w' = remove sourceUri fs'
           /\ In (console_log_entry "Source file deleted" []) (console w')
       | Some message =>
           files w' = fs'
           /\ In (console_log_entry "Could not delete source file:" message)
                (console w')
       end.
Proof.
  intros Hdir Hsrc Hcopy.
  destruct (resolves_exists P docDir w newFileName)
    as (k & final & w1 & Hres & _).
  destruct (resolves_facts Hres) as (Hf & Ht & _).
  assert (Hsrc1 : lookup sourceUri (files w1) = Some f) by now rewrite Hf.
  pose proof (commit_cases P sourceUri (docDir ++ final) w1 Hsrc1) as Hc.
  destruct (Hcopy (files w1) sourceUri (docDir ++ final)) as (mtime & Em).
  rewrite Em in Hc. cbv zeta in Hc. rewrite Hf in Hc.
  exists k, final, w1, mtime.
  destruct (delete_error P (write (docDir ++ final) (mkFile (data f) mtime)
                              (files w)) sourceUri) as [message|] eqn:Ed.
  - eexists. split; [exact Hres|]. split; [|split].
    + intros fuel Hfuel.
      rewrite (@renamePdf_resolved P docDir sourceUri w newFileName k final w1);
        [| assumption | rewrite Hsrc; discriminate | assumption | assumption].
      rewrite Hc. apply iter_rethrow_Returned.
    + cbn [ticks]. exact Ht.
    + cbv zeta. rewrite Ed. cbn [files console]. split; [reflexivity|].
      apply in_or_app. right. simpl. auto.
  - eexists. split; [exact Hres|]. split; [|split].
    + intros fuel Hfuel.
      rewrite (@renamePdf_resolved P docDir sourceUri w newFileName k final w1);
        [| assumption | rewrite Hsrc; discriminate | assumption | assumption].
      rewrite Hc. apply iter_rethrow_Returned.
    + cbn [ticks]. exact Ht.
    + cbv zeta. rewrite Ed. cbn [files console]. split; [reflexivity|].
      apply in_or_app. right. simpl. auto.
Qed.

(** What a run that returns has done: the URI it returns is a clean name
    under the directory, was free in the world of the call and is taken in
    the world it leaves; the other files, the source apart, are as they
    were. *)
Lemma renamePdf_returned (fuel : nat) :
  forall sourceUri newFileName w target w',
    renamePdf P fuel sourceUri newFileName w = (Returned target, w') ->
    lookup target (files w) = None
    /\ lookup target (files w') <> None
    /\ lookup sourceUri (files w) <> None
    /\ (forall u, u <> target -> u <> sourceUri ->
                  lookup u (files w') = lookup u (files w))
    /\ exists docDir final,
         documentDirectory P = Some docDir /\ target = docDir ++ final
         /\ clean_name final /\ ends_with_pdf_ci final = true.
Proof.
  induction fuel as [|fuel IH]; intros sourceUri newFileName w target w' H.
  - discriminate H.
  - rewrite renamePdf_step in H. cbv zeta in H.
    destruct (documentDirectory P) as [docDir|] eqn:Hdir; [|discriminate H].
    destruct (lookup sourceUri (files w)) as [f|] eqn:Hsrc; [|discriminate H].
    destruct (lookup (docDir ++ sanitizeFileName newFileName) (files w))
      as [g|] eqn:Ht.
    + apply rethrow_Returned in H. apply IH in H. cbn [retry_world files] in H.
      destruct H as (H1 & H2 & _ & H4 & H5).
      split; [exact H1|]. split; [exact H2|]. split; [discriminate|].
      split; [exact H4 | exact H5].
    + assert (Hsrc0 : lookup sourceUri
                        (files (logged [console_log_entry "Renaming PDF to:"
                                          (sanitizeFileName newFileName)] w))
                      = Some f) by exact Hsrc.
      pose proof (commit_cases P sourceUri
                    (docDir ++ sanitizeFileName newFileName) _ Hsrc0) as Hc.
      cbn [logged files] in Hc.
      assert (Hne : docDir ++ sanitizeFileName newFileName <> sourceUri)
        by (intros E; rewrite E in Ht; congruence).
      destruct (copy_outcome P (files w) sourceUri
                  (docDir ++ sanitizeFileName newFileName))
        as [mtime|message leftover].
      * cbv zeta in Hc.
        assert (Hfiles :
                  lookup target (files w) = None
                  /\ target = docDir ++ sanitizeFileName newFileName
                  /\ (files w'
                      = remove sourceUri
                          (write target (mkFile (data f) mtime) (files w))
                      \/ files w'
                         = write target (mkFile (data f) mtime) (files w))).
        { destruct (delete_error P _ sourceUri); rewrite Hc in H;
            injection H as <- <-; cbn [files]; auto. }
        destruct Hfiles as (Hfree & -> & Hfiles).
        split; [exact Hfree|]. split; [|split; [congruence|split]].
        -- destruct Hfiles as [-> | ->].
           ++ rewrite lookup_remove_other by congruence.
              rewrite lookup_write_same. discriminate.
           ++ rewrite lookup_write_same. discriminate.
        -- intros u Hu Hus. destruct Hfiles as [-> | ->].
           ++ rewrite lookup_remove_other by congruence.
              apply lookup_write_other. congruence.
           ++ apply lookup_write_other. congruence.
        -- exists docDir, (sanitizeFileName newFileName).
           repeat split; try apply sanitizeFileName_clean.
           apply sanitizeFileName_ext.
      * rewrite Hc in H. discriminate H.
Qed.

(** A stored clean name shows in the listing. *)
Lemma listed (docDir final : jsstring) (w : World) (items : list PdfItem)
  (w' : World) :
  documentDirectory P = Some docDir ->
  clean_name final -> ends_with_pdf_ci final = true ->
  lookup (docDir ++ final) (files w) <> None ->
  listAllPdfs P w = (Returned items, w') ->
  In (docDir ++ final) (map uri items).
Proof.
  intros Hdir Hc He Hs Hl.
  destruct (@listAllPdfs_result P docDir w Hdir)
    as (items0 & w0 & E & Hnames & Hdesc & _).
  rewrite E in Hl. injection Hl as <- <-.
  assert (Hin : In final (map name items0)).
  { rewrite Hnames. apply filter_In. split; [|exact He].
    eapply entry_names_in; [exact Hs|]. now apply clean_name_entry. }
  apply in_map_iff in Hin. destruct Hin as (item & Hn & Hitem).
  apply in_map_iff. exists item. split.
  - rewrite Forall_forall in Hdesc. destruct (Hdesc _ Hitem) as [Hu _].
    now rewrite Hu, Hn.
  - eapply Permutation_in; [apply Permutation_sym, Array_sort_perm | exact Hitem].
Qed.

End Success.

(* ================================================================== *)
(** ** The run of renamePdf at a target where the copy works *)
(* ================================================================== *)

Section Run.

Variable P : Platform.

(** The name resolution writes with [console.log] only. *)
Lemma resolves_console docDir w newFileName k final w' :
  resolves P docDir w newFileName k final w' ->
  exists entries,
    console w' = console w ++ entries
    /\ Forall (fun entry => is_error entry = false) entries.
Proof.
  induction 1 as [w n Hfree | w n k final w' Hbusy _ (entries & E & F)].
  - eexists. split; [reflexivity|]. repeat constructor.
  - cbn [retry_world console] in E. rewrite <- app_assoc in E.
    eexists. split; [exact E|]. repeat constructor. exact F.
Qed.

(** When the name asked for is free, it is the name resolved, at once. *)
Lemma resolves_free_name docDir w newFileName k final w' :
  resolves P docDir w newFileName k final w' ->
  lookup (docDir ++ sanitizeFileName newFileName) (files w) = None ->
  k = 0 /\ final = sanitizeFileName newFileName.
Proof.
  intros H Hfree. destruct H as [w n _ | w n k final w' Hbusy _].
  - now split.
  - contradiction.
Qed.

Lemma errors_app_logs (before entries : list ConsoleEntry) :
  Forall (fun entry => is_error entry = false) entries ->
  filter is_error (before ++ entries) = filter is_error before.
Proof.
  intros F. rewrite filter_app.
  replace (filter is_error entries) with (@nil ConsoleEntry);
    [apply app_nil_r|].
  induction F as [|e t He _ IH]; [reflexivity|].
  simpl. now rewrite He.
Qed.

(** The run along a given resolution, when the copy to the resolved target
    works: the world it leaves, in full. *)
Lemma renamePdf_run (docDir sourceUri newFileName : jsstring) (w : World)
  (f : File) (k : nat) (final : jsstring) (w1 : World) (mtime : Z) :
  documentDirectory P = Some docDir ->
  lookup sourceUri (files w) = Some f ->
  resolves P docDir w newFileName k final w1 ->
  copy_outcome P (files w) sourceUri (docDir ++ final) = CopySucceeds mtime ->
  forall fuel, k < fuel ->
    renamePdf P fuel sourceUri newFileName w
    = (Returned (docDir ++ final),
       let fs' := write (docDir ++ final) (mkFile (data f) mtime) (files w) in
       match delete_error P fs' sourceUri with
       | None =>
           mkWorld (remove sourceUri fs') (ticks w1)
             (console w1
              ++ [console_log_entry "PDF renamed/moved to:" (docDir ++ final);
                  console_log_entry "Source file deleted" []])
       | Some message =>
           mkWorld fs' (ticks w1)
             (console w1
              ++ [console_log_entry "PDF renamed/moved to:" (docDir ++ final);
                  console_log_entry "Could not delete source file:" message])
       end).
Proof.
  intros Hdir Hsrc Hres Hcopy fuel Hfuel.
  destruct (resolves_facts Hres) as (Hf & _).
  assert (Hsrc1 : lookup sourceUri (files w1) = Some f) by now rewrite Hf.
  pose proof (commit_cases P sourceUri (docDir ++ final) w1 Hsrc1) as Hc.
  rewrite Hf, Hcopy in Hc. cbv zeta in Hc. cbv zeta.
  rewrite (@renamePdf_resolved P docDir sourceUri w newFileName k final w1);
    [| assumption | rewrite Hsrc; discriminate | assumption | assumption].
  destruct (delete_error P (write (docDir ++ final) (mkFile (data f) mtime)
                              (files w)) sourceUri) as [message|];
    rewrite Hc; apply iter_rethrow_Returned.
Qed.

End Run.

(* ================================================================== *)
(** ** The store: commit *)
(* ================================================================== *)

(** C5.  When the source does not exist at the start of [renamePdf], the
    call rejects; when the document directory is known, the rejection is
    the "Source PDF file not found" error in the wrapping of the [catch]
    block.  No file is created or changed, and [listAllPdfs] returns what it
    returned before. *)
Theorem renamePdf_source_not_found
  (P : Platform) (fuel : nat) (sourceUri newFileName : jsstring) (w : World) :
  lookup sourceUri (files w) = None ->
  exists message w',
    renamePdf P (S fuel) sourceUri newFileName w = (Thrown message, w')
    /\ (documentDirectory P <> None ->
        message = lit "Failed to rename PDF: Source PDF file not found")
    /\ files w' = files w
    /\ fst (listAllPdfs P w') = fst (listAllPdfs P w).
Proof.
  intros Hsrc.
  destruct (@renamePdf_no_source P fuel sourceUri newFileName w Hsrc)
    as (message & E & Hm).
  eexists. eexists. split; [exact E|]. split; [|split].
  - intros Hdir. now rewrite (Hm Hdir).
  - reflexivity.
  - apply listAllPdfs_same; reflexivity.
Qed.

(** A commit from a path that holds nothing. *)
Lemma renamePdf_source_not_found_witness :
  let gone := lit "file:///cache/gone.pdf" in
  lookup gone (files cache_world) = None
  /\ exists message w',
       renamePdf sound_platform 1 gone (lit "Invoice") cache_world
       = (Thrown message, w')
       /\ (documentDirectory sound_platform <> None ->
           message = lit "Failed to rename PDF: Source PDF file not found")
       /\ files w' = files cache_world
       /\ fst (listAllPdfs sound_platform w')
          = fst (listAllPdfs sound_platform cache_world).
Proof.
  cbv zeta. split; [reflexivity|].
  apply (@renamePdf_source_not_found sound_platform 0
           (lit "file:///cache/gone.pdf") (lit "Invoice") cache_world).
  reflexivity.
Defined.

(** C8.  Every run of [renamePdf] ends, for every store and every clock:
    after [k] retries it returns or rejects, [k] being at most one more than
    the length of the longest URI in use, and it has read the clock [k]
    times.  A call that finds its target taken reads the clock once, at its
    own turn, and goes on with the name made from that reading, in a world
    where the next reading is a new one. *)
Theorem renamePdf_terminates
  (P : Platform) (sourceUri newFileName : jsstring) (w : World) :
  (exists k r w',
      (forall fuel, k < fuel ->
                    renamePdf P fuel sourceUri newFileName w = (r, w'))
      /\ r <> OutOfFuel
      /\ ticks w' = ticks w + k
      /\ k <= S (longest (files w)))
  /\ (forall fuel docDir,
         documentDirectory P = Some docDir ->
         stored sourceUri w ->
         stored (docDir ++ sanitizeFileName newFileName) w ->
         renamePdf P (S fuel) sourceUri newFileName w
         = rethrow
             (renamePdf P fuel sourceUri
                (unique_name (sanitizeFileName newFileName)
                   (clock P (ticks w)))
                (retry_world P (sanitizeFileName newFileName) w))
         /\ ticks (retry_world P (sanitizeFileName newFileName) w)
            = S (ticks w)).
Proof.
  split; [apply renamePdf_ends|].
  intros fuel docDir Hdir Hsrc Htarget. split; [|reflexivity].
  unfold stored in *. rewrite renamePdf_step. cbv zeta. rewrite Hdir.
  destruct (lookup sourceUri (files w)); [|congruence].
  destruct (lookup (docDir ++ sanitizeFileName newFileName) (files w));
    [reflexivity | congruence].
Qed.

(** With a clock that does not advance and [Invoice.pdf] and
    [Invoice_5.pdf] taken, the commit of [Invoice] retries twice and stores
    [Invoice_5_5.pdf]. *)
Lemma renamePdf_terminates_witness :
  stored print1 busy_world
  /\ stored (docs ++ sanitizeFileName (lit "Invoice")) busy_world
  /\ renamePdf stuck_clock_platform 3 print1 (lit "Invoice") busy_world
     = rethrow
         (renamePdf stuck_clock_platform 2 print1 (lit "Invoice_5.pdf")
            (retry_world stuck_clock_platform (lit "Invoice.pdf") busy_world))
  /\ fst (renamePdf stuck_clock_platform 3 print1 (lit "Invoice") busy_world)
     = Returned (docs ++ lit "Invoice_5_5.pdf").
Proof.
  assert (H1 : stored print1 busy_world) by (vm_compute; discriminate).
  assert (H2 : stored (docs ++ sanitizeFileName (lit "Invoice")) busy_world)
    by (vm_compute; discriminate).
  split; [exact H1|]. split; [exact H2|]. split.
  - exact (proj1 (proj2 (renamePdf_terminates stuck_clock_platform print1
                           (lit "Invoice") busy_world)
                    2 docs eq_refl H1 H2)).
  - vm_compute. reflexivity.
Defined.

(** C9.  When the copy works and the source cannot be deleted, whatever the
    retries before, [renamePdf] returns: the failure of the deletion is a
    [console.log] line, the last one, and nothing is written with
    [console.error].  The URI returned is a clean name under the document
    directory, another URI than the source, free in the store of the call;
    it is the name asked for, cleaned, when that one is free.
    The store it leaves is the store of the call with that one file written:
    the bytes of the source with the modification time the copy gave.  So
    the document is in place and listed, and the source is still there. *)
Theorem renamePdf_swallows_cleanup_failure
  (P : Platform) (docDir sourceUri newFileName : jsstring) (w : World)
  (f : File) (message : jsstring) :
  documentDirectory P = Some docDir ->
  lookup sourceUri (files w) = Some f ->
  copy_reliable P ->
  (forall fs, delete_error P fs sourceUri = Some message) ->
  exists k final mtime w',
    (forall fuel, k < fuel ->
                  renamePdf P fuel sourceUri newFileName w
                  = (Returned (docDir ++ final), w'))
    /\ clean_name final /\ ends_with_pdf_ci final = true
    /\ docDir ++ final <> sourceUri
    /\ lookup (docDir ++ final) (files w) = None
    /\ (lookup (docDir ++ sanitizeFileName newFileName) (files w) = None ->
        k = 0 /\ final = sanitizeFileName newFileName)
    /\ ticks w' = ticks w + k
    /\ copy_outcome P (files w) sourceUri (docDir ++ final)
       = CopySucceeds mtime
    /\ files w' = write (docDir ++ final) (mkFile (data f) mtime) (files w)
    /\ lookup (docDir ++ final) (files w') = Some (mkFile (data f) mtime)
    /\ lookup sourceUri (files w') = Some f
    /\ (exists before,
           console w'
           = before
             ++ [console_log_entry "PDF renamed/moved to:" (docDir ++ final);
                 console_log_entry "Could not delete source file:" message])
    /\ errors w' = errors w
    /\ exists items w'',
         listAllPdfs P w' = (Returned items, w'')
         /\ In (docDir ++ final) (map uri items).
Proof.
  intros Hdir Hsrc Hcopy Hdel.
  destruct (resolves_exists P docDir w newFileName)
    as (k & final & w1 & Hres & _).
  destruct (resolves_facts Hres) as (_ & Hticks & Hfree & Hclean & Hext).
  destruct (Hcopy (files w) sourceUri (docDir ++ final)) as (mtime & Em).
  pose proof (@renamePdf_run P docDir sourceUri newFileName w f k final w1
                mtime Hdir Hsrc Hres Em) as Hrun.
  cbv zeta in Hrun. rewrite Hdel in Hrun.
  destruct (resolves_console Hres) as (entries & Econsole & Hlogs).
  assert (Hne : docDir ++ final <> sourceUri)
    by (intros E; rewrite E in Hfree; congruence).
  exists k, final, mtime. eexists.
  split; [exact Hrun|]. cbn [files console ticks].
  split; [exact Hclean|]. split; [exact Hext|]. split; [exact Hne|].
  split; [exact Hfree|]. split; [exact (resolves_free_name Hres)|].
  split; [exact Hticks|].
  split; [exact Em|]. split; [reflexivity|].
  split; [apply lookup_write_same|].
  split; [rewrite lookup_write_other; [exact Hsrc | exact Hne]|].
  split; [now exists (console w1)|]. split.
  - unfold errors. cbn [console]. rewrite Econsole, !errors_app_logs.
    + reflexivity.
    + exact Hlogs.
    + repeat constructor.
  - match goal with
    | |- exists items w'', listAllPdfs P ?v = _ /\ _ =>
        destruct (@listAllPdfs_result P docDir v Hdir)
          as (items & w'' & El & _);
        exists (Array_sort by_newest items), w''; split; [exact El|];
        apply (@listed P docDir final v _ w'' Hdir Hclean Hext);
          [|exact El]
    end.
    cbn [files]. rewrite lookup_write_same. discriminate.
Qed.

(** The commit of [Invoice] when the cache cannot be cleaned. *)
Lemma renamePdf_swallows_cleanup_failure_witness :
  let f := mkFile [37; 80; 68; 70]%N 1700000000 in
  let message := lit "Permission denied" in
  documentDirectory locked_cache_platform = Some docs
  /\ lookup print1 (files cache_world) = Some f
  /\ copy_reliable locked_cache_platform
  /\ (forall fs, delete_error locked_cache_platform fs print1 = Some message)
  /\ exists k final mtime w',
       (forall fuel, k < fuel ->
                     renamePdf locked_cache_platform fuel print1 (lit "Invoice")
                       cache_world
                     = (Returned (docs ++ final), w'))
       /\ clean_name final /\ ends_with_pdf_ci final = true
       /\ docs ++ final <> print1
       /\ lookup (docs ++ final) (files cache_world) = None
       /\ (lookup (docs ++ sanitizeFileName (lit "Invoice"))
             (files cache_world) = None ->
           k = 0 /\ final = sanitizeFileName (lit "Invoice"))
       /\ ticks w' = ticks cache_world + k
       /\ copy_outcome locked_cache_platform (files cache_world) print1
            (docs ++ final)
          = CopySucceeds mtime
       /\ files w'
          = write (docs ++ final) (mkFile (data f) mtime) (files cache_world)
       /\ lookup (docs ++ final) (files w') = Some (mkFile (data f) mtime)
       /\ lookup print1 (files w') = Some f
       /\ (exists before,
              console w'
              = before
                ++ [console_log_entry "PDF renamed/moved to:" (docs ++ final);
                    console_log_entry "Could not delete source file:" message])
       /\ errors w' = errors cache_world
       /\ exists items w'',
            listAllPdfs locked_cache_platform w' = (Returned items, w'')
            /\ In (docs ++ final) (map uri items).
Proof.
  intros f message.
  assert (Hc : copy_reliable locked_cache_platform)
    by (intros fs from to; exists 1700000002%Z; reflexivity).
  split; [reflexivity|]. split; [reflexivity|]. split; [exact Hc|].
  split; [reflexivity|].
  exact (@renamePdf_swallows_cleanup_failure locked_cache_platform docs print1
           (lit "Invoice") cache_world f message eq_refl eq_refl Hc
           (fun _ => eq_refl)).
Defined.

(** The same commit, run: [Invoice.pdf] is stored beside the print that
    could not be deleted, and the call returns its URI. *)
Example renamePdf_locked_cache_run :
  exists w',
    renamePdf locked_cache_platform 1 print1 (lit "Invoice") cache_world
    = (Returned (docs ++ lit "Invoice.pdf"), w')
    /\ map fst (files w') = [print1; print2; docs ++ lit "Invoice.pdf"]
    /\ errors w' = [].
Proof. eexists. split; [vm_compute; reflexivity|]. split; reflexivity. Qed.




(** C1.  The URI [renamePdf] returns is a clean name under the document
    directory that named no file in the world in which the call, and so its
    check, took place, and that names the stored document afterwards.  Two
    commits in sequence of two different existing sources under the same
    name, with a copy that works, return two different URIs; both documents
    are in the store after the second commit and both are in the listing. *)
Theorem renamePdf_never_overwrites (P : Platform) :
  (forall fuel sourceUri newFileName w target w',
      renamePdf P fuel sourceUri newFileName w = (Returned target, w') ->
      ~ stored target w /\ stored target w'
      /\ exists docDir final,
           documentDirectory P = Some docDir /\ target = docDir ++ final
           /\ clean_name final /\ ends_with_pdf_ci final = true)
  /\ (forall docDir source1 source2 newFileName w,
         documentDirectory P = Some docDir ->
         copy_reliable P ->
         stored source1 w -> stored source2 w -> source1 <> source2 ->
         exists fuel target1 w1 target2 w2 items w3,
           renamePdf P fuel source1 newFileName w = (Returned target1, w1)
           /\ renamePdf P fuel source2 newFileName w1 = (Returned target2, w2)
           /\ target1 <> target2
           /\ stored target1 w2 /\ stored target2 w2
           /\ listAllPdfs P w2 = (Returned items, w3)
           /\ In target1 (map uri items) /\ In target2 (map uri items)).
Proof.
  split.
  - intros fuel sourceUri newFileName w target w' H.
    destruct (renamePdf_returned P fuel _ _ _ H) as (Hfree & Hstored & _ & _ & Hname).
    unfold stored. split; [congruence|]. split; assumption.
  - unfold stored. intros docDir source1 source2 newFileName w Hdir Hcopy Hs1 Hs2 Hne.
    destruct (lookup source1 (files w)) as [f1|] eqn:E1; [|congruence].
    destruct (lookup source2 (files w)) as [f2|] eqn:E2; [|congruence].
    destruct (@renamePdf_succeeds P docDir source1 newFileName w f1 Hdir E1 Hcopy)
      as (k1 & final1 & v1 & m1 & w1 & _ & Hrun1 & _).
    pose proof (Hrun1 (S (Nat.max k1 0)) ltac:(lia)) as R1.
    destruct (renamePdf_returned P _ _ _ _ R1)
      as (Hfree1 & Hstored1 & _ & Hkeep1 & (d1 & n1 & Hd1 & Ht1 & Hc1 & He1)).
    assert (E2' : lookup source2 (files w1) = Some f2).
    { rewrite Hkeep1; [exact E2 | | congruence].
      intros E. rewrite E in E2. congruence. }
    destruct (@renamePdf_succeeds P docDir source2 newFileName w1 f2 Hdir E2' Hcopy)
      as (k2 & final2 & v2 & m2 & w2 & _ & Hrun2 & _).
    pose proof (Hrun2 (S k2) ltac:(lia)) as R2.
    destruct (renamePdf_returned P _ _ _ _ R2)
      as (Hfree2 & Hstored2 & _ & Hkeep2 & (d2 & n2 & Hd2 & Ht2 & Hc2 & He2)).
    assert (Hdiff : docDir ++ final1 <> docDir ++ final2).
    { intros E. rewrite E in Hstored1. congruence. }
    assert (Hstill : lookup (docDir ++ final1) (files w2) <> None).
    { rewrite Hkeep2; [exact Hstored1 | exact Hdiff |].
      intros E. rewrite E in Hfree1. congruence. }
    destruct (@listAllPdfs_result P docDir w2 Hdir)
      as (items0 & w3 & El & _).
    assert (Hn1 : docDir ++ final1 = docDir ++ n1 /\ docDir ++ final2 = docDir ++ n2).
    { rewrite Hdir in Hd1, Hd2. injection Hd1 as <-. injection Hd2 as <-.
      split; assumption. }
    destruct Hn1 as [Hn1 Hn2].
    exists (S (Nat.max k1 k2)), (docDir ++ final1), w1, (docDir ++ final2), w2,
      (Array_sort by_newest items0), w3.
    split; [apply Hrun1; lia|]. split; [apply Hrun2; lia|].
    split; [exact Hdiff|]. split; [exact Hstill|]. split; [exact Hstored2|].
    split; [exact El|]. split.
    + rewrite Hn1. eapply listed; eauto. now rewrite <- Hn1.
    + rewrite Hn2. eapply listed; eauto. now rewrite <- Hn2.
Qed.

(** Two commits of [Invoice] from the cache. *)
Lemma renamePdf_never_overwrites_witness :
  documentDirectory sound_platform = Some docs
  /\ copy_reliable sound_platform
  /\ stored print1 cache_world /\ stored print2 cache_world
  /\ print1 <> print2
  /\ exists fuel target1 w1 target2 w2 items w3,
       renamePdf sound_platform fuel print1 (lit "Invoice") cache_world
       = (Returned target1, w1)
       /\ renamePdf sound_platform fuel print2 (lit "Invoice") w1
          = (Returned target2, w2)
       /\ target1 <> target2
       /\ stored target1 w2 /\ stored target2 w2
       /\ listAllPdfs sound_platform w2 = (Returned items, w3)
       /\ In target1 (map uri items) /\ In target2 (map uri items).
Proof.
  assert (Hc : copy_reliable sound_platform)
    by (intros fs from to; exists 1700000002%Z; reflexivity).
  assert (H1 : stored print1 cache_world) by (vm_compute; discriminate).
  assert (H2 : stored print2 cache_world) by (vm_compute; discriminate).
  assert (Hne : print1 <> print2) by (vm_compute; discriminate).
  split; [reflexivity|]. split; [exact Hc|]. split; [exact H1|].
  split; [exact H2|]. split; [exact Hne|].
  exact (proj2 (renamePdf_never_overwrites sound_platform) docs print1 print2
           (lit "Invoice") cache_world eq_refl Hc H1 H2 Hne).
Defined.

(** The two commits, run: the second document gets the reading of the clock
    in its name, and the listing, newest first, shows both. *)
Example two_commits_of_Invoice :
  let '(r1, w1) := renamePdf sound_platform 2 print1 (lit "Invoice") cache_world in
  let '(r2, w2) := renamePdf sound_platform 2 print2 (lit "Invoice") w1 in
  r1 = Returned (docs ++ lit "Invoice.pdf")
  /\ r2 = Returned (docs ++ lit "Invoice_1700000000000.pdf")
  /\ map fst (files w2)
     = [docs ++ lit "Invoice.pdf"; docs ++ lit "Invoice_1700000000000.pdf"].
Proof. vm_compute. repeat split. Qed.

(* ================================================================== *)
(** ** The store: listing and deletion *)
(* ================================================================== *)

Section ListingOrder.

Lemma perm3 {A} (a b c : A) (l : list A) :
  Permutation [a; b; c] l ->
  l = [a; b; c] \/ l = [a; c; b] \/ l = [b; a; c] \/ l = [b; c; a]
  \/ l = [c; a; b] \/ l = [c; b; a].
Proof.
  intros H. pose proof (Permutation_length H) as L.
  destruct l as [|x [|y [|z [|? ?]]]]; try discriminate L.
  assert (Hx : In x [a; b; c])
    by (eapply Permutation_in; [apply Permutation_sym, H | now left]).
  destruct Hx as [<- | [<- | [<- | []]]].
  - apply Permutation_cons_inv, Permutation_length_2_inv in H.
    destruct H as [E | E]; injection E as <- <-; auto.
  - assert (H' : Permutation [b; a; c] [b; y; z])
      by (eapply perm_trans; [apply perm_swap | exact H]).
    apply Permutation_cons_inv, Permutation_length_2_inv in H'.
    destruct H' as [E | E]; injection E as <- <-; auto 6.
  - assert (H' : Permutation [c; a; b] [c; y; z])
      by (eapply perm_trans;
          [apply (Permutation_cons_append [a; b] c) | exact H]).
    apply Permutation_cons_inv, Permutation_length_2_inv in H'.
    destruct H' as [E | E]; injection E as <- <-; auto 7.
Qed.

Lemma map_filter_agree {A B} (f : A -> B) (p : A -> bool) (q : B -> bool)
  (l : list A) :
  Forall (fun x => p x = q (f x)) l ->
  map f (filter p l) = filter q (map f l).
Proof.
  induction 1 as [|x t Hx _ IH]; [reflexivity|].
  simpl. rewrite <- Hx. destruct (p x); simpl; now rewrite IH.
Qed.

Lemma describes_mtime (docDir : jsstring) (fs : Files) (item : PdfItem) :
  describes docDir fs item ->
  modificationTime item = mtime_of docDir fs (name item).
Proof.
  intros (Hu & f & Hl & Hm & _). unfold mtime_of.
  now rewrite <- Hu, Hl.
Qed.

End ListingOrder.

(** C3, as stated, fails on a tie: the two documents have the same
    modification time, the platform enumerates [b.pdf] before [a.pdf], and
    the listing keeps that order although [a.pdf] is the smaller name. *)
Lemma listAllPdfs_tie_in_enumeration_order :
  exists items w',
    listAllPdfs sound_platform tie_world = (Returned items, w')
    /\ map name items = [lit "b.pdf"; lit "a.pdf"]
    /\ map modificationTime items = [1600000000; 1600000000]%Z
    /\ lex_ltb (lit "a.pdf") (lit "b.pdf") = true.
Proof.
  eexists. eexists. split; [vm_compute; reflexivity|].
  repeat split.
Qed.

(** C3, amended.  [listAllPdfs] returns the PDF entries of the document
    directory, each with the size and the modification time of its file,
    sorted by modification time, newest first.  Entries with the same
    modification time stay in the order in which the platform enumerates the
    directory; their names play no part.  Three documents of modification
    times [t1 < t2 < t3] are listed third, second, first. *)
Theorem listAllPdfs_newest_first
  (P : Platform) (docDir : jsstring) (w : World) :
  documentDirectory P = Some docDir ->
  exists items w',
    listAllPdfs P w = (Returned items, w')
    /\ files w' = files w
    /\ Permutation (map name items) (pdf_names docDir (files w))
    /\ Forall (describes docDir (files w)) items
    /\ StronglySorted newest_first items
    /\ (forall t,
           map name (modified_at t items)
           = filter (fun n => Z.eqb (mtime_of docDir (files w) n) t)
               (pdf_names docDir (files w)))
    /\ (forall n1 n2 n3,
           Permutation [n1; n2; n3] (pdf_names docDir (files w)) ->
           (mtime_of docDir (files w) n1 < mtime_of docDir (files w) n2
            < mtime_of docDir (files w) n3)%Z ->
           map name items = [n3; n2; n1]).
Proof.
  intros Hdir.
  destruct (@listAllPdfs_result P docDir w Hdir)
    as (items0 & w' & E & Hnames & Hdesc & Hfiles).
  set (items := Array_sort by_newest items0) in *.
  assert (Hperm : Permutation items items0) by apply Array_sort_perm.
  assert (Hpn : Permutation (map name items) (pdf_names docDir (files w)))
    by (rewrite <- Hnames; now apply Permutation_map).
  assert (Hd : Forall (describes docDir (files w)) items)
    by (eapply Permutation_Forall; [apply Permutation_sym, Hperm | exact Hdesc]).
  assert (Hs : StronglySorted newest_first items) by apply listing_sorted.
  exists items, w'. repeat (split; [assumption|]). split.
  - intros t. unfold items. rewrite listing_stable, <- Hnames.
    apply map_filter_agree.
    eapply Forall_impl; [|exact Hdesc].
    intros item Hi. now rewrite (describes_mtime Hi).
  - intros n1 n2 n3 H3 Ht.
    assert (H3' : Permutation [n1; n2; n3] (map name items))
      by (eapply perm_trans; [exact H3 | apply Permutation_sym, Hpn]).
    apply perm3 in H3'.
    assert (Hm : forall a b c,
               items = [a; b; c] ->
               (mtime_of docDir (files w) (name c)
                <= mtime_of docDir (files w) (name b)
                <= mtime_of docDir (files w) (name a))%Z).
    { intros a b c Ei. rewrite Ei in Hs, Hd.
      inversion Hd as [|? ? Da Hd']; subst.
      inversion Hd' as [|? ? Db Hd'']; subst.
      inversion Hd'' as [|? ? Dc _]; subst.
      rewrite <- (describes_mtime Da), <- (describes_mtime Db),
        <- (describes_mtime Dc).
      inversion Hs as [|? ? Hs' Fa]; subst.
      inversion Hs' as [|? ? _ Fb]; subst.
      inversion Fa as [|? ? Hab _]; subst.
      inversion Fb as [|? ? Hbc _]; subst.
      unfold newest_first in *. lia. }
    destruct items as [|a [|b [|c [|? ?]]]];
      try (exfalso; repeat destruct H3' as [H3'|H3']; discriminate H3').
    specialize (Hm a b c eq_refl). cbn [map] in *.
    repeat destruct H3' as [H3'|H3'];
      injection H3' as Ea Eb Ec; subst n1 n2 n3;
      try reflexivity; exfalso; lia.
Qed.

(** The listing of the store with the three documents of different ages. *)
Lemma listAllPdfs_newest_first_witness :
  documentDirectory sound_platform = Some docs
  /\ exists items w',
       listAllPdfs sound_platform aged_world = (Returned items, w')
       /\ files w' = files aged_world
       /\ Permutation (map name items) (pdf_names docs (files aged_world))
       /\ Forall (describes docs (files aged_world)) items
       /\ StronglySorted newest_first items
       /\ (forall t,
              map name (modified_at t items)
              = filter (fun n => Z.eqb (mtime_of docs (files aged_world) n) t)
                  (pdf_names docs (files aged_world)))
       /\ (forall n1 n2 n3,
              Permutation [n1; n2; n3] (pdf_names docs (files aged_world)) ->
              (mtime_of docs (files aged_world) n1
               < mtime_of docs (files aged_world) n2
               < mtime_of docs (files aged_world) n3)%Z ->
              map name items = [n3; n2; n1]).
Proof.
  split; [reflexivity|].
  exact (@listAllPdfs_newest_first sound_platform docs aged_world eq_refl).
Defined.

(** The same listing, run. *)
Example listing_of_aged_world :
  exists items w',
    listAllPdfs sound_platform aged_world = (Returned items, w')
    /\ map name items = [lit "third.pdf"; lit "second.pdf"; lit "first.pdf"]
    /\ map modificationTime items = [30; 20; 10]%Z.
Proof. eexists. eexists. split; [vm_compute; reflexivity|]. split; reflexivity. Qed.

(** C6.  [deletePdfFile] on a file that exists, when the platform carries
    out the deletion, removes that file, leaves the others, and returns
    [true]; on a URI that names no file it returns [false], rejects nothing
    and changes no file.  So a second deletion of the same document returns
    [false]. *)
Theorem deletePdfFile_idempotent (P : Platform) (pdfUri : jsstring) (w : World) :
  (stored pdfUri w -> delete_error P (files w) pdfUri = None ->
   exists w',
     deletePdfFile P pdfUri w = (Returned true, w')
     /\ ~ stored pdfUri w'
     /\ files w' = remove pdfUri (files w)
     /\ (forall u, u <> pdfUri -> lookup u (files w') = lookup u (files w))
     /\ exists w'',
          deletePdfFile P pdfUri w' = (Returned false, w'')
          /\ files w'' = files w')
  /\ (~ stored pdfUri w ->
      exists w',
        deletePdfFile P pdfUri w = (Returned false, w')
        /\ files w' = files w).
Proof.
  assert (Hgone : forall v, ~ stored pdfUri v ->
            exists v', deletePdfFile P pdfUri v = (Returned false, v')
                       /\ files v' = files v).
  { unfold stored. intros v Hv.
    cbv beta iota zeta delta
      [deletePdfFile try_catch bind getInfoAsync console_log ret].
    destruct (lookup pdfUri (files v));
      [exfalso; apply Hv; discriminate|].
    cbn [file_exists]. eexists. split; reflexivity. }
  split; [|apply Hgone].
  unfold stored. intros Hs Hd.
  assert (Hdo : deletePdfFile P pdfUri w
                = (Returned true,
                   mkWorld (remove pdfUri (files w)) (ticks w)
                     (console w
                      ++ [console_log_entry "PDF deleted successfully:" pdfUri]))).
  { cbv beta iota zeta delta
      [deletePdfFile try_catch bind getInfoAsync deleteAsync console_log ret
       set_files].
    destruct (lookup pdfUri (files w)) eqn:E; [|congruence].
    cbn [file_exists]. now rewrite Hd. }
  rewrite Hdo. eexists. split; [reflexivity|]. cbn [files].
  assert (Hrm : ~ lookup pdfUri (remove pdfUri (files w)) <> None)
    by (rewrite lookup_remove_same; congruence).
  split; [exact Hrm|]. split; [reflexivity|]. split.
  - intros u Hu. apply lookup_remove_other. congruence.
  - apply (Hgone (mkWorld (remove pdfUri (files w)) (ticks w)
                    (console w
                     ++ [console_log_entry "PDF deleted successfully:" pdfUri]))).
    exact Hrm.
Qed.

(** Deleting a cached file, and deleting what was never created. *)
Lemma deletePdfFile_idempotent_witness :
  let never := lit "file:///data/docs/never.pdf" in
  stored print1 cache_world
  /\ delete_error sound_platform (files cache_world) print1 = None
  /\ ~ stored never cache_world
  /\ (exists w',
        deletePdfFile sound_platform print1 cache_world = (Returned true, w')
        /\ ~ stored print1 w'
        /\ files w' = remove print1 (files cache_world)
        /\ (forall u, u <> print1 ->
                      lookup u (files w') = lookup u (files cache_world))
        /\ exists w'',
             deletePdfFile sound_platform print1 w' = (Returned false, w'')
             /\ files w'' = files w')
  /\ (exists w',
        deletePdfFile sound_platform never cache_world = (Returned false, w')
        /\ files w' = files cache_world).
Proof.
  intros never.
  assert (H1 : stored print1 cache_world) by (vm_compute; discriminate).
  assert (H2 : ~ stored never cache_world) by (vm_compute; tauto).
  split; [exact H1|]. split; [reflexivity|]. split; [exact H2|]. split.
  - exact (proj1 (deletePdfFile_idempotent sound_platform print1 cache_world)
             H1 eq_refl).
  - exact (proj2 (deletePdfFile_idempotent sound_platform never cache_world) H2).
Defined.

(* ================================================================== *)
(** ** More on the two sanitizers *)
(* ================================================================== *)

Section NameFacts.

Lemma dropWhile_Forall (Q : char -> Prop) (p : char -> bool) (s : jsstring) :
  Forall Q s -> Forall Q (dropWhile p s).
Proof.
  induction 1 as [|c t Hc Ht IH]; simpl; [constructor|].
  destruct (p c); [exact IH | now constructor].
Qed.

Lemma dropWhileEnd_Forall (Q : char -> Prop) (p : char -> bool) (s : jsstring) :
  Forall Q s -> Forall Q (dropWhileEnd p s).
Proof.
  intros H. unfold dropWhileEnd. apply Forall_rev, dropWhile_Forall, Forall_rev, H.
Qed.

Lemma trim_Forall (Q : char -> Prop) (s : jsstring) :
  Forall Q s -> Forall Q (trim s).
Proof. intros H. now apply dropWhileEnd_Forall, dropWhile_Forall. Qed.

Lemma strip_dots_Forall (Q : char -> Prop) (s : jsstring) :
  Forall Q s -> Forall Q (strip_dots s).
Proof. intros H. now apply dropWhileEnd_Forall, dropWhile_Forall. Qed.

Lemma dropWhileEnd_length (p : char -> bool) (s : jsstring) :
  length (dropWhileEnd p s) <= length s.
Proof.
  unfold dropWhileEnd. rewrite length_rev.
  pose proof (dropWhile_length p (rev s)) as H. now rewrite length_rev in H.
Qed.

Lemma stem_length (raw : jsstring) :
  length (sanitizePdfName_stem raw) <= length raw.
Proof.
  unfold sanitizePdfName_stem, strip_dots, trim.
  pose proof (dropWhileEnd_length is_dot
                (dropWhile is_dot
                   (dropWhileEnd is_white_space
                      (dropWhile is_white_space
                         (replace_class invalid_filename_char raw))))).
  pose proof (dropWhile_length is_dot
                (dropWhileEnd is_white_space
                   (dropWhile is_white_space
                      (replace_class invalid_filename_char raw)))).
  pose proof (dropWhileEnd_length is_white_space
                (dropWhile is_white_space
                   (replace_class invalid_filename_char raw))).
  pose proof (dropWhile_length is_white_space
                (replace_class invalid_filename_char raw)).
  assert (length (replace_class invalid_filename_char raw) = length raw)
    by apply length_map.
  lia.
Qed.

Lemma replace_class_clears (raw : jsstring) :
  Forall (fun c => invalid_filename_char c = false)
    (replace_class invalid_filename_char raw).
Proof.
  apply Forall_forall. intros c Hc. apply in_map_iff in Hc.
  destruct Hc as (x & <- & _).
  destruct (invalid_filename_char x) eqn:E; [reflexivity | exact E].
Qed.

Lemma stem_valid (raw : jsstring) :
  Forall (fun c => invalid_filename_char c = false) (sanitizePdfName_stem raw).
Proof. apply strip_dots_Forall, trim_Forall, replace_class_clears. Qed.

(** The candidate, from the stem. *)
Lemma candidate_from_stem (raw : jsstring) :
  sanitizePdfName_candidate raw
  = let named :=
      if ends_with_pdf_ci (sanitizePdfName_stem raw)
      then sanitizePdfName_stem raw
      else sanitizePdfName_stem raw ++ lit ".pdf" in
    if Nat.ltb maxLength (length named) then firstn maxLength named else named.
Proof.
  unfold sanitizePdfName_candidate, sanitizePdfName_stem, substring0. cbv zeta.
  now destruct (ends_with_pdf_ci _).
Qed.

Lemma candidate_valid (raw : jsstring) :
  Forall (fun c => invalid_filename_char c = false)
    (sanitizePdfName_candidate raw).
Proof.
  rewrite candidate_from_stem. cbv zeta.
  assert (H : Forall (fun c => invalid_filename_char c = false)
                (if ends_with_pdf_ci (sanitizePdfName_stem raw)
                 then sanitizePdfName_stem raw
                 else sanitizePdfName_stem raw ++ lit ".pdf")).
  { destruct (ends_with_pdf_ci (sanitizePdfName_stem raw)); [apply stem_valid|].
    apply Forall_app. split; [apply stem_valid | repeat constructor]. }
  destruct (Nat.ltb maxLength _); [now apply Forall_firstn_of | exact H].
Qed.

Lemma candidate_length (raw : jsstring) :
  length (sanitizePdfName_candidate raw) <= maxLength.
Proof.
  rewrite candidate_from_stem. cbv zeta.
  destruct (Nat.ltb maxLength _) eqn:E.
  - rewrite length_firstn. lia.
  - apply Nat.ltb_ge in E. exact E.
Qed.

Lemma name_char_valid c :
  file_name_char c = true -> invalid_filename_char c = false.
Proof.
  unfold file_name_char, invalid_filename_char, in_range, char_eqb.
  rewrite !orb_true_iff, !andb_true_iff, !N.leb_le, !N.eqb_eq.
  intros H.
  repeat (apply orb_false_iff; split);
    try (apply andb_false_iff; rewrite !N.leb_gt; lia);
    apply N.eqb_neq; lia.
Qed.

Lemma padStart2_chars (Q : char -> Prop) (s : jsstring) :
  Q (digit_char 0) -> Forall Q s -> Forall Q (padStart2 s).
Proof.
  intros H0 Hs. unfold padStart2. apply Forall_app. split; [|exact Hs].
  apply Forall_forall. intros c Hc. apply repeat_spec in Hc. now subst.
Qed.

(** The default name is made of letters, digits, hyphens and one dot. *)
Lemma generateDefaultPdfName_chars (now : Date) (count : Z) :
  Forall (fun c => file_name_char c = true /\ is_underscore c = false)
    (generateDefaultPdfName now count).
Proof.
  unfold generateDefaultPdfName. cbv zeta.
  repeat (apply Forall_app; split);
    try apply Number_toString_chars;
    try (apply Forall_forall; intros c Hc; apply repeat_spec in Hc; subst c;
         split; reflexivity);
    repeat constructor.
Qed.

Lemma generateDefaultPdfName_ext (now : Date) (count : Z) :
  ends_with_pdf_ci (generateDefaultPdfName now count) = true.
Proof.
  unfold generateDefaultPdfName. cbv zeta.
  rewrite !app_assoc. unfold ends_with_pdf_ci. rewrite rev_app_distr.
  reflexivity.
Qed.

Lemma no_underscore_no_run (s : jsstring) :
  Forall (fun c => is_underscore c = false) s -> has_underscore_run s = false.
Proof.
  induction 1 as [|c t Hc _ IH]; [reflexivity|].
  destruct t as [|c' t']; [reflexivity|].
  change (has_underscore_run (c :: c' :: t'))
    with ((is_underscore c && is_underscore c')
          || has_underscore_run (c' :: t')).
  now rewrite Hc, IH.
Qed.

Lemma generateDefaultPdfName_clean (now : Date) (count : Z) :
  clean_name (generateDefaultPdfName now count).
Proof.
  split.
  - eapply Forall_impl; [|apply generateDefaultPdfName_chars]. intros c H; apply H.
  - apply no_underscore_no_run.
    eapply Forall_impl; [|apply generateDefaultPdfName_chars]. intros c H; apply H.
Qed.

Lemma sanitizePdfName_cases
  (EditedImage : Type) (now : Date) (editingImages : list EditedImage)
  (raw : jsstring) :
  sanitizePdfName now editingImages raw
  = generateDefaultPdfName now (Z.of_nat (length editingImages))
  \/ (sanitizePdfName now editingImages raw = sanitizePdfName_candidate raw
      /\ sanitizePdfName_candidate raw <> lit ".pdf"
      /\ trim (sanitizePdfName_candidate raw) <> []).
Proof.
  unfold sanitizePdfName. cbv zeta.
  destruct (eqb (sanitizePdfName_candidate raw) (lit ".pdf")) eqn:E1;
    [now left|].
  destruct (eqb (trim (sanitizePdfName_candidate raw)) []) eqn:E2;
    [now left|].
  right. cbn [orb]. split; [reflexivity|].
  split; now apply eqb_neq.
Qed.

Lemma sanitizePdfName_valid
  (EditedImage : Type) (now : Date) (editingImages : list EditedImage)
  (raw : jsstring) :
  Forall (fun c => invalid_filename_char c = false)
    (sanitizePdfName now editingImages raw).
Proof.
  destruct (sanitizePdfName_cases now editingImages raw) as [-> | [-> _]].
  - eapply Forall_impl; [|apply generateDefaultPdfName_chars].
    intros c [H _]. now apply name_char_valid.
  - apply candidate_valid.
Qed.

Lemma sanitizePdfName_visible
  (EditedImage : Type) (now : Date) (editingImages : list EditedImage)
  (raw : jsstring) :
  trim (sanitizePdfName now editingImages raw) <> [].
Proof.
  destruct (sanitizePdfName_cases now editingImages raw) as [-> | (-> & _ & H)].
  - apply generateDefaultPdfName_visible.
  - exact H.
Qed.

End NameFacts.

(** X1.  Whatever the raw name, the name [sanitizePdfName] returns holds none
    of the reserved characters and no control character. *)
Theorem sanitizePdfName_no_reserved_character
  (EditedImage : Type) (now : Date) (editingImages : list EditedImage)
  (raw : jsstring) :
  Forall (fun c => invalid_filename_char c = false)
    (sanitizePdfName now editingImages raw).
Proof. apply sanitizePdfName_valid. Qed.

Section NameFacts2.

Lemma digits_length n s : digits_of_length n s = true -> length s = n.
Proof.
  unfold digits_of_length. rewrite andb_true_iff, Nat.eqb_eq. tauto.
Qed.

Lemma count_digits z :
  (0 <= z < 10000)%Z -> length (Number_toString z) <= 4.
Proof.
  intros H. apply Nat.leb_le.
  apply (@range_check (fun z => Nat.leb (length (Number_toString z)) 4)
           0%Z 10000%Z); [vm_compute; reflexivity | lia].
Qed.

Lemma generateDefaultPdfName_length (now : Date) (count : Z) :
  calendar_date now ->
  length (generateDefaultPdfName now count)
  = 37 + length (Number_toString count).
Proof.
  intros (Hy & Hm & Hd & Hh & Hmi & Hs).
  unfold generateDefaultPdfName. cbv zeta. rewrite !length_app.
  rewrite (@digits_length _ _ (year_digits Hy)).
  rewrite (@digits_length _ _ (@field_digits (getMonth now + 1) ltac:(lia))).
  rewrite (@digits_length _ _ (@field_digits (getDate now) ltac:(lia))).
  rewrite (@digits_length _ _ (@field_digits (getHours now) ltac:(lia))).
  rewrite (@digits_length _ _ (@field_digits (getMinutes now) ltac:(lia))).
  rewrite (@digits_length _ _ (@field_digits (getSeconds now) ltac:(lia))).
  change (length (lit "Document-")) with 9.
  change (length (lit "-")) with 1.
  change (length (lit "images.pdf")) with 10. lia.
Qed.

Lemma dropWhileEnd_prefix (p : char -> bool) (s : jsstring) :
  exists suffix, s = dropWhileEnd p s ++ suffix.
Proof.
  destruct (dropWhile_suffix p (rev s)) as (pre & E & _).
  exists (rev pre). unfold dropWhileEnd.
  rewrite <- rev_app_distr, <- E. symmetry. apply rev_involutive.
Qed.

(** The stem does not start with a dot. *)
Lemma stem_head (raw : jsstring) c t :
  sanitizePdfName_stem raw = c :: t -> is_dot c = false.
Proof.
  unfold sanitizePdfName_stem, strip_dots. intros E.
  destruct (dropWhileEnd_prefix is_dot
              (dropWhile is_dot
                 (trim (replace_class invalid_filename_char raw))))
    as (suffix & Es).
  rewrite E in Es. simpl in Es. now apply dropWhile_head in Es.
Qed.

Lemma ext_not_blank (s : jsstring) :
  ends_with_pdf_ci s = true -> trim s <> [].
Proof.
  intros H Ht. apply trim_nil_all in Ht.
  unfold ends_with_pdf_ci in H.
  destruct (rev s) as [|f r] eqn:E; [discriminate|].
  assert (Hf : is_white_space f = true).
  { rewrite Forall_forall in Ht. apply Ht, in_rev. rewrite E. now left. }
  destruct r as [|d [|p [|dot r]]]; try discriminate.
  apply andb_true_iff in H. destruct H as [_ H].
  unfold char_eqb in H. rewrite orb_true_iff, !N.eqb_eq in H.
  destruct H as [-> | ->]; discriminate Hf.
Qed.

End NameFacts2.

(** X2.  With a clock reading in the four-digit years and fewer than ten
    thousand images in the editor, the name [sanitizePdfName] returns has at
    most 100 code units, whatever the raw name. *)
Theorem sanitizePdfName_at_most_100
  (EditedImage : Type) (now : Date) (editingImages : list EditedImage)
  (raw : jsstring) :
  calendar_date now ->
  (Z.of_nat (length editingImages) < 10000)%Z ->
  length (sanitizePdfName now editingImages raw) <= 100.
Proof.
  intros Hdate Hcount.
  destruct (sanitizePdfName_cases now editingImages raw) as [-> | [-> _]].
  - rewrite (generateDefaultPdfName_length _ Hdate).
    pose proof (@count_digits (Z.of_nat (length editingImages)) ltac:(lia)).
    lia.
  - apply candidate_length.
Qed.

(** A name of 300 letters, three images. *)
Lemma sanitizePdfName_at_most_100_witness :
  let now := mkDate 2024 0 5 7 8 9 in
  calendar_date now
  /\ (Z.of_nat (length [tt; tt; tt]) < 10000)%Z
  /\ length (sanitizePdfName now [tt; tt; tt] (repeat 97%N 300)) <= 100.
Proof.
  intros now.
  assert (D : calendar_date now) by (cbv; intuition discriminate).
  assert (L : (Z.of_nat (length [tt; tt; tt]) < 10000)%Z) by (simpl; lia).
  split; [exact D|]. split; [exact L|].
  exact (@sanitizePdfName_at_most_100 unit now [tt; tt; tt] (repeat 97%N 300)
           D L).
Defined.

(** X3.  A raw name of at most 96 code units comes out of [sanitizePdfName]
    with the extension at its end; and a name whose stem (the raw name with
    the invalid characters replaced and the white space and dots around it
    stripped) already ends with the extension, in any letter case, and has at
    most 100 code units comes out as that stem: the extension is not added
    twice and keeps its letter case. *)
Theorem sanitizePdfName_keeps_extension
  (EditedImage : Type) (now : Date) (editingImages : list EditedImage)
  (raw : jsstring) :
  (length raw <= 96 ->
   ends_with_pdf_ci (sanitizePdfName now editingImages raw) = true)
  /\ (ends_with_pdf_ci (sanitizePdfName_stem raw) = true ->
      length (sanitizePdfName_stem raw) <= 100 ->
      sanitizePdfName now editingImages raw = sanitizePdfName_stem raw).
Proof.
  split.
  - intros Hlen.
    destruct (sanitizePdfName_cases now editingImages raw) as [-> | [-> _]];
      [apply generateDefaultPdfName_ext|].
    rewrite candidate_from_stem. cbv zeta.
    pose proof (stem_length raw) as Hs.
    destruct (ends_with_pdf_ci (sanitizePdfName_stem raw)) eqn:E.
    + replace (Nat.ltb maxLength (length (sanitizePdfName_stem raw)))
        with false by (symmetry; apply Nat.ltb_ge; unfold maxLength; lia).
      exact E.
    + replace (Nat.ltb maxLength
                 (length (sanitizePdfName_stem raw ++ lit ".pdf")))
        with false
        by (symmetry; apply Nat.ltb_ge; rewrite length_app; unfold maxLength;
            simpl length; lia).
      apply ends_with_pdf_ci_app.
  - intros Hext Hlen.
    assert (C : sanitizePdfName_candidate raw = sanitizePdfName_stem raw).
    { rewrite candidate_from_stem. cbv zeta. rewrite Hext.
      replace (Nat.ltb maxLength (length (sanitizePdfName_stem raw)))
        with false by (symmetry; apply Nat.ltb_ge; unfold maxLength; lia).
      reflexivity. }
    unfold sanitizePdfName. cbv zeta. rewrite C.
    assert (E1 : eqb (sanitizePdfName_stem raw) (lit ".pdf") = false).
    { apply eqb_neq. intros E. apply stem_head in E. discriminate E. }
    assert (E2 : eqb (trim (sanitizePdfName_stem raw)) [] = false).
    { apply eqb_neq. now apply ext_not_blank. }
    now rewrite E1, E2.
Qed.

(** [  my:scan.PDF ] comes out as [my_scan.PDF]. *)
Lemma sanitizePdfName_keeps_extension_witness :
  let now := mkDate 2024 0 5 7 8 9 in
  let raw := lit "  my:scan.PDF " in
  length raw <= 96
  /\ ends_with_pdf_ci (sanitizePdfName_stem raw) = true
  /\ length (sanitizePdfName_stem raw) <= 100
  /\ ends_with_pdf_ci (sanitizePdfName now [tt] raw) = true
  /\ sanitizePdfName now [tt] raw = lit "my_scan.PDF".
Proof.
  intros now raw.
  assert (L : length raw <= 96) by (vm_compute; lia).
  assert (E : ends_with_pdf_ci (sanitizePdfName_stem raw) = true) by reflexivity.
  assert (L' : length (sanitizePdfName_stem raw) <= 100) by (vm_compute; lia).
  destruct (sanitizePdfName_keeps_extension now [tt] raw) as [H1 H2].
  split; [exact L|]. split; [exact E|]. split; [exact L'|].
  split; [exact (H1 L)|]. rewrite (H2 E L'). reflexivity.
Defined.

(** X4.  [sanitizeFileName] is idempotent: a name it returned is left as it
    is by a second pass. *)
Theorem sanitizeFileName_idempotent (raw : jsstring) :
  sanitizeFileName (sanitizeFileName raw) = sanitizeFileName raw.
Proof.
  rewrite (sanitizeFileName_of_clean (sanitizeFileName_clean raw)).
  now rewrite sanitizeFileName_ext.
Qed.

(** X5.  The default name of the editor passes [sanitizeFileName] unchanged,
    for every clock reading and every count: the store keeps the name the
    editor proposed. *)
Theorem sanitizeFileName_keeps_default_name (now : Date) (imageCount : Z) :
  sanitizeFileName (generateDefaultPdfName now imageCount)
  = generateDefaultPdfName now imageCount.
Proof.
  rewrite (sanitizeFileName_of_clean (generateDefaultPdfName_clean now imageCount)).
  now rewrite generateDefaultPdfName_ext.
Qed.

(* ================================================================== *)
(** ** More on the store *)
(* ================================================================== *)

Section StoreFacts.

Variable P : Platform.

Lemma squeeze_app (a b : jsstring) : forall after,
  squeeze_underscores after (a ++ b)
  = squeeze_underscores after a
    ++ squeeze_underscores (ends_with_underscore after a) b.
Proof.
  induction a as [|c t IH]; intros after; [reflexivity|].
  cbn [app squeeze_underscores ends_with_underscore fold_left].
  destruct (is_underscore c) eqn:E.
  - destruct after; rewrite IH; reflexivity.
  - rewrite IH. reflexivity.
Qed.

Lemma firstn_no_run (n : nat) (s : jsstring) :
  has_underscore_run s = false -> has_underscore_run (firstn n s) = false.
Proof.
  revert n. induction s as [|c t IH]; intros [|n] H; try reflexivity.
  destruct t as [|c' t']; [now destruct n|].
  change (has_underscore_run (c :: c' :: t'))
    with ((is_underscore c && is_underscore c')
          || has_underscore_run (c' :: t')) in H.
  apply orb_false_iff in H. destruct H as [Hcc Hr].
  destruct n as [|n]; [reflexivity|].
  change (firstn (S (S n)) (c :: c' :: t'))
    with (c :: c' :: firstn n t').
  change (has_underscore_run (c :: c' :: firstn n t'))
    with ((is_underscore c && is_underscore c')
          || has_underscore_run (firstn (S n) (c' :: t'))).
  now rewrite Hcc, (IH (S n) Hr).
Qed.

Lemma remove_pdf_ext_no_run (s : jsstring) :
  has_underscore_run s = false -> has_underscore_run (remove_pdf_ext s) = false.
Proof.
  intros H. unfold remove_pdf_ext. destruct (ends_with_pdf_ci s); [|exact H].
  now apply firstn_no_run.
Qed.

(** The name of the retry, once the next call has sanitized it. *)
Lemma retry_name (cleanName : jsstring) (timestamp : Z) :
  clean_name cleanName ->
  sanitizeFileName (unique_name cleanName timestamp)
  = remove_pdf_ext cleanName ++ retry_separator (remove_pdf_ext cleanName)
      ++ Number_toString timestamp ++ lit ".pdf".
Proof.
  intros Hclean. pose proof Hclean as [Hc Hr].
  rewrite sanitizeFileName_unfold. cbv zeta.
  rewrite (underscore_foreign_id (unique_name_chars timestamp Hclean)).
  unfold unique_name.
  assert (Htail : squeeze_underscores true (Number_toString timestamp ++ lit ".pdf")
                  = Number_toString timestamp ++ lit ".pdf").
  { assert (Hn : Forall (fun c => is_underscore c = false)
                   (Number_toString timestamp ++ lit ".pdf")).
    { apply Forall_app. split; [|repeat constructor].
      eapply Forall_impl; [|apply Number_toString_chars]. intros c H; apply H. }
    apply squeeze_id; [now apply no_underscore_no_run|].
    intros _. destruct Hn as [|c t Hx _]; [exact I | exact Hx]. }
  assert (E : squeeze_underscores false
                (remove_pdf_ext cleanName
                 ++ lit "_" ++ Number_toString timestamp ++ lit ".pdf")
              = remove_pdf_ext cleanName
                ++ retry_separator (remove_pdf_ext cleanName)
                ++ Number_toString timestamp ++ lit ".pdf").
  { rewrite squeeze_app.
    rewrite (@squeeze_id (remove_pdf_ext cleanName) false
               (remove_pdf_ext_no_run _ Hr)) by discriminate.
    f_equal. unfold retry_separator.
    change (lit "_" ++ Number_toString timestamp ++ lit ".pdf")
      with (underscore :: Number_toString timestamp ++ lit ".pdf").
    cbn [squeeze_underscores]. change (is_underscore underscore) with true.
    cbv iota. rewrite Htail.
    now destruct (ends_with_underscore false (remove_pdf_ext cleanName)). }
  rewrite E.
  replace (ends_with_pdf_ci _) with true; [reflexivity|].
  symmetry. rewrite !app_assoc. apply ends_with_pdf_ci_app.
Qed.

(** The run of [renamePdf] along a given resolution, with a copy that
    works. *)
Lemma renamePdf_stores_at (docDir sourceUri newFileName : jsstring) (w : World)
  (f : File) (k : nat) (final : jsstring) (w1 : World) :
  documentDirectory P = Some docDir ->
  lookup sourceUri (files w) = Some f ->
  copy_reliable P ->
  resolves P docDir w newFileName k final w1 ->
  exists mtime w',
    (forall fuel, k < fuel ->
       renamePdf P fuel sourceUri newFileName w
       = (Returned (docDir ++ final), w'))
    /\ ticks w' = ticks w + k
    /\ docDir ++ final <> sourceUri
    /\ lookup (docDir ++ final) (files w) = None
    /\ let fs' := write (docDir ++ final) (mkFile (data f) mtime) (files w) in
       files w' = match delete_error P fs' sourceUri with
                  | None => remove sourceUri fs'
                  | Some _ => fs'
                  end.
Proof.
  intros Hdir Hsrc Hcopy Hres.
  destruct (resolves_facts Hres) as (Hf & Ht & Hfree & _).
  assert (Hsrc1 : lookup sourceUri (files w1) = Some f) by now rewrite Hf.
  pose proof (commit_cases P sourceUri (docDir ++ final) w1 Hsrc1) as Hc.
  destruct (Hcopy (files w1) sourceUri (docDir ++ final)) as (mtime & Em).
  rewrite Em in Hc. cbv zeta in Hc. rewrite Hf in Hc.
  assert (Hne : docDir ++ final <> sourceUri)
    by (intros E; rewrite E in Hfree; congruence).
  exists mtime.
  destruct (delete_error P (write (docDir ++ final) (mkFile (data f) mtime)
                              (files w)) sourceUri) as [message|] eqn:Ed.
  - eexists. split; [|split; [|split; [exact Hne|split; [exact Hfree|]]]].
    + intros fuel Hfuel.
      rewrite (@renamePdf_resolved P docDir sourceUri w newFileName k final w1);
        [| assumption | rewrite Hsrc; discriminate | assumption | assumption].
      rewrite Hc. apply iter_rethrow_Returned.
    + cbn [ticks]. exact Ht.
    + cbv zeta. rewrite Ed. reflexivity.
  - eexists. split; [|split; [|split; [exact Hne|split; [exact Hfree|]]]].
    + intros fuel Hfuel.
      rewrite (@renamePdf_resolved P docDir sourceUri w newFileName k final w1);
        [| assumption | rewrite Hsrc; discriminate | assumption | assumption].
      rewrite Hc. apply iter_rethrow_Returned.
    + cbn [ticks]. exact Ht.
    + cbv zeta. rewrite Ed. reflexivity.
Qed.

Lemma remove_app (uri : jsstring) (a b : Files) :
  remove uri (a ++ b) = remove uri a ++ remove uri b.
Proof. apply filter_app. Qed.

(** Writing a new file and removing it again leaves the list as it was. *)
Lemma remove_write_absent (target sourceUri : jsstring) (g : File) (fs : Files) :
  lookup target fs = None -> target <> sourceUri ->
  remove target (remove sourceUri (write target g fs)) = remove sourceUri fs.
Proof.
  intros Hfree Hne.
  rewrite (@write_absent target g fs Hfree), !remove_app.
  assert (E1 : remove sourceUri [(target, g)] = [(target, g)]).
  { unfold remove. simpl. apply eqb_neq in Hne. now rewrite Hne. }
  assert (E2 : remove target [(target, g)] = []).
  { unfold remove. simpl. now rewrite eqb_refl. }
  rewrite E1, E2, app_nil_r.
  apply remove_absent. rewrite lookup_remove_other by congruence. exact Hfree.
Qed.

Lemma deletePdfFile_present (pdfUri : jsstring) (w : World) :
  lookup pdfUri (files w) <> None ->
  delete_error P (files w) pdfUri = None ->
  deletePdfFile P pdfUri w
  = (Returned true,
     mkWorld (remove pdfUri (files w)) (ticks w)
       (console w ++ [console_log_entry "PDF deleted successfully:" pdfUri])).
Proof.
  intros Hs Hd.
  cbv beta iota zeta delta
    [deletePdfFile try_catch bind getInfoAsync deleteAsync console_log ret
     set_files].
  destruct (lookup pdfUri (files w)) eqn:E; [|congruence].
  cbn [file_exists]. now rewrite Hd.
Qed.

End StoreFacts.

(** X6.  When the clean name is taken and the name with the reading of the
    clock is free, [renamePdf] stores the document under the stem, one
    underscore (none is added to a stem that ends with one), the reading of
    the clock in decimal and [.pdf] in lower case; it has read the clock
    once. *)
Theorem renamePdf_second_name
  (P : Platform) (docDir sourceUri newFileName : jsstring) (w : World)
  (f : File) :
  let cleanName := sanitizeFileName newFileName in
  let stem := remove_pdf_ext cleanName in
  let retried :=
    stem ++ retry_separator stem ++ Number_toString (clock P (ticks w))
      ++ lit ".pdf" in
  documentDirectory P = Some docDir ->
  lookup sourceUri (files w) = Some f ->
  copy_reliable P ->
  stored (docDir ++ cleanName) w ->
  ~ stored (docDir ++ retried) w ->
  exists mtime w',
    (forall fuel, 1 < fuel ->
       renamePdf P fuel sourceUri newFileName w
       = (Returned (docDir ++ retried), w'))
    /\ lookup (docDir ++ retried) (files w') = Some (mkFile (data f) mtime)
    /\ ticks w' = S (ticks w).
Proof.
  intros cleanName stem retried Hdir Hsrc Hcopy Hbusy Hfree.
  assert (Hname : sanitizeFileName (unique_name cleanName (clock P (ticks w)))
                  = retried)
    by (apply retry_name, sanitizeFileName_clean).
  assert (Hres : resolves P docDir w newFileName 1 retried
                   (logged [console_log_entry "Renaming PDF to:" retried]
                      (retry_world P cleanName w))).
  { apply resolves_retry; [exact Hbusy|]. fold cleanName. rewrite <- Hname.
    apply resolves_free. rewrite Hname. cbn [retry_world files].
    unfold stored in Hfree. destruct (lookup (docDir ++ retried) (files w));
      [exfalso; apply Hfree; discriminate | reflexivity]. }
  destruct (renamePdf_stores_at sourceUri Hdir Hsrc Hcopy Hres)
    as (mtime & w' & Hrun & Ht & Hne & _ & Hfiles).
  exists mtime, w'. split; [exact Hrun|]. split; [|lia].
  cbv zeta in Hfiles. rewrite Hfiles.
  destruct (delete_error P _ sourceUri).
  - apply lookup_write_same.
  - rewrite lookup_remove_other by congruence. apply lookup_write_same.
Qed.

(** The commit of [Invoice] when [Invoice.pdf] is taken. *)
Lemma renamePdf_second_name_witness :
  let w := mkWorld [(print1, mkFile [37; 80; 68; 70]%N 1700000000);
                    (docs ++ lit "Invoice.pdf", mkFile [1]%N 1600000000)] 0 [] in
  let f := mkFile [37; 80; 68; 70]%N 1700000000 in
  let target := docs ++ lit "Invoice_1700000000000.pdf" in
  documentDirectory sound_platform = Some docs
  /\ lookup print1 (files w) = Some f
  /\ copy_reliable sound_platform
  /\ stored (docs ++ sanitizeFileName (lit "Invoice")) w
  /\ ~ stored target w
  /\ exists mtime w',
       (forall fuel, 1 < fuel ->
          renamePdf sound_platform fuel print1 (lit "Invoice") w
          = (Returned target, w'))
       /\ lookup target (files w') = Some (mkFile (data f) mtime)
       /\ ticks w' = S (ticks w).
Proof.
  intros w f target.
  assert (Hc : copy_reliable sound_platform)
    by (intros fs from to; exists 1700000002%Z; reflexivity).
  assert (Hb : stored (docs ++ sanitizeFileName (lit "Invoice")) w)
    by (vm_compute; discriminate).
  assert (Hf : ~ stored target w) by (vm_compute; tauto).
  split; [reflexivity|]. split; [reflexivity|]. split; [exact Hc|].
  split; [exact Hb|]. split; [exact Hf|].
  exact (@renamePdf_second_name sound_platform docs print1 (lit "Invoice") w f
           eq_refl eq_refl Hc Hb Hf).
Defined.

(** X7.  With a copy and a deletion that work, [renamePdf] moves the file:
    the URI it returns is never the source, it holds the bytes of the source,
    the source is gone, and every other file is as it was. *)
Theorem renamePdf_moves
  (P : Platform) (docDir sourceUri newFileName : jsstring) (w : World)
  (f : File) :
  documentDirectory P = Some docDir ->
  lookup sourceUri (files w) = Some f ->
  copy_reliable P -> delete_reliable P ->
  exists k target mtime w',
    (forall fuel, k < fuel ->
       renamePdf P fuel sourceUri newFileName w = (Returned target, w'))
    /\ target <> sourceUri
    /\ lookup target (files w') = Some (mkFile (data f) mtime)
    /\ lookup sourceUri (files w') = None
    /\ (forall u, u <> target -> u <> sourceUri ->
                  lookup u (files w') = lookup u (files w)).
Proof.
  intros Hdir Hsrc Hcopy Hdel.
  destruct (resolves_exists P docDir w newFileName)
    as (k & final & w1 & Hres & _).
  destruct (renamePdf_stores_at sourceUri Hdir Hsrc Hcopy Hres)
    as (mtime & w' & Hrun & _ & Hne & _ & Hfiles).
  cbv zeta in Hfiles. rewrite Hdel in Hfiles.
  exists k, (docDir ++ final), mtime, w'.
  split; [exact Hrun|]. split; [exact Hne|]. rewrite Hfiles. split; [|split].
  - rewrite lookup_remove_other by congruence. apply lookup_write_same.
  - apply lookup_remove_same.
  - intros u Hu Hus. rewrite lookup_remove_other by congruence.
    apply lookup_write_other. congruence.
Qed.

(** The commit of [Invoice] from the cache. *)
Lemma renamePdf_moves_witness :
  let f := mkFile [37; 80; 68; 70]%N 1700000000 in
  documentDirectory sound_platform = Some docs
  /\ lookup print1 (files cache_world) = Some f
  /\ copy_reliable sound_platform /\ delete_reliable sound_platform
  /\ exists k target mtime w',
       (forall fuel, k < fuel ->
          renamePdf sound_platform fuel print1 (lit "Invoice") cache_world
          = (Returned target, w'))
       /\ target <> print1
       /\ lookup target (files w') = Some (mkFile (data f) mtime)
       /\ lookup print1 (files w') = None
       /\ (forall u, u <> target -> u <> print1 ->
                     lookup u (files w') = lookup u (files cache_world)).
Proof.
  intros f.
  assert (Hc : copy_reliable sound_platform)
    by (intros fs from to; exists 1700000002%Z; reflexivity).
  assert (Hd : delete_reliable sound_platform) by (intros fs u; reflexivity).
  split; [reflexivity|]. split; [reflexivity|]. split; [exact Hc|].
  split; [exact Hd|].
  exact (@renamePdf_moves sound_platform docs print1 (lit "Invoice") cache_world
           f eq_refl eq_refl Hc Hd).
Defined.

(** X8.  A commit followed by the deletion of the URI it returned, on a
    platform whose copy and deletion work: the deletion returns [true] and
    the files are the files of before the commit without the source, in the
    same order. *)
Theorem renamePdf_then_deletePdfFile
  (P : Platform) (docDir sourceUri newFileName : jsstring) (w : World)
  (f : File) :
  documentDirectory P = Some docDir ->
  lookup sourceUri (files w) = Some f ->
  copy_reliable P -> delete_reliable P ->
  exists k target w1 w2,
    (forall fuel, k < fuel ->
       renamePdf P fuel sourceUri newFileName w = (Returned target, w1))
    /\ deletePdfFile P target w1 = (Returned true, w2)
    /\ files w2 = remove sourceUri (files w).
Proof.
  intros Hdir Hsrc Hcopy Hdel.
  destruct (resolves_exists P docDir w newFileName)
    as (k & final & v & Hres & _).
  destruct (renamePdf_stores_at sourceUri Hdir Hsrc Hcopy Hres)
    as (mtime & w1 & Hrun & _ & Hne & Hfree & Hfiles).
  cbv zeta in Hfiles. rewrite Hdel in Hfiles.
  exists k, (docDir ++ final), w1. eexists.
  split; [exact Hrun|]. split.
  - apply deletePdfFile_present; [|apply Hdel].
    rewrite Hfiles, lookup_remove_other by congruence.
    rewrite lookup_write_same. discriminate.
  - cbn [files]. rewrite Hfiles. now apply remove_write_absent.
Qed.

(** The commit of [Invoice] from the cache, undone. *)
Lemma renamePdf_then_deletePdfFile_witness :
  let f := mkFile [37; 80; 68; 70]%N 1700000000 in
  documentDirectory sound_platform = Some docs
  /\ lookup print1 (files cache_world) = Some f
  /\ copy_reliable sound_platform /\ delete_reliable sound_platform
  /\ exists k target w1 w2,
       (forall fuel, k < fuel ->
          renamePdf sound_platform fuel print1 (lit "Invoice") cache_world
          = (Returned target, w1))
       /\ deletePdfFile sound_platform target w1 = (Returned true, w2)
       /\ files w2 = remove print1 (files cache_world).
Proof.
  intros f.
  assert (Hc : copy_reliable sound_platform)
    by (intros fs from to; exists 1700000002%Z; reflexivity).
  assert (Hd : delete_reliable sound_platform) by (intros fs u; reflexivity).
  split; [reflexivity|]. split; [reflexivity|]. split; [exact Hc|].
  split; [exact Hd|].
  exact (@renamePdf_then_deletePdfFile sound_platform docs print1 (lit "Invoice")
           cache_world f eq_refl eq_refl Hc Hd).
Defined.

(* ================================================================== *)
(** ** getPdfFileInfo *)
(* ================================================================== *)

Section InfoFacts.

Lemma takeWhile_prefix (p : char -> bool) (s : jsstring) :
  exists rest,
    s = takeWhile p s ++ rest
    /\ Forall (fun c => p c = true) (takeWhile p s)
    /\ match rest with
       | c :: _ => p c = false
       | [] => True
       end.
Proof.
  induction s as [|c t (rest & E & F & R)]; simpl.
  - exists []. repeat split; constructor.
  - destruct (p c) eqn:Hc.
    + exists rest. split; [simpl; congruence|]. split; [now constructor | exact R].
    + exists (c :: t). repeat split; [constructor | exact Hc].
Qed.

Lemma takeWhile_all (p : char -> bool) (s rest : jsstring) :
  Forall (fun c => p c = true) s ->
  match rest with
  | c :: _ => p c = false
  | [] => True
  end ->
  takeWhile p (s ++ rest) = s.
Proof.
  intros Hs Hr. induction Hs as [|c t Hc _ IH]; simpl.
  - destruct rest as [|c r]; [reflexivity|]. simpl. now rewrite Hr.
  - now rewrite Hc, IH.
Qed.

(** What follows the last separator: the string ends with it, it holds no
    separator, and what comes before is empty or ends with a separator. *)
Lemma split_pop_spec (sep : char) (s : jsstring) :
  exists before,
    s = before ++ split_pop sep s
    /\ free_of sep (split_pop sep s)
    /\ (before = [] \/ exists b, before = b ++ [sep]).
Proof.
  unfold split_pop.
  destruct (takeWhile_prefix (fun c => negb (char_eqb c sep)) (rev s))
    as (rest & E & F & R).
  exists (rev rest). split; [|split].
  - rewrite <- rev_app_distr, <- E. symmetry. apply rev_involutive.
  - apply Forall_rev. eapply Forall_impl; [|exact F].
    intros c H. now apply negb_true_iff in H.
  - destruct rest as [|c r]; [now left|]. right. exists (rev r).
    apply negb_false_iff, char_eqb_eq in R. subst c. reflexivity.
Qed.

Lemma split_pop_after (sep : char) (before name : jsstring) :
  free_of sep name -> split_pop sep (before ++ [sep] ++ name) = name.
Proof.
  intros H. unfold split_pop.
  rewrite !rev_app_distr. cbn [rev app]. rewrite <- app_assoc.
  rewrite takeWhile_all.
  - apply rev_involutive.
  - apply Forall_rev. eapply Forall_impl; [|exact H].
    intros c Hc. now rewrite Hc.
  - cbn. unfold char_eqb. now rewrite N.eqb_refl.
Qed.

Lemma split_pop_none (sep : char) (name : jsstring) :
  free_of sep name -> split_pop sep name = name.
Proof.
  intros H. unfold split_pop.
  rewrite <- (app_nil_r (rev name)), takeWhile_all.
  - apply rev_involutive.
  - apply Forall_rev. eapply Forall_impl; [|exact H].
    intros c Hc. now rewrite Hc.
  - exact I.
Qed.

(** The four code units of the extension. *)
Lemma ext_split_chars (s : jsstring) :
  ends_with_pdf_ci s = true ->
  exists p d f,
    s = remove_pdf_ext s ++ [dot; p; d; f]
    /\ free_of dot [p; d; f].
Proof.
  intros H. unfold remove_pdf_ext. rewrite H.
  unfold ends_with_pdf_ci in H.
  destruct (rev s) as [|f [|d [|p [|c r]]]] eqn:E; try discriminate.
  assert (Es : s = rev r ++ [c; p; d; f]).
  { rewrite <- (rev_involutive s), E. simpl. now rewrite <- !app_assoc. }
  apply andb_true_iff in H. destruct H as [H Hf].
  apply andb_true_iff in H. destruct H as [H Hd].
  apply andb_true_iff in H. destruct H as [Hdot Hp].
  unfold is_dot, char_eqb in *.
  rewrite orb_true_iff, !N.eqb_eq in Hf, Hd, Hp. rewrite N.eqb_eq in Hdot.
  subst c. exists p, d, f. split.
  - clear E. subst s. rewrite length_app. simpl length.
    replace (length (rev r) + 4 - 4) with (length (rev r) + 0) by lia.
    rewrite firstn_app_2. simpl. now rewrite app_nil_r.
  - destruct Hp as [-> | ->], Hd as [-> | ->], Hf as [-> | ->];
      repeat constructor.
Qed.

Lemma getPdfFileInfo_present (pdfUri : jsstring) (w : World) (info : File) :
  lookup pdfUri (files w) = Some info ->
  getPdfFileInfo pdfUri w
  = (Returned
       (PdfFileInfo.mk pdfUri (fileSize info) (fileModificationTime info)
          (or_string (split_pop slash pdfUri) (lit "unknown.pdf"))
          (lit "."
           ++ or_string
                (split_pop dot
                   (or_string (split_pop slash pdfUri) (lit "unknown.pdf")))
                [])
          (formatSize (fileSize info)) true), w).
Proof.
  intros H.
  cbv beta iota zeta delta [getPdfFileInfo try_catch bind getInfoAsync ret].
  rewrite H. now rewrite or_zero_id.
Qed.

Lemma clean_name_free_of_slash (s : jsstring) :
  Forall (fun c => file_name_char c = true) s -> free_of slash s.
Proof.
  intros H. eapply Forall_impl; [|exact H]. intros c Hc.
  unfold char_eqb, slash. apply N.eqb_neq. intros ->. discriminate Hc.
Qed.

End InfoFacts.

(** X9.  A commit followed by [getPdfFileInfo] on the URI it returned, the
    document directory ending with a slash: the information is that of the
    stored document.  The file name is the resolved name, the extension is
    the end of that name from its last dot (the [.pdf] of the name, in its
    letter case), the size is the size of the source, and the modification
    time is the one [copyAsync] gave the file when it copied the source to
    that URI, which is the one the stored file has. *)
Theorem renamePdf_then_getPdfFileInfo
  (P : Platform) (dir docDir sourceUri newFileName : jsstring) (w : World)
  (f : File) :
  documentDirectory P = Some docDir ->
  docDir = dir ++ [slash] ->
  lookup sourceUri (files w) = Some f ->
  copy_reliable P ->
  exists k final mtime w1 info,
    (forall fuel, k < fuel ->
       renamePdf P fuel sourceUri newFileName w
       = (Returned (docDir ++ final), w1))
    /\ copy_outcome P (files w) sourceUri (docDir ++ final)
       = CopySucceeds mtime
    /\ lookup (docDir ++ final) (files w1) = Some (mkFile (data f) mtime)
    /\ getPdfFileInfo (docDir ++ final) w1 = (Returned info, w1)
    /\ PdfFileInfo.uri info = docDir ++ final
    /\ PdfFileInfo.filename info = final
    /\ remove_pdf_ext final ++ PdfFileInfo.extension info = final
    /\ PdfFileInfo.size info = fileSize f
    /\ PdfFileInfo.modificationTime info = mtime
    /\ PdfFileInfo.sizeFormatted info = formatSize (fileSize f)
    /\ PdfFileInfo.exists_ info = true.
Proof.
  intros Hdir Hslash Hsrc Hcopy.
  destruct (resolves_exists P docDir w newFileName)
    as (k & final & v & Hres & _).
  destruct (resolves_facts Hres) as (_ & _ & Hfree & Hclean & Hext).
  destruct (Hcopy (files w) sourceUri (docDir ++ final)) as (mtime & Em).
  pose proof (@renamePdf_run P docDir sourceUri newFileName w f k final v
                mtime Hdir Hsrc Hres Em) as Hrun.
  assert (Hne : docDir ++ final <> sourceUri)
    by (intros E; rewrite E in Hfree; congruence).
  match type of Hrun with
  | forall fuel, _ -> _ = (_, ?world) => set (w1 := world) in *
  end.
  assert (Hl : lookup (docDir ++ final) (files w1)
               = Some (mkFile (data f) mtime)).
  { unfold w1. cbv zeta. destruct (delete_error P _ sourceUri); cbn [files].
    - apply lookup_write_same.
    - rewrite lookup_remove_other by congruence. apply lookup_write_same. }
  destruct Hclean as [Hchars _].
  assert (Hseg : split_pop slash (docDir ++ final) = final).
  { rewrite Hslash, <- app_assoc.
    apply split_pop_after, clean_name_free_of_slash, Hchars. }
  destruct (ext_split_chars _ Hext) as (p & d & c & Es & Hfd).
  assert (Hnonempty : or_string final (lit "unknown.pdf") = final).
  { destruct final; [discriminate Hext | reflexivity]. }
  assert (Hdot : split_pop dot final = [p; d; c]).
  { rewrite Es.
    change (remove_pdf_ext final ++ [dot; p; d; c])
      with (remove_pdf_ext final ++ [dot] ++ [p; d; c]).
    now apply split_pop_after. }
  exists k, final, mtime, w1. eexists.
  split; [exact Hrun|]. split; [exact Em|]. split; [exact Hl|].
  split; [apply (getPdfFileInfo_present _ _ Hl)|].
  cbn [PdfFileInfo.uri PdfFileInfo.filename PdfFileInfo.extension
       PdfFileInfo.size PdfFileInfo.modificationTime
       PdfFileInfo.sizeFormatted PdfFileInfo.exists_].
  rewrite Hseg, Hnonempty, Hdot. cbn [or_string].
  repeat split. symmetry. exact Es.
Qed.

(** The commit of [Invoice] from the cache, and its information. *)
Lemma renamePdf_then_getPdfFileInfo_witness :
  let f := mkFile [37; 80; 68; 70]%N 1700000000 in
  documentDirectory sound_platform = Some docs
  /\ docs = lit "file:///data/docs" ++ [slash]
  /\ lookup print1 (files cache_world) = Some f
  /\ copy_reliable sound_platform
  /\ exists k final mtime w1 info,
       (forall fuel, k < fuel ->
          renamePdf sound_platform fuel print1 (lit "Invoice") cache_world
          = (Returned (docs ++ final), w1))
       /\ copy_outcome sound_platform (files cache_world) print1
            (docs ++ final)
          = CopySucceeds mtime
       /\ lookup (docs ++ final) (files w1) = Some (mkFile (data f) mtime)
       /\ getPdfFileInfo (docs ++ final) w1 = (Returned info, w1)
       /\ PdfFileInfo.uri info = docs ++ final
       /\ PdfFileInfo.filename info = final
       /\ remove_pdf_ext final ++ PdfFileInfo.extension info = final
       /\ PdfFileInfo.size info = fileSize f
       /\ PdfFileInfo.modificationTime info = mtime
       /\ PdfFileInfo.sizeFormatted info = formatSize (fileSize f)
       /\ PdfFileInfo.exists_ info = true.
Proof.
  intros f.
  assert (Hc : copy_reliable sound_platform)
    by (intros fs from to; exists 1700000002%Z; reflexivity).
  split; [reflexivity|]. split; [reflexivity|]. split; [reflexivity|].
  split; [exact Hc|].
  exact (@renamePdf_then_getPdfFileInfo sound_platform
           (lit "file:///data/docs") docs print1 (lit "Invoice") cache_world f
           eq_refl eq_refl eq_refl Hc).
Defined.

(** The same commit and its information, run. *)
Example renamePdf_then_getPdfFileInfo_run :
  exists w1 info,
    renamePdf sound_platform 1 print1 (lit "Invoice") cache_world
    = (Returned (docs ++ lit "Invoice.pdf"), w1)
    /\ getPdfFileInfo (docs ++ lit "Invoice.pdf") w1 = (Returned info, w1)
    /\ PdfFileInfo.filename info = lit "Invoice.pdf"
    /\ PdfFileInfo.extension info = lit ".pdf"
    /\ PdfFileInfo.size info = 4%Z
    /\ PdfFileInfo.modificationTime info = 1700000002%Z
    /\ PdfFileInfo.sizeFormatted info = lit "0.0 KB".
Proof.
  eexists. eexists. split; [vm_compute; reflexivity|].
  split; [vm_compute; reflexivity|]. repeat split.
Qed.

(** X10.  On a URI that names a file, [getPdfFileInfo] returns without
    touching the world.  The file name it reports is never empty and holds no
    slash: it is the end of the URI after its last slash, or [unknown.pdf]
    when the URI is empty or ends with a slash.  The extension it reports is
    a dot and the end of the file name after its last dot: the file name is
    some text, a dot and that end, which holds no dot; for a file name
    without a dot it is a dot and the whole file name. *)
Theorem getPdfFileInfo_names (pdfUri : jsstring) (w : World) (stored_file : File) :
  lookup pdfUri (files w) = Some stored_file ->
  exists info,
    getPdfFileInfo pdfUri w = (Returned info, w)
    /\ PdfFileInfo.filename info <> []
    /\ free_of slash (PdfFileInfo.filename info)
    /\ ((exists before,
            pdfUri = before ++ PdfFileInfo.filename info
            /\ (before = [] \/ exists b, before = b ++ [slash]))
        \/ (PdfFileInfo.filename info = lit "unknown.pdf"
            /\ (pdfUri = [] \/ exists b, pdfUri = b ++ [slash])))
    /\ exists e,
         PdfFileInfo.extension info = lit "." ++ e
         /\ free_of dot e
         /\ ((exists b, PdfFileInfo.filename info = b ++ [dot] ++ e)
             \/ (free_of dot (PdfFileInfo.filename info)
                 /\ e = PdfFileInfo.filename info)).
Proof.
  intros Hl. eexists. split; [apply (getPdfFileInfo_present _ _ Hl)|].
  cbn [PdfFileInfo.filename PdfFileInfo.extension].
  destruct (split_pop_spec slash pdfUri) as (before & E & Hfree & Hb).
  set (filename := or_string (split_pop slash pdfUri) (lit "unknown.pdf")).
  assert (Hcases : (split_pop slash pdfUri <> [] /\ filename = split_pop slash pdfUri)
                   \/ (split_pop slash pdfUri = [] /\ filename = lit "unknown.pdf")).
  { unfold filename. destruct (split_pop slash pdfUri);
      [right; now split | left; split; [discriminate | reflexivity]]. }
  split; [|split; [|split]].
  - destruct Hcases as [[Hn ->] | [_ ->]]; [exact Hn | discriminate].
  - destruct Hcases as [[_ ->] | [_ ->]]; [exact Hfree | repeat constructor].
  - destruct Hcases as [[_ ->] | [Hnil ->]].
    + left. exists before. now split.
    + right. split; [reflexivity|]. rewrite Hnil, app_nil_r in E.
      rewrite E. exact Hb.
  - exists (split_pop dot filename).
    destruct (split_pop_spec dot filename) as (b & Ef & Hfd & Hbd).
    split; [now destruct (split_pop dot filename)|].
    split; [exact Hfd|].
    destruct Hbd as [-> | (b' & ->)].
    + right. cbn [app] in Ef. split; [rewrite Ef; exact Hfd | now symmetry].
    + left. exists b'. rewrite <- app_assoc in Ef. exact Ef.
Qed.

(** A file without an extension in its name. *)
Lemma getPdfFileInfo_names_witness :
  let notes := lit "file:///data/docs/notes" in
  let w := mkWorld [(notes, mkFile [1; 2; 3]%N 5)] 0 [] in
  lookup notes (files w) = Some (mkFile [1; 2; 3]%N 5)
  /\ exists info,
       getPdfFileInfo notes w = (Returned info, w)
       /\ PdfFileInfo.filename info <> []
       /\ free_of slash (PdfFileInfo.filename info)
       /\ ((exists before,
               notes = before ++ PdfFileInfo.filename info
               /\ (before = [] \/ exists b, before = b ++ [slash]))
           \/ (PdfFileInfo.filename info = lit "unknown.pdf"
               /\ (notes = [] \/ exists b, notes = b ++ [slash])))
       /\ exists e,
            PdfFileInfo.extension info = lit "." ++ e
            /\ free_of dot e
            /\ ((exists b, PdfFileInfo.filename info = b ++ [dot] ++ e)
                \/ (free_of dot (PdfFileInfo.filename info)
                    /\ e = PdfFileInfo.filename info)).
Proof.
  intros notes w. split; [reflexivity|].
  exact (@getPdfFileInfo_names notes w (mkFile [1; 2; 3]%N 5) eq_refl).
Defined.

(** A file name with two dots and a URI that ends with a slash, run: the
    extension is what follows the last dot, and the name of the second is
    [unknown.pdf]. *)
Example getPdfFileInfo_last_dot :
  let report := lit "file:///data/docs/report.final.PDF" in
  let folder := lit "file:///data/docs/" in
  let w := mkWorld [(report, mkFile [1; 2; 3]%N 5);
                    (folder, mkFile []%N 6)] 0 [] in
  (exists info,
      getPdfFileInfo report w = (Returned info, w)
      /\ PdfFileInfo.filename info = lit "report.final.PDF"
      /\ PdfFileInfo.extension info = lit ".PDF")
  /\ (exists info,
         getPdfFileInfo folder w = (Returned info, w)
         /\ PdfFileInfo.filename info = lit "unknown.pdf"
         /\ PdfFileInfo.extension info = lit ".pdf"
         /\ PdfFileInfo.sizeFormatted info = lit "0 KB").
Proof. split; eexists; (split; [reflexivity|]); repeat split. Qed.

(** The same file, run: the extension reported is a dot and the name. *)
Example getPdfFileInfo_without_extension :
  let notes := lit "file:///data/docs/notes" in
  let w := mkWorld [(notes, mkFile [1; 2; 3]%N 5)] 0 [] in
  exists info,
    getPdfFileInfo notes w = (Returned info, w)
    /\ PdfFileInfo.filename info = lit "notes"
    /\ PdfFileInfo.extension info = lit ".notes"
    /\ PdfFileInfo.sizeFormatted info = lit "0.0 KB".
Proof. eexists. split; [reflexivity|]. repeat split. Qed.

(** X11.  The size text of [getPdfFileInfo], for a size of [0 < size < 2^53]
    bytes: below 1048576 bytes it is a figure with one decimal and [KB], from
    there on a figure with one decimal and [MB]; the figure is within 0.05 of
    the size in units of 1024 or 1048576 bytes.  So the [KB] figure goes up
    to 1024.0, which is what the sizes from 1048525 to 1048575 bytes
    show. *)
Theorem formatSize_accuracy (size : Z) :
  (0 < size < 2 ^ 53)%Z ->
  exists n : Z,
    (0 <= n)%Z
    /\ (size < 1048576 ->
        formatSize size
        = Number_toString (n / 10) ++ lit "." ++ Number_toString (n mod 10)
            ++ lit " KB"
        /\ nearest_tenth size 1024 n /\ n <= 10240)%Z
    /\ (1048576 <= size ->
        formatSize size
        = Number_toString (n / 10) ++ lit "." ++ Number_toString (n mod 10)
            ++ lit " MB"
        /\ nearest_tenth size 1048576 n /\ 10 <= n)%Z
    /\ (1048525 <= size < 1048576 -> formatSize size = lit "1024.0 KB")%Z.
Proof.
  intros Hs. assert (Hp : (0 < size)%Z) by apply Hs. clear Hs.
  unfold formatSize, toFixed1, nearest_tenth. cbv zeta.
  replace (Z.eqb size 0) with false by (symmetry; apply Z.eqb_neq; lia).
  change (1024 * 1024)%Z with 1048576%Z.
  change (2 * 1024)%Z with 2048%Z. change (2 * 1048576)%Z with 2097152%Z.
  destruct (Z.ltb_spec size 1048576) as [Hlt | Hge].
  - exists ((20 * size + 1024) / 2048)%Z.
    split; [apply Z.div_pos; lia|]. split; [|split].
    + intros _. split; [now rewrite <- !app_assoc|]. split.
      * pose proof (Z.div_mod (20 * size + 1024) 2048 ltac:(lia)).
        pose proof (Z.mod_pos_bound (20 * size + 1024) 2048 ltac:(lia)). lia.
      * assert ((20 * size + 1024) / 2048 < 10241)%Z
          by (apply Z.div_lt_upper_bound; lia).
        lia.
    + intros H. lia.
    + intros H.
      replace ((20 * size + 1024) / 2048)%Z with 10240%Z.
      * reflexivity.
      * apply (Z.div_unique _ _ _ (20 * size + 1024 - 2048 * 10240)); lia.
  - exists ((20 * size + 1048576) / 2097152)%Z.
    split; [apply Z.div_pos; lia|]. split; [|split].
    + intros H. lia.
    + intros _. split; [now rewrite <- !app_assoc|]. split.
      * pose proof (Z.div_mod (20 * size + 1048576) 2097152 ltac:(lia)).
        pose proof (Z.mod_pos_bound (20 * size + 1048576) 2097152 ltac:(lia)).
        lia.
      * apply Z.div_le_lower_bound; lia.
    + intros H. lia.
Qed.

(** A file of 1048575 bytes, one byte short of the [MB] figures. *)
Lemma formatSize_accuracy_witness :
  (0 < 1048575 < 2 ^ 53)%Z
  /\ exists n : Z,
       (0 <= n)%Z
       /\ (1048575 < 1048576 ->
           formatSize 1048575
           = Number_toString (n / 10) ++ lit "." ++ Number_toString (n mod 10)
               ++ lit " KB"
           /\ nearest_tenth 1048575 1024 n /\ n <= 10240)%Z
       /\ (1048576 <= 1048575 ->
           formatSize 1048575
           = Number_toString (n / 10) ++ lit "." ++ Number_toString (n mod 10)
               ++ lit " MB"
           /\ nearest_tenth 1048575 1048576 n /\ 10 <= n)%Z
       /\ (1048525 <= 1048575 < 1048576 ->
           formatSize 1048575 = lit "1024.0 KB")%Z.
Proof.
  assert (H : (0 < 1048575 < 2 ^ 53)%Z) by (split; reflexivity).
  split; [exact H|]. exact (formatSize_accuracy H).
Defined.

(* ================================================================== *)
(** ** The image editor component *)
(* ================================================================== *)

Section EditorFacts.

Import ImageEditor.

Variable now : Date.

Lemma handleRotateImage_map imageId degrees st :
  editingImages (handleRotateImage imageId degrees st)
  = map (turned imageId degrees) (editingImages st).
Proof. reflexivity. Qed.

Lemma turned_same imageId degrees img :
  same_picture img (turned imageId degrees img).
Proof.
  unfold turned, same_picture. destruct (eqb (id img) imageId); now repeat split.
Qed.

(** A safe integer is its own double. *)
Lemma to_double_exact (z : Z) : safe_integer z -> to_double z = z.
Proof.
  unfold safe_integer, to_double. intros H. cbv zeta.
  replace (Z.log2 (Z.abs z) <? 53)%Z with true; [reflexivity|].
  symmetry. apply Z.ltb_lt.
  destruct (Z.eq_dec (Z.abs z) 0) as [E | E].
  - rewrite E. reflexivity.
  - apply Z.log2_lt_pow2; [lia | exact H].
Qed.

Lemma Number_add_exact (a b : Z) :
  safe_integer (a + b) -> Number_add a b = (a + b)%Z.
Proof. apply to_double_exact. Qed.

Lemma small_safe (z : Z) : (-1000 < z < 1000)%Z -> safe_integer z.
Proof.
  intros H. unfold safe_integer.
  apply Z.lt_trans with 1000%Z; [lia | reflexivity].
Qed.

Lemma rem_360_range (a : Z) :
  (-360 < Z.rem a 360 < 360)%Z /\ (0 <= a -> 0 <= Z.rem a 360 < 360)%Z.
Proof.
  split.
  - pose proof (Z.rem_bound_abs a 360 ltac:(lia)) as H.
    assert (Z.abs (Z.rem a 360) < 360)%Z by (simpl Z.abs in H; lia). lia.
  - intros Ha. apply Z.rem_bound_pos; lia.
Qed.

Lemma quarter_turn (r : Z) :
  (0 <= r < 360)%Z ->
  Number_rem (Number_add (or_zero r) 90) 360
  = (if r <? 270 then r + 90 else r - 270)%Z
  /\ (0 <= Number_rem (Number_add (or_zero r) 90) 360 < 360)%Z.
Proof.
  intros Hr. rewrite or_zero_id.
  rewrite Number_add_exact by (apply small_safe; lia).
  unfold Number_rem. rewrite Z.rem_mod_nonneg by lia.
  destruct (Z.ltb_spec r 270); split; Z.div_mod_to_equations; lia.
Qed.

Lemma quarter_turns (r : Z) :
  (0 <= r < 360)%Z ->
  Number_rem
    (Number_add
       (or_zero
          (Number_rem
             (Number_add
                (or_zero
                   (Number_rem
                      (Number_add
                         (or_zero (Number_rem (Number_add (or_zero r) 90) 360))
                         90) 360)) 90) 360)) 90) 360 = r.
Proof.
  intros Hr.
  destruct (quarter_turn Hr) as [E1 B1]. rewrite E1 in *.
  destruct (quarter_turn B1) as [E2 B2]. rewrite E2 in *.
  destruct (quarter_turn B2) as [E3 B3]. rewrite E3 in *.
  destruct (quarter_turn B3) as [E4 _]. rewrite E4.
  repeat match goal with
         | |- context [(?a <? 270)%Z] => destruct (Z.ltb_spec a 270)
         end; lia.
Qed.

Lemma filter_unique_length (imageId : jsstring) (images : list ImageItem) :
  NoDup (map id images) ->
  (exists img, In img images /\ id img = imageId) ->
  S (length (filter (fun img => negb (eqb (id img) imageId)) images))
  = length images.
Proof.
  induction images as [|x t IH]; intros Hnd (img & Hin & Hid).
  - destruct Hin.
  - simpl map in Hnd. inversion Hnd as [|? ? Hx Ht]; subst.
    simpl filter. destruct (eqb (id x) (id img)) eqn:E.
    + apply eqb_eq in E. simpl. f_equal.
      assert (Hall : forall y, In y t -> negb (eqb (id y) (id img)) = true).
      { intros y Hy. apply negb_true_iff, eqb_neq. intros Ey.
        apply Hx. rewrite E, <- Ey. now apply in_map. }
      clear -Hall. induction t as [|y t IHt]; [reflexivity|].
      simpl. rewrite (Hall y (or_introl eq_refl)). simpl. f_equal.
      apply IHt. intros z Hz. apply Hall. now right.
    + simpl. f_equal. apply IH; [exact Ht|].
      destruct Hin as [-> | Hin]; [now rewrite eqb_refl in E|].
      now exists img.
Qed.

End EditorFacts.

Section EditorFacts2.

Import ImageEditor.

Lemma Forall2_map_self {A} (R : A -> A -> Prop) (f : A -> A) (l : list A) :
  Forall (fun a => R a (f a)) l -> Forall2 R l (map f l).
Proof. induction 1; simpl; constructor; assumption. Qed.

Lemma turned_other imageId degrees img :
  id img <> imageId -> turned imageId degrees img = img.
Proof.
  intros H. unfold turned. apply eqb_neq in H. now rewrite H.
Qed.

Lemma turned_match imageId degrees img :
  id img = imageId ->
  turned imageId degrees img
  = with_rotation img
      (Number_rem (Number_add (rotation_or_zero img) degrees) 360).
Proof.
  intros H. unfold turned. apply eqb_eq in H. now rewrite H.
Qed.

Lemma rotation_of_with_rotation img r :
  rotation_or_zero (with_rotation img r) = r.
Proof. unfold rotation_or_zero, with_rotation. simpl. apply or_zero_id. Qed.

End EditorFacts2.

(** X12.  [handleRotateImage] on images whose turn is exact, that is, the
    rotation of every image with the id, the degrees and their sum are safe
    integers.  It keeps the name and the name dialog as they are and every
    image in its place with its id, URI, file name and dimensions.  An image
    with another id is unchanged; an image with the id gets the remainder by
    360 of its rotation plus the degrees, which lies strictly between -360
    and 360, and from 0 to 359 when that sum is not negative. *)
Theorem handleRotateImage_keeps_pictures
  (imageId : jsstring) (degrees : Z) (st : ImageEditor.State) :
  Forall (fun img =>
            ImageEditor.id img = imageId -> ImageEditor.exact_turn degrees img)
    (ImageEditor.editingImages st) ->
  let st' := ImageEditor.handleRotateImage imageId degrees st in
  ImageEditor.pdfName st' = ImageEditor.pdfName st
  /\ ImageEditor.showNameInput st' = ImageEditor.showNameInput st
  /\ Forall2
       (fun a b =>
          ImageEditor.same_picture a b
          /\ (ImageEditor.id a <> imageId -> b = a)
          /\ (ImageEditor.id a = imageId ->
              ImageEditor.rotation b
              = Some (Z.rem (ImageEditor.rotation_or_zero a + degrees) 360)
              /\ (-360 < ImageEditor.rotation_or_zero b < 360)%Z
              /\ (0 <= ImageEditor.rotation_or_zero a + degrees ->
                  0 <= ImageEditor.rotation_or_zero b < 360)%Z))
       (ImageEditor.editingImages st) (ImageEditor.editingImages st').
Proof.
  intros Hexact. cbv zeta. split; [reflexivity|]. split; [reflexivity|].
  rewrite handleRotateImage_map. apply Forall2_map_self.
  eapply Forall_impl; [|exact Hexact].
  intros a Ha. split; [apply turned_same|]. split.
  - intros H. now apply turned_other.
  - intros H. destruct (Ha H) as (_ & _ & Hsum).
    rewrite (@turned_match imageId degrees a H).
    rewrite rotation_of_with_rotation.
    rewrite (Number_add_exact _ _ Hsum). unfold Number_rem.
    split; [reflexivity|]. apply rem_360_range.
Qed.

(** Two images, a quarter turn of the first. *)
Lemma handleRotateImage_keeps_pictures_witness :
  let a := ImageEditor.mkImageItem (lit "a") (lit "file:///a.jpg")
             (lit "a.jpg") 800 600 (Some 270%Z) in
  let b := ImageEditor.mkImageItem (lit "b") (lit "file:///b.jpg")
             (lit "b.jpg") 800 600 None in
  let st := ImageEditor.mkState [a; b] (lit "scan") false in
  let st' := ImageEditor.handleRotateImage (lit "a") 90 st in
  Forall (fun img =>
            ImageEditor.id img = lit "a" -> ImageEditor.exact_turn 90 img)
    (ImageEditor.editingImages st)
  /\ ImageEditor.editingImages st' = [ImageEditor.with_rotation a 0; b]
  /\ Forall2
       (fun a b =>
          ImageEditor.same_picture a b
          /\ (ImageEditor.id a <> lit "a" -> b = a)
          /\ (ImageEditor.id a = lit "a" ->
              ImageEditor.rotation b
              = Some (Z.rem (ImageEditor.rotation_or_zero a + 90) 360)
              /\ (-360 < ImageEditor.rotation_or_zero b < 360)%Z
              /\ (0 <= ImageEditor.rotation_or_zero a + 90 ->
                  0 <= ImageEditor.rotation_or_zero b < 360)%Z))
       (ImageEditor.editingImages st) (ImageEditor.editingImages st').
Proof.
  intros a b st st'.
  assert (H : Forall (fun img =>
                        ImageEditor.id img = lit "a" ->
                        ImageEditor.exact_turn 90 img)
                (ImageEditor.editingImages st)).
  { constructor; [intros _; repeat split|].
    constructor; [intros E; vm_compute in E; discriminate E | constructor]. }
  split; [exact H|]. split; [reflexivity|].
  exact (proj2 (proj2 (@handleRotateImage_keeps_pictures (lit "a") 90 st H))).
Defined.

(** Beyond the safe integers the sum is rounded before the remainder is
    taken: a rotation of 10^17 turned by 90 degrees becomes 16, where the
    remainder of the exact sum is 10. *)
Example handleRotateImage_rounds :
  let a := ImageEditor.mkImageItem (lit "a") (lit "file:///a.jpg")
             (lit "a.jpg") 800 600 (Some (10 ^ 17)%Z) in
  let st := ImageEditor.mkState [a] (lit "scan") false in
  Number_add (10 ^ 17) 90 = (10 ^ 17 + 96)%Z
  /\ ImageEditor.editingImages (ImageEditor.handleRotateImage (lit "a") 90 st)
     = [ImageEditor.with_rotation a 16]
  /\ Z.rem (10 ^ 17 + 90) 360 = 10%Z.
Proof. repeat split. Qed.

(** X13.  Four quarter turns of the images with some id, their rotations
    being from 0 to 359, bring every image back: same id, URI, file name and
    dimensions, and the same rotation on show. *)
Theorem four_quarter_turns (imageId : jsstring) (st : ImageEditor.State) :
  Forall (fun img =>
            ImageEditor.id img = imageId ->
            (0 <= ImageEditor.rotation_or_zero img < 360)%Z)
    (ImageEditor.editingImages st) ->
  let turn := ImageEditor.handleRotateImage imageId 90 in
  Forall2
    (fun a b =>
       ImageEditor.same_picture a b
       /\ ImageEditor.rotation_or_zero b = ImageEditor.rotation_or_zero a)
    (ImageEditor.editingImages st)
    (ImageEditor.editingImages (turn (turn (turn (turn st))))).
Proof.
  intros Hr turn. unfold turn.
  rewrite !handleRotateImage_map, !map_map.
  apply Forall2_map_self. eapply Forall_impl; [|exact Hr].
  intros a Ha.
  destruct (eqb (ImageEditor.id a) imageId) eqn:E.
  - apply eqb_eq in E. specialize (Ha E).
    assert (T : forall img r,
               ImageEditor.id (ImageEditor.with_rotation img r)
               = ImageEditor.id img) by reflexivity.
    rewrite (@turned_match imageId 90 a E).
    rewrite (@turned_match imageId 90 (ImageEditor.with_rotation a _))
      by (now rewrite T).
    rewrite (@turned_match imageId 90
               (ImageEditor.with_rotation (ImageEditor.with_rotation a _) _))
      by (now rewrite !T).
    rewrite (@turned_match imageId 90
               (ImageEditor.with_rotation
                  (ImageEditor.with_rotation (ImageEditor.with_rotation a _) _)
                  _))
      by (now rewrite !T).
    rewrite !rotation_of_with_rotation.
    split; [now repeat split|].
    pose proof (@quarter_turns _ Ha) as Q. rewrite !or_zero_id in Q. exact Q.
  - apply eqb_neq in E. rewrite !(@turned_other imageId 90 a E).
    split; [now repeat split | reflexivity].
Qed.

(** Two images, the first a quarter turn on. *)
Lemma four_quarter_turns_witness :
  let a := ImageEditor.mkImageItem (lit "a") (lit "file:///a.jpg")
             (lit "a.jpg") 800 600 (Some 90%Z) in
  let b := ImageEditor.mkImageItem (lit "b") (lit "file:///b.jpg")
             (lit "b.jpg") 800 600 None in
  let st := ImageEditor.mkState [a; b] (lit "scan") false in
  let turn := ImageEditor.handleRotateImage (lit "a") 90 in
  Forall (fun img =>
            ImageEditor.id img = lit "a" ->
            (0 <= ImageEditor.rotation_or_zero img < 360)%Z)
    (ImageEditor.editingImages st)
  /\ Forall2
       (fun a b =>
          ImageEditor.same_picture a b
          /\ ImageEditor.rotation_or_zero b = ImageEditor.rotation_or_zero a)
       (ImageEditor.editingImages st)
       (ImageEditor.editingImages (turn (turn (turn (turn st))))).
Proof.
  intros a b st turn.
  assert (H : Forall (fun img =>
                        ImageEditor.id img = lit "a" ->
                        (0 <= ImageEditor.rotation_or_zero img < 360)%Z)
                (ImageEditor.editingImages st)).
  { constructor; [intros _; vm_compute; split; [discriminate | reflexivity]|].
    constructor; [intros E; vm_compute in E; discriminate E | constructor]. }
  split; [exact H|]. exact (@four_quarter_turns (lit "a") st H).
Defined.

(** X14.  The [Remove] button leaves no image with the id, and leaves the
    name dialog as it is.  The name follows the number of images of the
    render that raised the dialog, not the images left: with two images or
    more in that render it becomes the default name for one image less than
    that render had, with one image or none it stays as it is.  When the ids
    of the images are all different and the id is one of them, one image
    less is left; the name then is the default name for the number of images
    left when the state still has as many images as that render had, and at
    least two. *)
Theorem handleRemoveImage_renames
  (now : Date) (imageId : jsstring) (rendered st : ImageEditor.State) :
  let st' := ImageEditor.handleRemoveImage_onPress now imageId rendered st in
  Forall (fun img => ImageEditor.id img <> imageId)
    (ImageEditor.editingImages st')
  /\ (forall img, In img (ImageEditor.editingImages st) ->
                  ImageEditor.id img <> imageId ->
                  In img (ImageEditor.editingImages st'))
  /\ ImageEditor.showNameInput st' = ImageEditor.showNameInput st
  /\ (1 < length (ImageEditor.editingImages rendered) ->
      ImageEditor.pdfName st'
      = generateDefaultPdfName now
          (Z.of_nat (length (ImageEditor.editingImages rendered)) - 1))
  /\ (length (ImageEditor.editingImages rendered) <= 1 ->
      ImageEditor.pdfName st' = ImageEditor.pdfName st)
  /\ (NoDup (map ImageEditor.id (ImageEditor.editingImages st)) ->
      (exists img, In img (ImageEditor.editingImages st)
                   /\ ImageEditor.id img = imageId) ->
      S (length (ImageEditor.editingImages st'))
      = length (ImageEditor.editingImages st)
      /\ (length (ImageEditor.editingImages rendered)
          = length (ImageEditor.editingImages st) ->
          1 < length (ImageEditor.editingImages st) ->
          ImageEditor.pdfName st'
          = generateDefaultPdfName now
              (Z.of_nat (length (ImageEditor.editingImages st'))))).
Proof.
  cbv zeta.
  assert (Himgs : ImageEditor.editingImages
                    (ImageEditor.handleRemoveImage_onPress now imageId
                       rendered st)
                  = filter (fun img => negb (eqb (ImageEditor.id img) imageId))
                      (ImageEditor.editingImages st)).
  { unfold ImageEditor.handleRemoveImage_onPress. cbv zeta.
    now destruct (Nat.ltb 1 _). }
  assert (Hname : 1 < length (ImageEditor.editingImages rendered) ->
                  ImageEditor.pdfName
                    (ImageEditor.handleRemoveImage_onPress now imageId
                       rendered st)
                  = generateDefaultPdfName now
                      (Z.of_nat (length (ImageEditor.editingImages rendered))
                       - 1)).
  { intros Hlen. unfold ImageEditor.handleRemoveImage_onPress. cbv zeta.
    apply Nat.ltb_lt in Hlen. now rewrite Hlen. }
  split; [|split; [|split; [|split; [exact Hname|split]]]].
  - rewrite Himgs. apply Forall_forall. intros img Hin.
    apply filter_In in Hin. destruct Hin as [_ H].
    now apply negb_true_iff, eqb_neq in H.
  - intros img Hin Hid. rewrite Himgs. apply filter_In. split; [exact Hin|].
    now apply negb_true_iff, eqb_neq.
  - unfold ImageEditor.handleRemoveImage_onPress. cbv zeta.
    now destruct (Nat.ltb 1 _).
  - intros Hlen. unfold ImageEditor.handleRemoveImage_onPress. cbv zeta.
    replace (Nat.ltb 1 (length (ImageEditor.editingImages rendered)))
      with false by (symmetry; apply Nat.ltb_ge; lia).
    reflexivity.
  - intros Hnd Hin. rewrite Himgs.
    pose proof (@filter_unique_length imageId _ Hnd Hin) as L.
    split; [exact L|]. intros Hsame Hlen.
    rewrite <- Himgs, Hname by lia. f_equal. rewrite Himgs. lia.
Qed.

(** Three images, the second removed from the dialog of their render. *)
Lemma handleRemoveImage_renames_witness :
  let now := mkDate 2024 0 5 7 8 9 in
  let image n := ImageEditor.mkImageItem (lit n) (lit "file:///x.jpg")
                   (lit "x.jpg") 800 600 None in
  let st := ImageEditor.mkState [image "a"; image "b"; image "c"]%string
              (lit "Document-2024-01-05-070809-3images.pdf") true in
  let st' := ImageEditor.handleRemoveImage_onPress now (lit "b") st st in
  NoDup (map ImageEditor.id (ImageEditor.editingImages st))
  /\ (exists img, In img (ImageEditor.editingImages st)
                  /\ ImageEditor.id img = lit "b")
  /\ 1 < length (ImageEditor.editingImages st)
  /\ S (length (ImageEditor.editingImages st'))
     = length (ImageEditor.editingImages st)
  /\ ImageEditor.pdfName st' = lit "Document-2024-01-05-070809-2images.pdf".
Proof.
  intros now image st st'.
  assert (Hnd : NoDup (map ImageEditor.id (ImageEditor.editingImages st))).
  { repeat constructor; simpl; intuition discriminate. }
  assert (Hin : exists img, In img (ImageEditor.editingImages st)
                            /\ ImageEditor.id img = lit "b").
  { exists (image "b"%string). split; [simpl; auto | reflexivity]. }
  assert (Hlen : 1 < length (ImageEditor.editingImages st)) by (simpl; lia).
  destruct (handleRemoveImage_renames now (lit "b") st st)
    as (_ & _ & _ & _ & _ & H).
  destruct (H Hnd Hin) as [L N].
  split; [exact Hnd|]. split; [exact Hin|]. split; [exact Hlen|].
  split; [exact L|]. unfold st'. rewrite (N eq_refl Hlen). reflexivity.
Defined.

(** Two [Remove] buttons of the same render of three images, pressed one
    after the other: one image is left, and the name is the default name
    for two. *)
Example handleRemoveImage_stale_count :
  let now := mkDate 2024 0 5 7 8 9 in
  let image n := ImageEditor.mkImageItem (lit n) (lit "file:///x.jpg")
                   (lit "x.jpg") 800 600 None in
  let rendered := ImageEditor.mkState [image "a"; image "b"; image "c"]%string
                    (lit "Document-2024-01-05-070809-3images.pdf") true in
  let st1 := ImageEditor.handleRemoveImage_onPress now (lit "a") rendered
               rendered in
  let st2 := ImageEditor.handleRemoveImage_onPress now (lit "b") rendered
               st1 in
  ImageEditor.editingImages st2 = [image "c"%string]
  /\ ImageEditor.pdfName st2 = lit "Document-2024-01-05-070809-2images.pdf".
Proof. split; reflexivity. Qed.

(** X15.  [handleConfirmPdfName] with a blank name only alerts and changes
    nothing.  It calls [onGeneratePdf] only with the images being edited, at
    least one, and with the name [sanitizePdfName] makes of the trimmed name:
    a name without reserved or control characters, not blank, which it also
    puts in the state while it closes the name dialog. *)
Theorem handleConfirmPdfName_guards (now : Date) (st : ImageEditor.State) :
  let result := ImageEditor.handleConfirmPdfName now st in
  let final :=
    sanitizePdfName now (ImageEditor.editingImages st)
      (trim (ImageEditor.pdfName st)) in
  (trim (ImageEditor.pdfName st) = [] ->
   result = (st, [ImageEditor.Alert (lit "Error")
                    (lit "Please enter a PDF name")]))
  /\ (forall images name,
         In (ImageEditor.onGeneratePdf images name) (snd result) ->
         images = ImageEditor.editingImages st /\ images <> []
         /\ trim (ImageEditor.pdfName st) <> []
         /\ name = final
         /\ ImageEditor.pdfName (fst result) = name
         /\ ImageEditor.showNameInput (fst result) = false
         /\ Forall (fun c => invalid_filename_char c = false) name
         /\ trim name <> [])
  /\ (trim (ImageEditor.pdfName st) <> [] ->
      ImageEditor.editingImages st <> [] ->
      snd result = [ImageEditor.onGeneratePdf (ImageEditor.editingImages st)
                      final]).
Proof.
  cbv zeta. unfold ImageEditor.handleConfirmPdfName. cbv zeta.
  destruct (eqb (trim (ImageEditor.pdfName st)) []) eqn:E.
  - apply eqb_eq in E. split; [reflexivity|]. split.
    + intros images name [H | []]. discriminate H.
    + intros H. congruence.
  - apply eqb_neq in E. split; [congruence|].
    unfold ImageEditor.generatePdfWithName. cbn [fst snd].
    destruct (ImageEditor.editingImages st) as [|img rest] eqn:Ei.
    + split; [|congruence]. intros images name [H | []]. discriminate H.
    + cbn [length Nat.eqb]. split.
      * intros images name [H | []]. injection H as <- <-.
        cbn [ImageEditor.pdfName ImageEditor.showNameInput].
        repeat split; try assumption; try discriminate.
        -- apply sanitizePdfName_valid.
        -- apply sanitizePdfName_visible.
      * reflexivity.
Qed.

(** One image, the name [ my/scan ]. *)
Lemma handleConfirmPdfName_guards_witness :
  let now := mkDate 2024 0 5 7 8 9 in
  let image := ImageEditor.mkImageItem (lit "a") (lit "file:///a.jpg")
                 (lit "a.jpg") 800 600 None in
  let st := ImageEditor.mkState [image] (lit " my/scan ") true in
  trim (ImageEditor.pdfName st) <> []
  /\ ImageEditor.editingImages st <> []
  /\ snd (ImageEditor.handleConfirmPdfName now st)
     = [ImageEditor.onGeneratePdf [image] (lit "my_scan.pdf")].
Proof.
  intros now image st.
  assert (H1 : trim (ImageEditor.pdfName st) <> []) by (vm_compute; discriminate).
  assert (H2 : ImageEditor.editingImages st <> []) by discriminate.
  destruct (handleConfirmPdfName_guards now st) as (_ & _ & H).
  split; [exact H1|]. split; [exact H2|].
  rewrite (H H1 H2). reflexivity.
Defined.

(* ================================================================== *)
(** ** generatePdf *)
(* ================================================================== *)

Section GenerateFacts.

Variable P : Platform.
Variable R : Renderer.

Lemma image_source_readable (img : EditedImage.t) (w : World) :
  readable (files w) img ->
  image_source R img w = (Returned (embedded R (files w) img), w).
Proof.
  unfold readable, image_source, embedded, bind, readAsStringAsync, ret.
  destruct (startsWith (lit "data:image/") (EditedImage.uri img));
    [reflexivity|].
  intros [H | H]; [discriminate|].
  destruct (lookup (EditedImage.uri img) (files w)); [reflexivity | congruence].
Qed.

Lemma image_source_missing (img : EditedImage.t) (w : World) :
  startsWith (lit "data:image/") (EditedImage.uri img) = false ->
  lookup (EditedImage.uri img) (files w) = None ->
  image_source R img w = (Thrown (read_error R (EditedImage.uri img)), w).
Proof.
  intros Hd Hl. unfold image_source, bind, readAsStringAsync.
  now rewrite Hd, Hl.
Qed.

Lemma image_source_ends (img : EditedImage.t) (w : World) :
  (exists src, image_source R img w = (Returned src, w))
  \/ (exists message, image_source R img w = (Thrown message, w)).
Proof.
  destruct (startsWith (lit "data:image/") (EditedImage.uri img)) eqn:Hd.
  - left. eexists. apply image_source_readable. now left.
  - destruct (lookup (EditedImage.uri img) (files w)) eqn:Hl.
    + left. eexists. apply image_source_readable. right. congruence.
    + right. eexists. now apply image_source_missing.
Qed.

Lemma map_io_sources (images : list EditedImage.t) (w : World) :
  Forall (readable (files w)) images ->
  map_io (image_source R) images w
  = (Returned (map (embedded R (files w)) images), w).
Proof.
  induction 1 as [|img t Hi _ IH]; [reflexivity|].
  cbn [map_io map]. unfold bind at 1. rewrite (@image_source_readable img w Hi).
  unfold bind at 1. now rewrite IH.
Qed.

Lemma map_io_sources_missing (images : list EditedImage.t) (w : World) :
  (exists img, In img images
               /\ startsWith (lit "data:image/") (EditedImage.uri img) = false
               /\ lookup (EditedImage.uri img) (files w) = None) ->
  exists message, map_io (image_source R) images w = (Thrown message, w).
Proof.
  induction images as [|x t IH]; intros (img & Hin & Hd & Hl); [destruct Hin|].
  cbn [map_io]. unfold bind at 1.
  destruct (image_source_ends x w) as [(src & E) | (message & E)]; rewrite E.
  - destruct Hin as [-> | Hin].
    + rewrite (@image_source_missing _ _ Hd Hl) in E. discriminate E.
    + destruct IH as (message & Em); [now exists img|].
      exists message. unfold bind. now rewrite Em.
  - now exists message.
Qed.

(** [generatePdf] up to the printed file. *)
Lemma generatePdf_printed (fuel : nat) (images : list EditedImage.t)
  (pdfName : option jsstring) (w : World) (printed : jsstring) (file : File) :
  images <> [] ->
  Forall (readable (files w)) images ->
  print_outcome R (files w) (html_page (map (embedded R (files w)) images))
  = PrintSucceeds printed file ->
  generatePdf P R fuel images pdfName w
  = let wp :=
      mkWorld (write printed file (files w)) (ticks w)
        (console w
         ++ [console_log_entry "Generating PDF with"
               (Number_toString (Z.of_nat (length images)) ++ lit " images")]) in
    match pdfName with
    | Some (c :: rest) => renamePdf P fuel printed (c :: rest) wp
    | _ => (Returned printed, wp)
    end.
Proof.
  intros Hne Hread Hprint. unfold generatePdf.
  destruct images as [|img rest]; [congruence|]. cbn [length Nat.eqb].
  unfold bind at 1. unfold console_log at 1.
  unfold bind at 1.
  rewrite (@map_io_sources (img :: rest)
             (mkWorld (files w) (ticks w)
                (console w
                 ++ [console_log_entry "Generating PDF with"
                       (Number_toString (Z.of_nat (S (length rest)))
                        ++ lit " images")])))
    by exact Hread.
  cbn [files]. unfold bind at 1. unfold printToFileAsync at 1. cbn [files].
  rewrite Hprint. unfold set_files. cbn [files ticks console].
  cbv zeta. destruct pdfName as [[|c r]|]; reflexivity.
Qed.

End GenerateFacts.

(** X16.  [generatePdf] without an image, or with an image that is not a data
    URI and names no file, rejects before anything is printed: no file is
    created or changed and the clock is not read.  Without an image the
    rejection is "No images to generate PDF" and the world is untouched. *)
Theorem generatePdf_rejects_early
  (P : Platform) (R : Renderer) (fuel : nat) (images : list EditedImage.t)
  (pdfName : option jsstring) (w : World) :
  images = []
  \/ (exists img, In img images
                  /\ startsWith (lit "data:image/") (EditedImage.uri img) = false
                  /\ lookup (EditedImage.uri img) (files w) = None) ->
  exists message w',
    generatePdf P R fuel images pdfName w = (Thrown message, w')
    /\ files w' = files w /\ ticks w' = ticks w
    /\ (images = [] -> message = lit "No images to generate PDF" /\ w' = w).
Proof.
  intros [-> | Hmissing].
  - eexists. eexists. split; [reflexivity|]. repeat split.
  - unfold generatePdf. destruct images as [|img rest].
    + destruct Hmissing as (x & [] & _).
    + cbn [length Nat.eqb]. unfold bind at 1. unfold console_log at 1.
      unfold bind at 1.
      destruct (@map_io_sources_missing R (img :: rest)
                  (mkWorld (files w) (ticks w)
                     (console w
                      ++ [console_log_entry "Generating PDF with"
                            (Number_toString (Z.of_nat (S (length rest)))
                             ++ lit " images")])) Hmissing)
        as (message & E).
      rewrite E. eexists. eexists. split; [reflexivity|].
      repeat split; discriminate.
Qed.

(** An image whose file is gone. *)
Lemma generatePdf_rejects_early_witness :
  let R := mkRenderer (fun _ => lit "AAAA") (fun _ => lit "ENOENT")
             (fun _ _ => PrintSucceeds print1 (mkFile [37]%N 1)) in
  let img := EditedImage.mk (lit "1") (lit "file:///photos/gone.jpg") 800 600
               (lit "gone.jpg") None None in
  let w := mkWorld [] 0 [] in
  (exists x, In x [img]
             /\ startsWith (lit "data:image/") (EditedImage.uri x) = false
             /\ lookup (EditedImage.uri x) (files w) = None)
  /\ exists message w',
       generatePdf sound_platform R 3 [img] (Some (lit "Invoice")) w
       = (Thrown message, w')
       /\ files w' = files w /\ ticks w' = ticks w
       /\ ([img] = [] -> message = lit "No images to generate PDF" /\ w' = w).
Proof.
  intros R img w.
  assert (H : exists x, In x [img]
                /\ startsWith (lit "data:image/") (EditedImage.uri x) = false
                /\ lookup (EditedImage.uri x) (files w) = None).
  { exists img. split; [now left|]. split; reflexivity. }
  split; [exact H|].
  exact (@generatePdf_rejects_early sound_platform R 3 [img]
           (Some (lit "Invoice")) w (or_intror H)).
Defined.

(** X17.  [generatePdf] without a name, or with the empty name, when the
    images can be read and the printer works: it returns the URI of the
    printed file and does no more than write that file; nothing is renamed,
    whatever the document directory. *)
Theorem generatePdf_unnamed
  (P : Platform) (R : Renderer) (fuel : nat) (images : list EditedImage.t)
  (pdfName : option jsstring) (w : World) (printed : jsstring) (file : File) :
  images <> [] ->
  Forall (readable (files w)) images ->
  print_outcome R (files w) (html_page (map (embedded R (files w)) images))
  = PrintSucceeds printed file ->
  pdfName = None \/ pdfName = Some [] ->
  exists w',
    generatePdf P R fuel images pdfName w = (Returned printed, w')
    /\ files w' = write printed file (files w)
    /\ ticks w' = ticks w.
Proof.
  intros Hne Hread Hprint Hname.
  rewrite (@generatePdf_printed P R fuel images pdfName w printed file
             Hne Hread Hprint).
  cbv zeta.
  destruct Hname as [-> | ->]; eexists; split; try reflexivity; split; reflexivity.
Qed.

(** One image given as a data URI, the empty name. *)
Lemma generatePdf_unnamed_witness :
  let R := mkRenderer (fun _ => lit "AAAA") (fun _ => lit "ENOENT")
             (fun _ _ => PrintSucceeds print1 (mkFile [37]%N 1)) in
  let img := EditedImage.mk (lit "1") (lit "data:image/png;base64,AAAA") 800
               600 (lit "a.png") None None in
  let w := mkWorld [] 0 [] in
  [img] <> []
  /\ Forall (readable (files w)) [img]
  /\ print_outcome R (files w) (html_page (map (embedded R (files w)) [img]))
     = PrintSucceeds print1 (mkFile [37]%N 1)
  /\ exists w',
       generatePdf sound_platform R 0 [img] (Some []) w = (Returned print1, w')
       /\ files w' = write print1 (mkFile [37]%N 1) (files w)
       /\ ticks w' = ticks w.
Proof.
  intros R img w.
  assert (H1 : [img] <> []) by discriminate.
  assert (H2 : Forall (readable (files w)) [img])
    by (constructor; [left; reflexivity | constructor]).
  split; [exact H1|]. split; [exact H2|]. split; [reflexivity|].
  exact (@generatePdf_unnamed sound_platform R 0 [img] (Some []) w print1
           (mkFile [37]%N 1) H1 H2 eq_refl (or_intror eq_refl)).
Defined.

(** X18.  [generatePdf] with a name, when the images can be read, the
    printer works, the document directory is known and the copy works: it
    returns the URI of a clean name under the directory that named no file
    after the printing, the document there has the bytes of the printed file,
    and [listAllPdfs] lists it. *)
Theorem generatePdf_named
  (P : Platform) (R : Renderer) (images : list EditedImage.t)
  (name docDir : jsstring) (w : World) (printed : jsstring) (file : File) :
  images <> [] ->
  Forall (readable (files w)) images ->
  print_outcome R (files w) (html_page (map (embedded R (files w)) images))
  = PrintSucceeds printed file ->
  name <> [] ->
  documentDirectory P = Some docDir ->
  copy_reliable P ->
  exists k final mtime w' items w'',
    (forall fuel, k < fuel ->
       generatePdf P R fuel images (Some name) w
       = (Returned (docDir ++ final), w'))
    /\ clean_name final /\ ends_with_pdf_ci final = true
    /\ lookup (docDir ++ final) (write printed file (files w)) = None
    /\ lookup (docDir ++ final) (files w') = Some (mkFile (data file) mtime)
    /\ listAllPdfs P w' = (Returned items, w'')
    /\ In (docDir ++ final) (map uri items).
Proof.
  intros Hne Hread Hprint Hname Hdir Hcopy.
  set (wp := mkWorld (write printed file (files w)) (ticks w)
               (console w
                ++ [console_log_entry "Generating PDF with"
                      (Number_toString (Z.of_nat (length images))
                       ++ lit " images")])).
  assert (Hsrc : lookup printed (files wp) = Some file)
    by apply lookup_write_same.
  destruct (resolves_exists P docDir wp name) as (k & final & v & Hres & _).
  destruct (resolves_facts Hres) as (_ & _ & _ & Hclean & Hext).
  destruct (renamePdf_stores_at printed Hdir Hsrc Hcopy Hres)
    as (mtime & w' & Hrun & _ & Hdiff & Hfree & Hfiles).
  assert (Hl : lookup (docDir ++ final) (files w')
               = Some (mkFile (data file) mtime)).
  { cbv zeta in Hfiles. rewrite Hfiles. destruct (delete_error P _ printed).
    - apply lookup_write_same.
    - rewrite lookup_remove_other by congruence. apply lookup_write_same. }
  destruct (@listAllPdfs_result P docDir w' Hdir) as (items0 & w'' & El & _).
  exists k, final, mtime, w', (Array_sort by_newest items0), w''.
  split; [|split; [exact Hclean|split; [exact Hext|split; [exact Hfree|
          split; [exact Hl|split; [exact El|]]]]]].
  - intros fuel Hfuel.
    rewrite (@generatePdf_printed P R fuel images (Some name) w printed file
               Hne Hread Hprint).
    cbv zeta. destruct name as [|c rest]; [congruence|]. now apply Hrun.
  - eapply listed; eauto. rewrite Hl. discriminate.
Qed.

(** One image from a file, the name [Invoice]. *)
Lemma generatePdf_named_witness :
  let R := mkRenderer (fun _ => lit "AAAA") (fun _ => lit "ENOENT")
             (fun _ _ => PrintSucceeds print1 (mkFile [37]%N 1)) in
  let img := EditedImage.mk (lit "1") (lit "file:///photos/a.png") 800 600
               (lit "a.png") None None in
  let w := mkWorld [(lit "file:///photos/a.png", mkFile [1; 2]%N 7)] 0 [] in
  [img] <> []
  /\ Forall (readable (files w)) [img]
  /\ print_outcome R (files w) (html_page (map (embedded R (files w)) [img]))
     = PrintSucceeds print1 (mkFile [37]%N 1)
  /\ lit "Invoice" <> []
  /\ documentDirectory sound_platform = Some docs
  /\ copy_reliable sound_platform
  /\ exists k final mtime w' items w'',
       (forall fuel, k < fuel ->
          generatePdf sound_platform R fuel [img] (Some (lit "Invoice")) w
          = (Returned (docs ++ final), w'))
       /\ clean_name final /\ ends_with_pdf_ci final = true
       /\ lookup (docs ++ final)
            (write print1 (mkFile [37]%N 1) (files w)) = None
       /\ lookup (docs ++ final) (files w')
          = Some (mkFile (data (mkFile [37]%N 1)) mtime)
       /\ listAllPdfs sound_platform w' = (Returned items, w'')
       /\ In (docs ++ final) (map uri items).
Proof.
  intros R img w.
  assert (H1 : [img] <> []) by discriminate.
  assert (H2 : Forall (readable (files w)) [img]).
  { constructor; [right; vm_compute; discriminate | constructor]. }
  assert (H3 : lit "Invoice" <> []) by discriminate.
  assert (Hc : copy_reliable sound_platform)
    by (intros fs from to; exists 1700000002%Z; reflexivity).
  split; [exact H1|]. split; [exact H2|]. split; [reflexivity|].
  split; [exact H3|]. split; [reflexivity|]. split; [exact Hc|].
  exact (@generatePdf_named sound_platform R [img] (lit "Invoice") docs w
           print1 (mkFile [37]%N 1) H1 H2 eq_refl H3 eq_refl Hc).
Defined.

(** That run: the page that goes to the printer holds the one image as a
    PNG, and the document is stored as [Invoice.pdf]. *)
Example generatePdf_run :
  let R := mkRenderer (fun _ => lit "AAAA") (fun _ => lit "ENOENT")
             (fun _ _ => PrintSucceeds print1 (mkFile [37]%N 1)) in
  let img := EditedImage.mk (lit "1") (lit "file:///photos/a.png") 800 600
               (lit "a.png") None None in
  let w := mkWorld [(lit "file:///photos/a.png", mkFile [1; 2]%N 7)] 0 [] in
  embedded R (files w) img = lit "data:image/png;base64,AAAA"
  /\ fst (generatePdf sound_platform R 1 [img] (Some (lit "Invoice")) w)
     = Returned (docs ++ lit "Invoice.pdf").
Proof. split; vm_compute; reflexivity. Qed.

(* ================================================================== *)
(** ** The temporary name, and rejections *)
(* ================================================================== *)

Section TempName.

Lemma tempPdfName_clean (timestamp : Z) : clean_name (tempPdfName timestamp).
Proof.
  assert (Hd : Forall (fun c => file_name_char c = true /\ is_underscore c = false)
                 (Number_toString timestamp ++ lit ".pdf")).
  { apply Forall_app. split; [apply Number_toString_chars | repeat constructor]. }
  split.
  - unfold tempPdfName. apply Forall_app. split; [repeat constructor|].
    eapply Forall_impl; [|exact Hd]. intros c H; apply H.
  - unfold tempPdfName. apply has_underscore_run_app.
    + reflexivity.
    + apply no_underscore_no_run. eapply Forall_impl; [|exact Hd].
      intros c H; apply H.
    + destruct Hd as [|c t [_ Hc] _]; [exact I | exact Hc].
Qed.

Lemma tempPdfName_kept (timestamp : Z) :
  sanitizeFileName (tempPdfName timestamp) = tempPdfName timestamp.
Proof.
  rewrite (sanitizeFileName_of_clean (tempPdfName_clean timestamp)).
  replace (ends_with_pdf_ci (tempPdfName timestamp)) with true; [reflexivity|].
  symmetry. unfold tempPdfName. rewrite app_assoc. apply ends_with_pdf_ci_app.
Qed.

End TempName.

(** X19.  The way the application generates a document: [generatePdf] with
    the name [temp_<timestamp>.pdf].  When the images can be read, the
    printer and the copy work and no file has that name in the document
    directory, the document is stored there under exactly that name, without
    a retry, and is listed. *)
Theorem generatePdf_temporary_name
  (P : Platform) (R : Renderer) (images : list EditedImage.t)
  (timestamp : Z) (docDir : jsstring) (w : World) (printed : jsstring)
  (file : File) :
  images <> [] ->
  Forall (readable (files w)) images ->
  print_outcome R (files w) (html_page (map (embedded R (files w)) images))
  = PrintSucceeds printed file ->
  documentDirectory P = Some docDir ->
  copy_reliable P ->
  lookup (docDir ++ tempPdfName timestamp) (write printed file (files w)) = None ->
  exists mtime w' items w'',
    (forall fuel, 0 < fuel ->
       generatePdf P R fuel images (Some (tempPdfName timestamp)) w
       = (Returned (docDir ++ tempPdfName timestamp), w'))
    /\ ticks w' = ticks w
    /\ lookup (docDir ++ tempPdfName timestamp) (files w')
       = Some (mkFile (data file) mtime)
    /\ listAllPdfs P w' = (Returned items, w'')
    /\ In (tempPdfName timestamp) (map name items).
Proof.
  intros Hne Hread Hprint Hdir Hcopy Hfree.
  set (wp := mkWorld (write printed file (files w)) (ticks w)
               (console w
                ++ [console_log_entry "Generating PDF with"
                      (Number_toString (Z.of_nat (length images))
                       ++ lit " images")])).
  assert (Hsrc : lookup printed (files wp) = Some file)
    by apply lookup_write_same.
  assert (Hres : resolves P docDir wp (tempPdfName timestamp) 0
                   (tempPdfName timestamp)
                   (logged [console_log_entry "Renaming PDF to:"
                              (tempPdfName timestamp)] wp)).
  { rewrite <- (tempPdfName_kept timestamp) at 2 3.
    apply resolves_free. rewrite tempPdfName_kept. exact Hfree. }
  destruct (renamePdf_stores_at printed Hdir Hsrc Hcopy Hres)
    as (mtime & w' & Hrun & Ht & Hdiff & _ & Hfiles).
  assert (Hl : lookup (docDir ++ tempPdfName timestamp) (files w')
               = Some (mkFile (data file) mtime)).
  { cbv zeta in Hfiles. rewrite Hfiles. destruct (delete_error P _ printed).
    - apply lookup_write_same.
    - rewrite lookup_remove_other by congruence. apply lookup_write_same. }
  destruct (@listAllPdfs_result P docDir w' Hdir)
    as (items0 & w'' & El & Hnames & _).
  exists mtime, w', (Array_sort by_newest items0), w''.
  split; [|split; [|split; [exact Hl|split; [exact El|]]]].
  - intros fuel Hfuel.
    rewrite (@generatePdf_printed P R fuel images
               (Some (tempPdfName timestamp)) w printed file Hne Hread Hprint).
    cbv zeta. change (tempPdfName timestamp)
      with (116%N :: tl (tempPdfName timestamp)) at 1.
    apply Hrun. exact Hfuel.
  - rewrite Ht. unfold wp. cbn [ticks]. lia.
  - eapply Permutation_in;
      [apply Permutation_map, Permutation_sym, Array_sort_perm|].
    rewrite Hnames. apply filter_In. split.
    + eapply entry_names_in; [rewrite Hl; discriminate|].
      apply clean_name_entry; [apply tempPdfName_clean|].
      unfold tempPdfName. rewrite app_assoc. apply ends_with_pdf_ci_app.
    + unfold tempPdfName. rewrite app_assoc. apply ends_with_pdf_ci_app.
Qed.

(** One image from a file, generated as the application does. *)
Lemma generatePdf_temporary_name_witness :
  let R := mkRenderer (fun _ => lit "AAAA") (fun _ => lit "ENOENT")
             (fun _ _ => PrintSucceeds print1 (mkFile [37]%N 1)) in
  let img := EditedImage.mk (lit "1") (lit "file:///photos/a.png") 800 600
               (lit "a.png") None None in
  let w := mkWorld [(lit "file:///photos/a.png", mkFile [1; 2]%N 7)] 0 [] in
  let temp := tempPdfName 1700000000000 in
  [img] <> []
  /\ Forall (readable (files w)) [img]
  /\ print_outcome R (files w) (html_page (map (embedded R (files w)) [img]))
     = PrintSucceeds print1 (mkFile [37]%N 1)
  /\ documentDirectory sound_platform = Some docs
  /\ copy_reliable sound_platform
  /\ lookup (docs ++ temp) (write print1 (mkFile [37]%N 1) (files w)) = None
  /\ exists mtime w' items w'',
       (forall fuel, 0 < fuel ->
          generatePdf sound_platform R fuel [img] (Some temp) w
          = (Returned (docs ++ temp), w'))
       /\ ticks w' = ticks w
       /\ lookup (docs ++ temp) (files w')
          = Some (mkFile (data (mkFile [37]%N 1)) mtime)
       /\ listAllPdfs sound_platform w' = (Returned items, w'')
       /\ In temp (map name items).
Proof.
  intros R img w temp.
  assert (H1 : [img] <> []) by discriminate.
  assert (H2 : Forall (readable (files w)) [img]).
  { constructor; [right; vm_compute; discriminate | constructor]. }
  assert (Hc : copy_reliable sound_platform)
    by (intros fs from to; exists 1700000002%Z; reflexivity).
  assert (Hf : lookup (docs ++ temp)
                 (write print1 (mkFile [37]%N 1) (files w)) = None)
    by (vm_compute; reflexivity).
  split; [exact H1|]. split; [exact H2|]. split; [reflexivity|].
  split; [reflexivity|]. split; [exact Hc|]. split; [exact Hf|].
  exact (@generatePdf_temporary_name sound_platform R [img] 1700000000000 docs
           w print1 (mkFile [37]%N 1) H1 H2 eq_refl eq_refl Hc Hf).
Defined.

(** X20.  When the platform rejects the deletion of a file that exists,
    [deletePdfFile] rejects with the very message of the platform, with no
    wrapping; the file and all the others are still there, and the console
    has the error. *)
Theorem deletePdfFile_passes_rejection
  (P : Platform) (pdfUri : jsstring) (w : World) (message : jsstring) :
  stored pdfUri w ->
  delete_error P (files w) pdfUri = Some message ->
  exists w',
    deletePdfFile P pdfUri w = (Thrown message, w')
    /\ files w' = files w
    /\ In (console_error_entry "Error deleting PDF:" message) (console w').
Proof.
  unfold stored. intros Hs Hd.
  cbv beta iota zeta delta
    [deletePdfFile try_catch bind getInfoAsync deleteAsync console_log ret
     set_files console_error throw].
  destruct (lookup pdfUri (files w)) eqn:E; [|congruence].
  cbn [file_exists]. rewrite Hd. cbn [files ticks console].
  eexists. split; [reflexivity|]. split; [reflexivity|].
  cbn [console]. apply in_or_app. right. now left.
Qed.

(** A cached file that cannot be deleted. *)
Lemma deletePdfFile_passes_rejection_witness :
  stored print1 cache_world
  /\ delete_error locked_cache_platform (files cache_world) print1
     = Some (lit "Permission denied")
  /\ exists w',
       deletePdfFile locked_cache_platform print1 cache_world
       = (Thrown (lit "Permission denied"), w')
       /\ files w' = files cache_world
       /\ In (console_error_entry "Error deleting PDF:"
                (lit "Permission denied")) (console w').
Proof.
  assert (H : stored print1 cache_world) by (vm_compute; discriminate).
  split; [exact H|]. split; [reflexivity|].
  exact (@deletePdfFile_passes_rejection locked_cache_platform print1
           cache_world (lit "Permission denied") H eq_refl).
Defined.

(** X21.  Without a document directory [renamePdf] rejects with "Failed to
    rename PDF: Cannot access document directory", whether the source exists
    or not: that test comes before the one on the source.  Nothing is copied
    or deleted and the clock is not read. *)
Theorem renamePdf_without_directory
  (P : Platform) (fuel : nat) (sourceUri newFileName : jsstring) (w : World) :
  documentDirectory P = None ->
  exists w',
    renamePdf P (S fuel) sourceUri newFileName w
    = (Thrown (lit "Failed to rename PDF: Cannot access document directory"),
       w')
    /\ files w' = files w /\ ticks w' = ticks w.
Proof.
  intros Hdir. rewrite renamePdf_no_directory by assumption.
  eexists. split; [reflexivity|]. split; reflexivity.
Qed.

(** A platform that knows no document directory. *)
Lemma renamePdf_without_directory_witness :
  let P := mkPlatform None (fun _ => 0%Z) (fun _ _ _ => CopySucceeds 0)
             (lit "ENOENT") (fun _ _ => None) in
  documentDirectory P = None
  /\ exists w',
       renamePdf P 1 print1 (lit "Invoice") cache_world
       = (Thrown (lit "Failed to rename PDF: Cannot access document directory"),
          w')
       /\ files w' = files cache_world /\ ticks w' = ticks cache_world.
Proof.
  intros P. split; [reflexivity|].
  exact (@renamePdf_without_directory P 0 print1 (lit "Invoice") cache_world
           eq_refl).
Defined.
